(** * termshot: virtual terminal, lexer, compositor and themes

    A shallow embedding of the Go sources of termshot ([internal/ansi],
    [internal/highlight], [internal/img], [internal/theme] and the raw-write
    branch of [cmd]), followed by the properties of the specification that
    are checked against it.

    Conventions of the embedding:
    - a Go [int] is a [Z] in the range of a 64-bit signed integer, and the
      arithmetic that the code does on the cursor goes through [Go.wrap64],
      the wrap-around of Go;
    - a slice is a [list]; an index out of range is the run-time panic
      [Go.Panic] of the monad [Go.result];
    - a position in a slice ([i], [start], [l.pos]) is a [nat]: a slice that
      fits in memory is shorter than 2^63;
    - a Go [string] is its bytes, a [list ascii] (or a [string] where it is
      used as a key or a constant), and a [rune] is a [Z];
    - input arrives decoded: [bunt.ParseStream] turns bytes into
      [ColoredRune]s outside of the repository;
    - a loop that runs as long as there is input has fuel, and the fuel
      that is enough is proved;
    - what the code takes from the Go library and cannot be read off the
      repository ([fmt.Sscanf], the case folding of [encoding/json], Unicode
      tables beyond Latin-1, the width of the terminal) is a parameter. *)

From Stdlib Require Import ZArith Lia Ascii String.
From stdpp Require Import base decidable option list gmap strings.

(** ** Go run-time model *)

Module Go.

(** The outcome of code that may hit a run-time panic. *)
Inductive result (A : Type) : Type :=
| Ok (a : A)
| Panic.
Global Arguments Ok {A} a.
Global Arguments Panic {A}.

Global Instance result_ret : MRet result := fun A a => Ok a.
Global Instance result_bind : MBind result := fun A B f r =>
  match r with
  | Ok a => f a
  | Panic => Panic
  end.

Definition len {A} (l : list A) : Z := Z.of_nat (length l).

Definition minInt : Z := - 2 ^ 63.
Definition maxInt : Z := 2 ^ 63 - 1.

(** Signed 64-bit wrap-around of [int] arithmetic. *)
Definition wrap64 (z : Z) : Z := (z + 2 ^ 63) mod 2 ^ 64 - 2 ^ 63.

Definition add (a b : Z) : Z := wrap64 (a + b).
Definition sub (a b : Z) : Z := wrap64 (a - b).

(** [l[i]] *)
Definition index {A} (l : list A) (i : Z) : result A :=
  if (0 <=? i)%Z then
    match l !! Z.to_nat i with
    | Some x => Ok x
    | None => Panic
    end
  else Panic.

(** [l[i] = x] *)
Definition store {A} (l : list A) (i : Z) (x : A) : result (list A) :=
  if ((0 <=? i) && (i <? len l))%Z then Ok (<[Z.to_nat i := x]> l) else Panic.

(** [l[:n]]; every use in the code is guarded by a bound on [len l], so the
    capacity of the slice never matters. *)
Definition sliceTo {A} (l : list A) (n : Z) : result (list A) :=
  if ((0 <=? n) && (n <=? len l))%Z then Ok (take (Z.to_nat n) l) else Panic.

(** A byte as the rune with the same value, [rune(ch)]. *)
Definition rune (c : ascii) : Z := Z.of_N (N_of_ascii c).

(** [strconv.Atoi] on a non-empty string of decimal digits (given as their
    runes): the value, or the largest [int] when it does not fit (the range
    error is ignored by the caller). *)
Definition decimal (digits : list Z) : Z :=
  fold_left (fun acc d => 10 * acc + (d - 48))%Z digits 0%Z.
Definition Atoi (digits : list Z) : Z := Z.min (decimal digits) maxInt.

End Go.

Import Go.

(** ** bunt: the styled-character data model shared by all packages *)

Module Bunt.

(** [bunt.ColoredRune]: a symbol and its packed style bits ([uint64]). *)
Record ColoredRune : Type := mkCR { Symbol : Z; Settings : Z }.

(** [bunt.ColoredRune{Symbol: c}] *)
Definition plainRune (c : Z) : ColoredRune := mkCR c 0.

(** The decoding of text that carries no SGR code: one unstyled rune per
    character. *)
Definition plain (s : string) : list ColoredRune :=
  map (fun c => plainRune (rune c)) (list_ascii_of_string s).

Definition symbols (s : list ColoredRune) : list Z := map Symbol s.

(** The lines of a flattened buffer, without their line breaks. *)
Fixpoint splitLines (rs : list ColoredRune) : list (list ColoredRune) :=
  match rs with
  | [] => [[]]
  | cr :: rest =>
    if (Symbol cr =? 10)%Z then [] :: splitLines rest
    else
      match splitLines rest with
      | line :: more => (cr :: line) :: more
      | [] => [[cr]]
      end
  end.

End Bunt.

Import Bunt.

(** ** internal/ansi: the virtual terminal *)

Module Ansi.

Local Open Scope Z_scope.

Record VirtualTerminal : Type := mkVT {
  lines : list (list ColoredRune);
  cursorX : Z;
  cursorY : Z;
  settings : Z;
  maxColumns : Z
}.

Definition withLines (ls : list (list ColoredRune)) (vt : VirtualTerminal) :=
  mkVT ls (cursorX vt) (cursorY vt) (settings vt) (maxColumns vt).
Definition withCursorX (x : Z) (vt : VirtualTerminal) :=
  mkVT (lines vt) x (cursorY vt) (settings vt) (maxColumns vt).
Definition withCursorY (y : Z) (vt : VirtualTerminal) :=
  mkVT (lines vt) (cursorX vt) y (settings vt) (maxColumns vt).

Definition NewVirtualTerminal (maxColumns : Z) : VirtualTerminal :=
  let maxColumns := if maxColumns <=? 0 then 80 else maxColumns in
  mkVT [[]] 0 0 0 maxColumns.

Definition ESC : Z := 27.
Definition CR : Z := 13.
Definition LF : Z := 10.
Definition BS : Z := 8.
Definition blank : ColoredRune := plainRune (rune " ").

(** [for len(s) <= bound { s = append(s, x) }] *)
Definition growTo {A} (bound : Z) (x : A) (s : list A) : list A :=
  s ++ replicate (Z.to_nat (bound + 1 - len s)) x.

Definition ensureLineExists (line : Z) (vt : VirtualTerminal) : VirtualTerminal :=
  withLines (growTo line [] (lines vt)) vt.

Definition clearToEndOfLine (vt : VirtualTerminal) : result VirtualTerminal :=
  if cursorY vt <? len (lines vt) then
    row ← index (lines vt) (cursorY vt);
    if cursorX vt <? len row then
      row' ← sliceTo row (cursorX vt);
      ls ← store (lines vt) (cursorY vt) row';
      Ok (withLines ls vt)
    else Ok vt
  else Ok vt.

(** The loop [for i := 0; i <= cursorX && i < len(row); i++] blanks the
    first [min (cursorX + 1) (len row)] cells; the row is not looked at
    when [cursorX] is negative. *)
Definition clearToBeginningOfLine (vt : VirtualTerminal) : result VirtualTerminal :=
  if cursorY vt <? len (lines vt) then
    if 0 <=? cursorX vt then
      row ← index (lines vt) (cursorY vt);
      let k := Z.to_nat (Z.min (cursorX vt + 1) (len row)) in
      ls ← store (lines vt) (cursorY vt) (replicate k blank ++ drop k row);
      Ok (withLines ls vt)
    else Ok vt
  else Ok vt.

Definition clearLine (vt : VirtualTerminal) : result VirtualTerminal :=
  if cursorY vt <? len (lines vt) then
    ls ← store (lines vt) (cursorY vt) [];
    Ok (withLines ls vt)
  else Ok vt.

Definition clearToEndOfScreen (vt : VirtualTerminal) : result VirtualTerminal :=
  vt ← clearToEndOfLine vt;
  if add (cursorY vt) 1 <? len (lines vt) then
    ls ← sliceTo (lines vt) (add (cursorY vt) 1);
    Ok (withLines ls vt)
  else Ok vt.

(** The loop [for i := 0; i < cursorY && i < len(lines); i++] empties the
    first [min cursorY (len lines)] rows. *)
Definition clearToBeginningOfScreen (vt : VirtualTerminal) : result VirtualTerminal :=
  let k := Z.to_nat (Z.min (cursorY vt) (len (lines vt))) in
  clearToBeginningOfLine (withLines (replicate k [] ++ drop k (lines vt)) vt).

Definition clearScreen (vt : VirtualTerminal) : VirtualTerminal :=
  mkVT [[]] 0 0 (settings vt) (maxColumns vt).

Definition isDigit (ch : Z) : bool := (rune "0" <=? ch) && (ch <=? rune "9").

(** The parameter loop of [handleCSI], over the input from position [i] on.
    Returns the position at which the loop stopped and the parameters; the
    position is [len(parsed)] when no command letter was found. *)
Fixpoint scanParams (rest : list ColoredRune) (i : nat)
    (params : list Z) (paramBuf : list Z) : nat * list Z :=
  match rest with
  | [] => (i, params)
  | c :: rest' =>
    let ch := Symbol c in
    if isDigit ch then scanParams rest' (S i) params (paramBuf ++ [ch])
    else if ch =? rune ";" then
      match paramBuf with
      | _ :: _ => scanParams rest' (S i) (params ++ [Atoi paramBuf]) []
      | [] => scanParams rest' (S i) (params ++ [0]) paramBuf
      end
    else
      match paramBuf with
      | _ :: _ => (i, params ++ [Atoi paramBuf])
      | [] => (i, params)
      end
  end.

(** [n := 1; if len(params) > 0 && params[0] > 0 { n = params[0] }] *)
Definition countParam (params : list Z) : Z :=
  match params with
  | p :: _ => if 0 <? p then p else 1
  | [] => 1
  end.

(** [v := d; if len(params) > k { v = params[k] }] *)
Definition paramOr (d : Z) (k : nat) (params : list Z) : Z :=
  default d (params !! k).

Definition clampZero (z : Z) : Z := if z <? 0 then 0 else z.

(** The [switch command] of [handleCSI]: the new terminal, and whether the
    command was handled. *)
Definition runCommand (command : Z) (params : list Z) (vt : VirtualTerminal)
    : result (VirtualTerminal * bool) :=
  if command =? rune "A" then
    Ok (withCursorY (clampZero (sub (cursorY vt) (countParam params))) vt, true)
  else if command =? rune "B" then
    let vt := withCursorY (add (cursorY vt) (countParam params)) vt in
    Ok (ensureLineExists (cursorY vt) vt, true)
  else if command =? rune "C" then
    Ok (withCursorX (add (cursorX vt) (countParam params)) vt, true)
  else if command =? rune "D" then
    Ok (withCursorX (clampZero (sub (cursorX vt) (countParam params))) vt, true)
  else if command =? rune "G" then
    Ok (withCursorX (clampZero (sub (paramOr 1 0 params) 1)) vt, true)
  else if (command =? rune "H") || (command =? rune "f") then
    let row := paramOr 1 0 params in
    let col := paramOr 1 1 params in
    let vt := withCursorX (clampZero (sub col 1))
                (withCursorY (clampZero (sub row 1)) vt) in
    Ok (ensureLineExists (cursorY vt) vt, true)
  else if command =? rune "J" then
    let mode := paramOr 0 0 params in
    if mode =? 0 then vt ← clearToEndOfScreen vt; Ok (vt, true)
    else if mode =? 1 then vt ← clearToBeginningOfScreen vt; Ok (vt, true)
    else if (mode =? 2) || (mode =? 3) then Ok (clearScreen vt, true)
    else Ok (vt, true)
  else if command =? rune "K" then
    let mode := paramOr 0 0 params in
    if mode =? 0 then vt ← clearToEndOfLine vt; Ok (vt, true)
    else if mode =? 1 then vt ← clearToBeginningOfLine vt; Ok (vt, true)
    else if mode =? 2 then vt ← clearLine vt; Ok (vt, true)
    else Ok (vt, true)
  else if command =? rune "s" then Ok (vt, true)
  else if command =? rune "u" then Ok (vt, true)
  else Ok (vt, false).

(** [handleCSI]: the terminal after the call, the number of runes consumed
    and whether the sequence was handled. *)
Definition handleCSI (vt : VirtualTerminal) (parsed : list ColoredRune)
    (start : nat) : result (VirtualTerminal * nat * bool) :=
  if (length parsed <=? start + 2)%nat then Ok (vt, 0%nat, false)
  else
    let '(i, params) := scanParams (drop (start + 2) parsed) (start + 2) [] [] in
    match parsed !! i with
    | None => Ok (vt, 0%nat, false)
    | Some c =>
      let consumed := (i - start + 1)%nat in
      match runCommand (Symbol c) params vt with
      | Ok (vt', true) => Ok (vt', consumed, true)
      | Ok (vt', false) => Ok (vt', 0%nat, false)
      | Panic => Panic
      end
    end.

(** The body of the loop of [Parse] for an ordinary character. *)
Definition putRune (cr : ColoredRune) (vt : VirtualTerminal) : result VirtualTerminal :=
  let vt := ensureLineExists (cursorY vt) vt in
  row ← index (lines vt) (cursorY vt);
  ls ← store (lines vt) (cursorY vt) (growTo (cursorX vt) blank row);
  let vt := withLines ls vt in
  let vt :=
    if maxColumns vt <=? cursorX vt then
      let vt := withCursorX 0 (withCursorY (add (cursorY vt) 1) vt) in
      ensureLineExists (cursorY vt) vt
    else vt in
  row ← index (lines vt) (cursorY vt);
  row' ← store row (cursorX vt) cr;
  ls ← store (lines vt) (cursorY vt) row';
  Ok (withCursorX (add (cursorX vt) 1) (withLines ls vt)).

(** One iteration of the loop of [Parse] at position [i]: the terminal and
    the position after it. *)
Definition parseStep (parsed : list ColoredRune) (vt : VirtualTerminal) (i : nat)
    : result (VirtualTerminal * nat) :=
  match parsed !! i with
  | None => Panic
  | Some cr =>
    if Symbol cr =? ESC then
      match parsed !! S i with
      | Some next =>
        if Symbol next =? rune "[" then
          match handleCSI vt parsed i with
          | Ok (vt', consumed, true) => Ok (vt', (i + consumed)%nat)
          | Ok (vt', _, false) => Ok (vt', S i)
          | Panic => Panic
          end
        else Ok (vt, S i)
      | None => Ok (vt, S i)
      end
    else if Symbol cr =? CR then Ok (withCursorX 0 vt, S i)
    else if Symbol cr =? LF then
      let vt := withCursorX 0 (withCursorY (add (cursorY vt) 1) vt) in
      Ok (ensureLineExists (cursorY vt) vt, S i)
    else if Symbol cr =? BS then
      Ok (if 0 <? cursorX vt then withCursorX (sub (cursorX vt) 1) vt else vt, S i)
    else
      vt ← putRune cr vt; Ok (vt, S i)
  end.

(** The loop [for i < len(parsed)]; [None] when the fuel runs out. *)
Fixpoint parseLoop (fuel : nat) (parsed : list ColoredRune)
    (vt : VirtualTerminal) (i : nat) : option (result VirtualTerminal) :=
  if (length parsed <=? i)%nat then Some (Ok vt)
  else
    match fuel with
    | O => None
    | S fuel =>
      match parseStep parsed vt i with
      | Ok (vt', i') => parseLoop fuel parsed vt' i'
      | Panic => Some Panic
      end
    end.

(** The style of the line break that follows [line]. *)
Definition breakAfter (line : list ColoredRune) : ColoredRune :=
  mkCR LF (default 0 (Settings <$> last line)).

Fixpoint joinLines (ls : list (list ColoredRune)) : list ColoredRune :=
  match ls with
  | [] => []
  | [line] => line
  | line :: rest => line ++ breakAfter line :: joinLines rest
  end.

Definition toBuntString (vt : VirtualTerminal) : list ColoredRune :=
  joinLines (lines vt).

(** [Parse] on the decoded input, with the given fuel. *)
Definition ParseWith (fuel : nat) (vt : VirtualTerminal) (parsed : list ColoredRune)
    : option (result (list ColoredRune)) :=
  r ← parseLoop fuel parsed vt 0%nat;
  Some (vt' ← r; Ok (toBuntString vt')).

(** [vt.Parse(input)]: every iteration consumes a rune (see
    [parseLoop_terminates]), so the length of the input is enough fuel. *)
Definition Parse (vt : VirtualTerminal) (parsed : list ColoredRune) :=
  ParseWith (length parsed) vt parsed.

(** [NewVirtualTerminal(maxColumns).Parse(input)] *)
Definition interpret (maxColumns : Z) (parsed : list ColoredRune) :=
  Parse (NewVirtualTerminal maxColumns) parsed.

(** Vocabulary of the statements about the terminal. *)

(** [ESC [ body] as undecorated runes. *)
Definition csi (body : string) : list ColoredRune :=
  plainRune ESC :: plain ("[" ++ body).

(** A rune that keeps the parameter loop of [handleCSI] going. *)
Definition paramChar (c : ColoredRune) : bool :=
  isDigit (Symbol c) || (Symbol c =? rune ";").

(** A character that [Parse] writes to the grid or, for a line break, ends
    a row with: anything but escape, carriage return and backspace. *)
Definition ordinary (c : ColoredRune) : bool :=
  negb (Symbol c =? ESC) && negb (Symbol c =? CR) && negb (Symbol c =? BS).

(** No line of [parsed] goes beyond [maxColumns] columns, [col] of which
    are taken already. *)
Fixpoint fits (maxColumns col : Z) (parsed : list ColoredRune) : bool :=
  match parsed with
  | [] => true
  | c :: rest =>
    if Symbol c =? LF then fits maxColumns 0 rest
    else (col <? maxColumns) && fits maxColumns (col + 1) rest
  end.

(** [out] is [parsed] but for the style of its line breaks: the same
    symbols in the same order, every other character untouched. *)
Definition sameUpToBreaks (out parsed : list ColoredRune) : Prop :=
  Forall2 (fun o c => Symbol o = Symbol c /\ (Symbol c <> LF -> o = c)) out parsed.

(** A run of characters without a line break. *)
Definition unbroken (run : list ColoredRune) : bool :=
  forallb (fun c => negb (Symbol c =? LF)) run.


(** What the loop of [Parse] has built after [i] characters of plain text. *)
Record tracks (parsed : list ColoredRune) (m : Z) (i : nat) (vt : VirtualTerminal)
    : Prop := mkTracks {
  tracks_lines : lines vt = splitLines (take i parsed);
  tracks_row : cursorY vt = len (lines vt) - 1;
  tracks_col : cursorX vt = len (default [] (last (lines vt)));
  tracks_rows_bound : cursorY vt <= Z.of_nat i;
  tracks_columns : maxColumns vt = m;
  tracks_within : cursorX vt <= m
}.

(** The invariant of the grid and its cursor: the cursor is not negative
    and is on a row that exists (so there is a row). *)
Definition cursorOnGrid (vt : VirtualTerminal) : Prop :=
  0 <= cursorX vt /\ 0 <= cursorY vt < len (lines vt).





(** [ab], carriage return, [c]. *)
Definition overwritten : list ColoredRune :=
  plain "ab" ++ plainRune CR :: plain "c".

(** The terminal after [abcdef] has been written to a fresh terminal of 80
    columns. *)
Definition afterAbcdef : VirtualTerminal := mkVT [plain "abcdef"] 6 0 0 80.

End Ansi.


(** ** internal/highlight: the lexer for shell commands *)

Module Highlight.

Inductive TokenType : Type :=
| TokenCommand
| TokenKeyword
| TokenFlag
| TokenString
| TokenVariable
| TokenOperator
| TokenComment
| TokenNumber
| TokenPath
| TokenDefault.

(** [Token]; the field [Type] of the source is [Typ] here. *)
Record Token : Type := mkToken { Typ : TokenType; Value : list ascii }.

(** Shell keywords and built-ins *)
Definition shellKeywords : gset string :=
  list_to_set
    ["if"; "then"; "else"; "elif"; "fi";
     "case"; "esac"; "for"; "while"; "until";
     "do"; "done"; "in"; "function"; "select";
     "time"; "coproc"; "return"; "break"; "continue";
     "export"; "local"; "readonly"; "declare"; "typeset";
     "alias"; "unalias"; "set"; "unset"; "shift";
     "source"; "exec"; "eval"; "test"; "cd";
     "echo"; "printf"; "read"; "exit"; "true"; "false"].

Record Lexer : Type := mkLexer {
  input : list ascii;
  pos : nat;
  tokens : list Token
}.

Definition NewLexer (input : list ascii) : Lexer := mkLexer input 0 [].

Definition byteVal (ch : ascii) : N := N_of_ascii ch.

Definition between (lo hi : N) (ch : ascii) : bool :=
  ((lo <=? byteVal ch) && (byteVal ch <=? hi))%N.

(** [unicode.IsSpace(rune(ch))] for a byte: the white space of Latin-1. *)
Definition isSpace (ch : ascii) : bool :=
  between 9 13 ch || between 32 32 ch || between 133 133 ch || between 160 160 ch.

(** [unicode.IsLetter(rune(ch))] for a byte: the letters of Latin-1. *)
Definition isLetter (ch : ascii) : bool :=
  between 65 90 ch || between 97 122 ch ||
  between 170 170 ch || between 181 181 ch || between 186 186 ch ||
  between 192 214 ch || between 216 246 ch || between 248 255 ch.

(** [unicode.IsDigit(rune(ch))] for a byte. *)
Definition isDigit (ch : ascii) : bool := between 48 57 ch.

(** [strings.ContainsRune(set, rune(ch))] for an ASCII [set]: a byte above
    127 is a rune that no ASCII string contains. *)
Definition containsRune (set : list ascii) (ch : ascii) : bool :=
  existsb (Ascii.eqb ch) set.

Definition dquote : ascii := ascii_of_nat 34.
Definition backslash : ascii := ascii_of_nat 92.
Definition newline : ascii := ascii_of_nat 10.

(** The three character sets of the source: of [Tokenize], of [tokenizeWord]
    and of [tokenizeFlag]. *)
Definition operatorChars : list ascii := list_ascii_of_string "|&;<>()[]{}!*".
Definition wordStops : list ascii :=
  list_ascii_of_string "|&;<>()[]{}" ++ dquote :: list_ascii_of_string "'`$#".
Definition flagStops : list ascii :=
  list_ascii_of_string "|&;<>()[]{}" ++ dquote :: list_ascii_of_string "'`$".

(** [string(ch)] for a byte [ch]: Go converts the integer to the UTF-8
    encoding of the code point with that value, which takes two bytes from
    128 on. *)
Definition stringOfByte (ch : ascii) : list ascii :=
  if (byteVal ch <? 128)%N then [ch]
  else [ascii_of_N (192 + byteVal ch / 64); ascii_of_N (128 + byteVal ch mod 64)].

(** [s[start:stop]] *)
Definition substr (s : list ascii) (start stop : nat) : list ascii :=
  take (stop - start) (drop start s).

(** The number of leading elements that satisfy [p]: how far a loop
    [for pos < len(input) { if !p(input[pos]) { break }; pos++ }] advances. *)
Fixpoint span (p : ascii -> bool) (rest : list ascii) : nat :=
  match rest with
  | [] => 0
  | ch :: rest' => if p ch then S (span p rest') else 0
  end.

Definition addToken (tokenType : TokenType) (value : list ascii) (l : Lexer) : Lexer :=
  mkLexer (input l) (pos l) (tokens l ++ [mkToken tokenType value]).

Definition withPos (p : nat) (l : Lexer) : Lexer :=
  mkLexer (input l) p (tokens l).

(** [l.tokens[len(l.tokens)-1].Type = t]; only used right after [addToken]. *)
Definition setLastType (t : TokenType) (l : Lexer) : Lexer :=
  match reverse (tokens l) with
  | tok :: before => mkLexer (input l) (pos l) (reverse before ++ [mkToken t (Value tok)])
  | [] => l
  end.

Definition tokenizeWord (l : Lexer) : Lexer * list ascii :=
  let start := pos l in
  let stop := start +
    span (fun ch => negb (isSpace ch || containsRune wordStops ch)) (drop start (input l)) in
  let word := substr (input l) start stop in
  (addToken TokenDefault word (withPos stop l), word).

(** The loop of [tokenizeString] from the rune after the opening quote:
    the number of bytes it steps over. *)
Fixpoint stringSpan (quote : ascii) (rest : list ascii) : nat :=
  match rest with
  | [] => 0
  | ch :: rest' =>
    if Ascii.eqb ch quote then 1
    else if Ascii.eqb ch backslash then
      match rest' with
      | _ :: rest'' => 2 + stringSpan quote rest''
      | [] => 1
      end
    else S (stringSpan quote rest')
  end.

Definition tokenizeString (quote : ascii) (l : Lexer) : Lexer :=
  let start := pos l in
  let stop := S start + stringSpan quote (drop (S start) (input l)) in
  addToken TokenString (substr (input l) start stop) (withPos stop l).

Definition tokenizeVariable (l : Lexer) : Lexer :=
  let start := pos l in
  let p := S start in
  let stop :=
    match input l !! p with
    | Some ch =>
      if Ascii.eqb ch "{" then
        let p := S p in
        let p := p + span (fun ch => negb (Ascii.eqb ch "}")) (drop p (input l)) in
        if p <? length (input l) then S p else p
      else
        p + span (fun ch => isLetter ch || isDigit ch || Ascii.eqb ch "_") (drop p (input l))
    | None => p
    end in
  addToken TokenVariable (substr (input l) start stop) (withPos stop l).

Definition tokenizeFlag (l : Lexer) : Lexer :=
  let start := pos l in
  let p := S start in
  let p :=
    match input l !! p with
    | Some ch => if Ascii.eqb ch "-" then S p else p
    | None => p
    end in
  let stop := p +
    span (fun ch => negb (isSpace ch || containsRune flagStops ch)) (drop p (input l)) in
  addToken TokenFlag (substr (input l) start stop) (withPos stop l).

Definition twoCharOperator (ch next : ascii) : bool :=
  (Ascii.eqb ch "|" && Ascii.eqb next "|") || (Ascii.eqb ch "&" && Ascii.eqb next "&") ||
  (Ascii.eqb ch ">" && Ascii.eqb next ">") || (Ascii.eqb ch "<" && Ascii.eqb next "<") ||
  (Ascii.eqb ch ">" && Ascii.eqb next "&") || (Ascii.eqb ch "<" && Ascii.eqb next "&").

(** [tokenizeOperator]; [ch] is [l.input[l.pos]]. *)
Definition tokenizeOperator (ch : ascii) (l : Lexer) : Lexer :=
  let start := pos l in
  let p := S start in
  let stop :=
    match input l !! p with
    | Some next => if twoCharOperator ch next then S p else p
    | None => p
    end in
  addToken TokenOperator (substr (input l) start stop) (withPos stop l).

Definition tokenizeComment (l : Lexer) : Lexer :=
  let start := pos l in
  let stop := start + span (fun ch => negb (Ascii.eqb ch newline)) (drop start (input l)) in
  addToken TokenComment (substr (input l) start stop) (withPos stop l).

Definition hasPrefix (s prefix : list ascii) : bool :=
  bool_decide (take (length prefix) s = prefix).

Definition isPath (word : list ascii) : bool :=
  hasPrefix word (list_ascii_of_string "/") ||
  hasPrefix word (list_ascii_of_string "./") ||
  hasPrefix word (list_ascii_of_string "../") ||
  hasPrefix word (list_ascii_of_string "~/").

(** [shellKeywords[word]] *)
Definition isKeyword (word : list ascii) : bool :=
  bool_decide (string_of_list_ascii word ∈ shellKeywords).

Section Lexer.

(** Two pieces of the Go library that [isNumber] relies on and that are not
    part of the repository: the decoding of a string into runes that
    [for _, ch := range word] performs, and [unicode.IsDigit]. *)
Variable decodeRunes : list ascii -> list Z.
Variable unicodeIsDigit : Z -> bool.

Definition isNumber (word : list ascii) : bool :=
  forallb unicodeIsDigit (decodeRunes word) && (0 <? length word).

(** One iteration of the loop of [Tokenize], at the byte [ch = l.input[l.pos]]:
    the lexer and [isFirstWord] after it. *)
Definition tokenizeStep (ch : ascii) (l : Lexer) (isFirstWord : bool) : Lexer * bool :=
  if isSpace ch then
    (withPos (S (pos l)) (addToken TokenDefault (stringOfByte ch) l), isFirstWord)
  else if Ascii.eqb ch "#" then (tokenizeComment l, isFirstWord)
  else if Ascii.eqb ch dquote || Ascii.eqb ch "'" || Ascii.eqb ch "`" then
    (tokenizeString ch l, false)
  else if Ascii.eqb ch "$" then (tokenizeVariable l, false)
  else if containsRune operatorChars ch then
    (tokenizeOperator ch l,
     if Ascii.eqb ch "|" || Ascii.eqb ch "&" || Ascii.eqb ch ";" then true else isFirstWord)
  else if Ascii.eqb ch "-" &&
          match input l !! S (pos l) with
          | Some next => negb (isSpace next)
          | None => false
          end then
    (tokenizeFlag l, false)
  else if isLetter ch || isDigit ch || Ascii.eqb ch "." || Ascii.eqb ch "/" ||
          Ascii.eqb ch "_" || Ascii.eqb ch "~" then
    let '(l, word) := tokenizeWord l in
    if isFirstWord then
      (setLastType (if isKeyword word then TokenKeyword else TokenCommand) l, false)
    else if isKeyword word then (setLastType TokenKeyword l, isFirstWord)
    else if isPath word then (setLastType TokenPath l, isFirstWord)
    else if isNumber word then (setLastType TokenNumber l, isFirstWord)
    else (l, isFirstWord)
  else
    (withPos (S (pos l)) (addToken TokenDefault (stringOfByte ch) l), isFirstWord).

(** The loop [for l.pos < len(l.input)]; [None] when the fuel runs out. *)
Fixpoint tokenizeLoop (fuel : nat) (l : Lexer) (isFirstWord : bool) : option Lexer :=
  match input l !! pos l with
  | None => Some l
  | Some ch =>
    match fuel with
    | O => None
    | S fuel =>
      let '(l, isFirstWord) := tokenizeStep ch l isFirstWord in
      tokenizeLoop fuel l isFirstWord
    end
  end.

(** [NewLexer(input).Tokenize()]: every iteration consumes a byte (see
    [tokenizeLoop_terminates]), so the length of the input is enough fuel. *)
Definition Tokenize (input : list ascii) : option (list Token) :=
  tokens <$> tokenizeLoop (length input) (NewLexer input) true.

End Lexer.

(** The concatenation of the literal text of the tokens. *)
Definition literal (toks : list Token) : list ascii := concat (map Value toks).

(** Bytes of a command of ASCII characters only. *)
Definition isASCII (s : list ascii) : bool :=
  forallb (fun ch => (byteVal ch <? 128)%N) s.

(** One iteration of [Tokenize] at the byte [ch] takes the lexer from [l] to
    [l']: the input is the same, the position has moved forward within it,
    and one token has been added whose text is the input between the two
    positions or, for a byte that is turned into a string on its own, that
    string. *)
Definition stepsTo (ch : ascii) (l l' : Lexer) : Prop :=
  input l' = input l /\
  pos l < pos l' <= length (input l) /\
  exists t v,
    tokens l' = tokens l ++ [mkToken t v] /\
    (v = substr (input l) (pos l) (pos l') \/
     v = stringOfByte ch /\ pos l' = S (pos l)).

(** The two bytes of the UTF-8 encoding of U+00E0, in which the second is
    also the Latin-1 code of the no-break space. *)
Definition aGrave : list ascii := [ascii_of_nat 195; ascii_of_nat 160].

(** The decoding and the digit test on ASCII, where they are not in doubt. *)
Definition asciiRunes (s : list ascii) : list Z := map rune s.
Definition asciiIsDigit (r : Z) : bool := ((48 <=? r) && (r <=? 57))%Z.

End Highlight.

(** ** internal/theme: colour themes *)

Module Theme.

Record Theme : Type := mkTheme {
  Name : string;
  Background : string;
  Foreground : string;
  WindowRed : string;
  WindowYellow : string;
  WindowGreen : string;
  WindowBorder : string;
  Shadow : string;
  Black : string;
  Red : string;
  Green : string;
  Yellow : string;
  Blue : string;
  Magenta : string;
  Cyan : string;
  White : string;
  BrightBlack : string;
  BrightRed : string;
  BrightGreen : string;
  BrightYellow : string;
  BrightBlue : string;
  BrightMagenta : string;
  BrightCyan : string;
  BrightWhite : string
}.

(** [Theme{}], the zero value. *)
Definition zeroTheme : Theme :=
  mkTheme EmptyString EmptyString EmptyString EmptyString EmptyString EmptyString
    EmptyString EmptyString EmptyString EmptyString EmptyString EmptyString EmptyString
    EmptyString EmptyString EmptyString EmptyString EmptyString EmptyString EmptyString
    EmptyString EmptyString EmptyString EmptyString.

(** The fields of [Theme], to address them by their JSON key. *)
Inductive field : Type :=
| FName
| FBackground
| FForeground
| FWindowRed
| FWindowYellow
| FWindowGreen
| FWindowBorder
| FShadow
| FBlack
| FRed
| FGreen
| FYellow
| FBlue
| FMagenta
| FCyan
| FWhite
| FBrightBlack
| FBrightRed
| FBrightGreen
| FBrightYellow
| FBrightBlue
| FBrightMagenta
| FBrightCyan
| FBrightWhite.

Definition allFields : list field :=
  [FName; FBackground; FForeground; FWindowRed; FWindowYellow; FWindowGreen;
   FWindowBorder; FShadow; FBlack; FRed; FGreen; FYellow; FBlue; FMagenta; FCyan; FWhite;
   FBrightBlack; FBrightRed; FBrightGreen; FBrightYellow; FBrightBlue; FBrightMagenta;
   FBrightCyan; FBrightWhite].

(** The [json:] tag of a field. *)
Definition jsonKey (f : field) : string :=
  match f with
  | FName => "name"
  | FBackground => "background"
  | FForeground => "foreground"
  | FWindowRed => "window_red"
  | FWindowYellow => "window_yellow"
  | FWindowGreen => "window_green"
  | FWindowBorder => "window_border"
  | FShadow => "shadow"
  | FBlack => "black"
  | FRed => "red"
  | FGreen => "green"
  | FYellow => "yellow"
  | FBlue => "blue"
  | FMagenta => "magenta"
  | FCyan => "cyan"
  | FWhite => "white"
  | FBrightBlack => "bright_black"
  | FBrightRed => "bright_red"
  | FBrightGreen => "bright_green"
  | FBrightYellow => "bright_yellow"
  | FBrightBlue => "bright_blue"
  | FBrightMagenta => "bright_magenta"
  | FBrightCyan => "bright_cyan"
  | FBrightWhite => "bright_white"
  end.

Definition getField (f : field) (t : Theme) : string :=
  match f with
  | FName => Name t
  | FBackground => Background t
  | FForeground => Foreground t
  | FWindowRed => WindowRed t
  | FWindowYellow => WindowYellow t
  | FWindowGreen => WindowGreen t
  | FWindowBorder => WindowBorder t
  | FShadow => Shadow t
  | FBlack => Black t
  | FRed => Red t
  | FGreen => Green t
  | FYellow => Yellow t
  | FBlue => Blue t
  | FMagenta => Magenta t
  | FCyan => Cyan t
  | FWhite => White t
  | FBrightBlack => BrightBlack t
  | FBrightRed => BrightRed t
  | FBrightGreen => BrightGreen t
  | FBrightYellow => BrightYellow t
  | FBrightBlue => BrightBlue t
  | FBrightMagenta => BrightMagenta t
  | FBrightCyan => BrightCyan t
  | FBrightWhite => BrightWhite t
  end.

Definition setField (f : field) (v : string) (t : Theme) : Theme :=
  match f with
  | FName =>
    mkTheme v (Background t) (Foreground t) (WindowRed t) (WindowYellow t)
      (WindowGreen t) (WindowBorder t) (Shadow t) (Black t) (Red t) (Green t) (Yellow t)
      (Blue t) (Magenta t) (Cyan t) (White t) (BrightBlack t) (BrightRed t)
      (BrightGreen t) (BrightYellow t) (BrightBlue t) (BrightMagenta t) (BrightCyan t)
      (BrightWhite t)
  | FBackground =>
    mkTheme (Name t) v (Foreground t) (WindowRed t) (WindowYellow t) (WindowGreen t)
      (WindowBorder t) (Shadow t) (Black t) (Red t) (Green t) (Yellow t) (Blue t)
      (Magenta t) (Cyan t) (White t) (BrightBlack t) (BrightRed t) (BrightGreen t)
      (BrightYellow t) (BrightBlue t) (BrightMagenta t) (BrightCyan t) (BrightWhite t)
  | FForeground =>
    mkTheme (Name t) (Background t) v (WindowRed t) (WindowYellow t) (WindowGreen t)
      (WindowBorder t) (Shadow t) (Black t) (Red t) (Green t) (Yellow t) (Blue t)
      (Magenta t) (Cyan t) (White t) (BrightBlack t) (BrightRed t) (BrightGreen t)
      (BrightYellow t) (BrightBlue t) (BrightMagenta t) (BrightCyan t) (BrightWhite t)
  | FWindowRed =>
    mkTheme (Name t) (Background t) (Foreground t) v (WindowYellow t) (WindowGreen t)
      (WindowBorder t) (Shadow t) (Black t) (Red t) (Green t) (Yellow t) (Blue t)
      (Magenta t) (Cyan t) (White t) (BrightBlack t) (BrightRed t) (BrightGreen t)
      (BrightYellow t) (BrightBlue t) (BrightMagenta t) (BrightCyan t) (BrightWhite t)
  | FWindowYellow =>
    mkTheme (Name t) (Background t) (Foreground t) (WindowRed t) v (WindowGreen t)
      (WindowBorder t) (Shadow t) (Black t) (Red t) (Green t) (Yellow t) (Blue t)
      (Magenta t) (Cyan t) (White t) (BrightBlack t) (BrightRed t) (BrightGreen t)
      (BrightYellow t) (BrightBlue t) (BrightMagenta t) (BrightCyan t) (BrightWhite t)
  | FWindowGreen =>
    mkTheme (Name t) (Background t) (Foreground t) (WindowRed t) (WindowYellow t) v
      (WindowBorder t) (Shadow t) (Black t) (Red t) (Green t) (Yellow t) (Blue t)
      (Magenta t) (Cyan t) (White t) (BrightBlack t) (BrightRed t) (BrightGreen t)
      (BrightYellow t) (BrightBlue t) (BrightMagenta t) (BrightCyan t) (BrightWhite t)
  | FWindowBorder =>
    mkTheme (Name t) (Background t) (Foreground t) (WindowRed t) (WindowYellow t)
      (WindowGreen t) v (Shadow t) (Black t) (Red t) (Green t) (Yellow t) (Blue t)
      (Magenta t) (Cyan t) (White t) (BrightBlack t) (BrightRed t) (BrightGreen t)
      (BrightYellow t) (BrightBlue t) (BrightMagenta t) (BrightCyan t) (BrightWhite t)
  | FShadow =>
    mkTheme (Name t) (Background t) (Foreground t) (WindowRed t) (WindowYellow t)
      (WindowGreen t) (WindowBorder t) v (Black t) (Red t) (Green t) (Yellow t) (Blue t)
      (Magenta t) (Cyan t) (White t) (BrightBlack t) (BrightRed t) (BrightGreen t)
      (BrightYellow t) (BrightBlue t) (BrightMagenta t) (BrightCyan t) (BrightWhite t)
  | FBlack =>
    mkTheme (Name t) (Background t) (Foreground t) (WindowRed t) (WindowYellow t)
      (WindowGreen t) (WindowBorder t) (Shadow t) v (Red t) (Green t) (Yellow t) (Blue t)
      (Magenta t) (Cyan t) (White t) (BrightBlack t) (BrightRed t) (BrightGreen t)
      (BrightYellow t) (BrightBlue t) (BrightMagenta t) (BrightCyan t) (BrightWhite t)
  | FRed =>
    mkTheme (Name t) (Background t) (Foreground t) (WindowRed t) (WindowYellow t)
      (WindowGreen t) (WindowBorder t) (Shadow t) (Black t) v (Green t) (Yellow t)
      (Blue t) (Magenta t) (Cyan t) (White t) (BrightBlack t) (BrightRed t)
      (BrightGreen t) (BrightYellow t) (BrightBlue t) (BrightMagenta t) (BrightCyan t)
      (BrightWhite t)
  | FGreen =>
    mkTheme (Name t) (Background t) (Foreground t) (WindowRed t) (WindowYellow t)
      (WindowGreen t) (WindowBorder t) (Shadow t) (Black t) (Red t) v (Yellow t) (Blue t)
      (Magenta t) (Cyan t) (White t) (BrightBlack t) (BrightRed t) (BrightGreen t)
      (BrightYellow t) (BrightBlue t) (BrightMagenta t) (BrightCyan t) (BrightWhite t)
  | FYellow =>
    mkTheme (Name t) (Background t) (Foreground t) (WindowRed t) (WindowYellow t)
      (WindowGreen t) (WindowBorder t) (Shadow t) (Black t) (Red t) (Green t) v (Blue t)
      (Magenta t) (Cyan t) (White t) (BrightBlack t) (BrightRed t) (BrightGreen t)
      (BrightYellow t) (BrightBlue t) (BrightMagenta t) (BrightCyan t) (BrightWhite t)
  | FBlue =>
    mkTheme (Name t) (Background t) (Foreground t) (WindowRed t) (WindowYellow t)
      (WindowGreen t) (WindowBorder t) (Shadow t) (Black t) (Red t) (Green t) (Yellow t)
      v (Magenta t) (Cyan t) (White t) (BrightBlack t) (BrightRed t) (BrightGreen t)
      (BrightYellow t) (BrightBlue t) (BrightMagenta t) (BrightCyan t) (BrightWhite t)
  | FMagenta =>
    mkTheme (Name t) (Background t) (Foreground t) (WindowRed t) (WindowYellow t)
      (WindowGreen t) (WindowBorder t) (Shadow t) (Black t) (Red t) (Green t) (Yellow t)
      (Blue t) v (Cyan t) (White t) (BrightBlack t) (BrightRed t) (BrightGreen t)
      (BrightYellow t) (BrightBlue t) (BrightMagenta t) (BrightCyan t) (BrightWhite t)
  | FCyan =>
    mkTheme (Name t) (Background t) (Foreground t) (WindowRed t) (WindowYellow t)
      (WindowGreen t) (WindowBorder t) (Shadow t) (Black t) (Red t) (Green t) (Yellow t)
      (Blue t) (Magenta t) v (White t) (BrightBlack t) (BrightRed t) (BrightGreen t)
      (BrightYellow t) (BrightBlue t) (BrightMagenta t) (BrightCyan t) (BrightWhite t)
  | FWhite =>
    mkTheme (Name t) (Background t) (Foreground t) (WindowRed t) (WindowYellow t)
      (WindowGreen t) (WindowBorder t) (Shadow t) (Black t) (Red t) (Green t) (Yellow t)
      (Blue t) (Magenta t) (Cyan t) v (BrightBlack t) (BrightRed t) (BrightGreen t)
      (BrightYellow t) (BrightBlue t) (BrightMagenta t) (BrightCyan t) (BrightWhite t)
  | FBrightBlack =>
    mkTheme (Name t) (Background t) (Foreground t) (WindowRed t) (WindowYellow t)
      (WindowGreen t) (WindowBorder t) (Shadow t) (Black t) (Red t) (Green t) (Yellow t)
      (Blue t) (Magenta t) (Cyan t) (White t) v (BrightRed t) (BrightGreen t)
      (BrightYellow t) (BrightBlue t) (BrightMagenta t) (BrightCyan t) (BrightWhite t)
  | FBrightRed =>
    mkTheme (Name t) (Background t) (Foreground t) (WindowRed t) (WindowYellow t)
      (WindowGreen t) (WindowBorder t) (Shadow t) (Black t) (Red t) (Green t) (Yellow t)
      (Blue t) (Magenta t) (Cyan t) (White t) (BrightBlack t) v (BrightGreen t)
      (BrightYellow t) (BrightBlue t) (BrightMagenta t) (BrightCyan t) (BrightWhite t)
  | FBrightGreen =>
    mkTheme (Name t) (Background t) (Foreground t) (WindowRed t) (WindowYellow t)
      (WindowGreen t) (WindowBorder t) (Shadow t) (Black t) (Red t) (Green t) (Yellow t)
      (Blue t) (Magenta t) (Cyan t) (White t) (BrightBlack t) (BrightRed t) v
      (BrightYellow t) (BrightBlue t) (BrightMagenta t) (BrightCyan t) (BrightWhite t)
  | FBrightYellow =>
    mkTheme (Name t) (Background t) (Foreground t) (WindowRed t) (WindowYellow t)
      (WindowGreen t) (WindowBorder t) (Shadow t) (Black t) (Red t) (Green t) (Yellow t)
      (Blue t) (Magenta t) (Cyan t) (White t) (BrightBlack t) (BrightRed t)
      (BrightGreen t) v (BrightBlue t) (BrightMagenta t) (BrightCyan t) (BrightWhite t)
  | FBrightBlue =>
    mkTheme (Name t) (Background t) (Foreground t) (WindowRed t) (WindowYellow t)
      (WindowGreen t) (WindowBorder t) (Shadow t) (Black t) (Red t) (Green t) (Yellow t)
      (Blue t) (Magenta t) (Cyan t) (White t) (BrightBlack t) (BrightRed t)
      (BrightGreen t) (BrightYellow t) v (BrightMagenta t) (BrightCyan t) (BrightWhite t)
  | FBrightMagenta =>
    mkTheme (Name t) (Background t) (Foreground t) (WindowRed t) (WindowYellow t)
      (WindowGreen t) (WindowBorder t) (Shadow t) (Black t) (Red t) (Green t) (Yellow t)
      (Blue t) (Magenta t) (Cyan t) (White t) (BrightBlack t) (BrightRed t)
      (BrightGreen t) (BrightYellow t) (BrightBlue t) v (BrightCyan t) (BrightWhite t)
  | FBrightCyan =>
    mkTheme (Name t) (Background t) (Foreground t) (WindowRed t) (WindowYellow t)
      (WindowGreen t) (WindowBorder t) (Shadow t) (Black t) (Red t) (Green t) (Yellow t)
      (Blue t) (Magenta t) (Cyan t) (White t) (BrightBlack t) (BrightRed t)
      (BrightGreen t) (BrightYellow t) (BrightBlue t) (BrightMagenta t) v (BrightWhite t)
  | FBrightWhite =>
    mkTheme (Name t) (Background t) (Foreground t) (WindowRed t) (WindowYellow t)
      (WindowGreen t) (WindowBorder t) (Shadow t) (Black t) (Red t) (Green t) (Yellow t)
      (Blue t) (Magenta t) (Cyan t) (White t) (BrightBlack t) (BrightRed t)
      (BrightGreen t) (BrightYellow t) (BrightBlue t) (BrightMagenta t) (BrightCyan t) v
  end.

(** Preset themes *)
Definition preset_default : Theme := {|
  Name := "Default";
  Background := "#151515";
  Foreground := "#D3D3D3";
  WindowRed := "#ED655A";
  WindowYellow := "#E1C04C";
  WindowGreen := "#71BD47";
  WindowBorder := "#404040";
  Shadow := "#10101066";
  Black := "#000000";
  Red := "#E06C75";
  Green := "#98C379";
  Yellow := "#E5C07B";
  Blue := "#61AFEF";
  Magenta := "#C678DD";
  Cyan := "#56B6C2";
  White := "#ABB2BF";
  BrightBlack := "#5C6370";
  BrightRed := "#E06C75";
  BrightGreen := "#98C379";
  BrightYellow := "#E5C07B";
  BrightBlue := "#61AFEF";
  BrightMagenta := "#C678DD";
  BrightCyan := "#56B6C2";
  BrightWhite := "#FFFFFF"
|}.

Definition preset_catppuccin_mocha : Theme := {|
  Name := "Catppuccin Mocha";
  Background := "#1e1e2e";
  Foreground := "#cdd6f4";
  WindowRed := "#f38ba8";
  WindowYellow := "#f9e2af";
  WindowGreen := "#a6e3a1";
  WindowBorder := "#45475a";
  Shadow := "#11111b66";
  Black := "#45475a";
  Red := "#f38ba8";
  Green := "#a6e3a1";
  Yellow := "#f9e2af";
  Blue := "#89b4fa";
  Magenta := "#f5c2e7";
  Cyan := "#94e2d5";
  White := "#bac2de";
  BrightBlack := "#585b70";
  BrightRed := "#f38ba8";
  BrightGreen := "#a6e3a1";
  BrightYellow := "#f9e2af";
  BrightBlue := "#89b4fa";
  BrightMagenta := "#f5c2e7";
  BrightCyan := "#94e2d5";
  BrightWhite := "#a6adc8"
|}.

Definition preset_catppuccin_latte : Theme := {|
  Name := "Catppuccin Latte";
  Background := "#eff1f5";
  Foreground := "#4c4f69";
  WindowRed := "#d20f39";
  WindowYellow := "#df8e1d";
  WindowGreen := "#40a02b";
  WindowBorder := "#acb0be";
  Shadow := "#e6e9ef66";
  Black := "#5c5f77";
  Red := "#d20f39";
  Green := "#40a02b";
  Yellow := "#df8e1d";
  Blue := "#1e66f5";
  Magenta := "#ea76cb";
  Cyan := "#179299";
  White := "#acb0be";
  BrightBlack := "#6c6f85";
  BrightRed := "#d20f39";
  BrightGreen := "#40a02b";
  BrightYellow := "#df8e1d";
  BrightBlue := "#1e66f5";
  BrightMagenta := "#ea76cb";
  BrightCyan := "#179299";
  BrightWhite := "#bcc0cc"
|}.

Definition preset_nord : Theme := {|
  Name := "Nord";
  Background := "#2e3440";
  Foreground := "#d8dee9";
  WindowRed := "#bf616a";
  WindowYellow := "#ebcb8b";
  WindowGreen := "#a3be8c";
  WindowBorder := "#4c566a";
  Shadow := "#2e344066";
  Black := "#3b4252";
  Red := "#bf616a";
  Green := "#a3be8c";
  Yellow := "#ebcb8b";
  Blue := "#81a1c1";
  Magenta := "#b48ead";
  Cyan := "#88c0d0";
  White := "#e5e9f0";
  BrightBlack := "#4c566a";
  BrightRed := "#bf616a";
  BrightGreen := "#a3be8c";
  BrightYellow := "#ebcb8b";
  BrightBlue := "#81a1c1";
  BrightMagenta := "#b48ead";
  BrightCyan := "#8fbcbb";
  BrightWhite := "#eceff4"
|}.

Definition preset_dracula : Theme := {|
  Name := "Dracula";
  Background := "#282a36";
  Foreground := "#f8f8f2";
  WindowRed := "#ff5555";
  WindowYellow := "#f1fa8c";
  WindowGreen := "#50fa7b";
  WindowBorder := "#44475a";
  Shadow := "#21222c66";
  Black := "#21222c";
  Red := "#ff5555";
  Green := "#50fa7b";
  Yellow := "#f1fa8c";
  Blue := "#bd93f9";
  Magenta := "#ff79c6";
  Cyan := "#8be9fd";
  White := "#f8f8f2";
  BrightBlack := "#6272a4";
  BrightRed := "#ff6e6e";
  BrightGreen := "#69ff94";
  BrightYellow := "#ffffa5";
  BrightBlue := "#d6acff";
  BrightMagenta := "#ff92df";
  BrightCyan := "#a4ffff";
  BrightWhite := "#ffffff"
|}.

Definition preset_tokyo_night : Theme := {|
  Name := "Tokyo Night";
  Background := "#1a1b26";
  Foreground := "#c0caf5";
  WindowRed := "#f7768e";
  WindowYellow := "#e0af68";
  WindowGreen := "#9ece6a";
  WindowBorder := "#414868";
  Shadow := "#16161e66";
  Black := "#15161e";
  Red := "#f7768e";
  Green := "#9ece6a";
  Yellow := "#e0af68";
  Blue := "#7aa2f7";
  Magenta := "#bb9af7";
  Cyan := "#7dcfff";
  White := "#a9b1d6";
  BrightBlack := "#414868";
  BrightRed := "#f7768e";
  BrightGreen := "#9ece6a";
  BrightYellow := "#e0af68";
  BrightBlue := "#7aa2f7";
  BrightMagenta := "#bb9af7";
  BrightCyan := "#7dcfff";
  BrightWhite := "#c0caf5"
|}.

Definition preset_gruvbox_dark : Theme := {|
  Name := "Gruvbox Dark";
  Background := "#282828";
  Foreground := "#ebdbb2";
  WindowRed := "#cc241d";
  WindowYellow := "#d79921";
  WindowGreen := "#98971a";
  WindowBorder := "#504945";
  Shadow := "#1d202166";
  Black := "#282828";
  Red := "#cc241d";
  Green := "#98971a";
  Yellow := "#d79921";
  Blue := "#458588";
  Magenta := "#b16286";
  Cyan := "#689d6a";
  White := "#a89984";
  BrightBlack := "#928374";
  BrightRed := "#fb4934";
  BrightGreen := "#b8bb26";
  BrightYellow := "#fabd2f";
  BrightBlue := "#83a598";
  BrightMagenta := "#d3869b";
  BrightCyan := "#8ec07c";
  BrightWhite := "#ebdbb2"
|}.

Definition preset_solarized_dark : Theme := {|
  Name := "Solarized Dark";
  Background := "#002b36";
  Foreground := "#839496";
  WindowRed := "#dc322f";
  WindowYellow := "#b58900";
  WindowGreen := "#859900";
  WindowBorder := "#073642";
  Shadow := "#002b3666";
  Black := "#073642";
  Red := "#dc322f";
  Green := "#859900";
  Yellow := "#b58900";
  Blue := "#268bd2";
  Magenta := "#d33682";
  Cyan := "#2aa198";
  White := "#eee8d5";
  BrightBlack := "#002b36";
  BrightRed := "#cb4b16";
  BrightGreen := "#586e75";
  BrightYellow := "#657b83";
  BrightBlue := "#839496";
  BrightMagenta := "#6c71c4";
  BrightCyan := "#93a1a1";
  BrightWhite := "#fdf6e3"
|}.

Definition presets : list (string * Theme) :=
  [("default", preset_default);
   ("catppuccin-mocha", preset_catppuccin_mocha);
   ("catppuccin-latte", preset_catppuccin_latte);
   ("nord", preset_nord);
   ("dracula", preset_dracula);
   ("tokyo-night", preset_tokyo_night);
   ("gruvbox-dark", preset_gruvbox_dark);
   ("solarized-dark", preset_solarized_dark)].

(** [themes], the preset themes by name. *)
Definition themes : gmap string Theme := list_to_map presets.

(** [GetTheme]; a missing key of a Go map reads as the zero value. *)
Definition GetTheme (name : string) : Theme :=
  match themes !! name with
  | Some theme => theme
  | None => default zeroTheme (themes !! "default")
  end.

(** [color.RGBA] *)
Record RGBA : Type := mkRGBA { R : Z; G : Z; B : Z; A : Z }.

Section ParseColor.

(** [fmt.Sscanf(hex, format, ...)] for a format of [n] verbs [%02x]: the [n]
    scanned values, or [None] for a scanning error. The scanner belongs to
    the Go library, not to the repository. *)
Variable scanHex : string -> nat -> option (list Z).

(** [ParseColor]; [None] stands for the error result. *)
Definition ParseColor (hex : string) : option RGBA :=
  match hex with
  | EmptyString => None
  | String c rest =>
    let hex := if Ascii.eqb c "#" then rest else hex in
    if String.length hex =? 6 then
      match scanHex hex 3 with
      | Some [r; g; b] => Some (mkRGBA r g b 255)
      | _ => None
      end
    else if String.length hex =? 8 then
      match scanHex hex 4 with
      | Some [r; g; b; a] => Some (mkRGBA r g b a)
      | _ => None
      end
    else None
  end.

End ParseColor.

(** A JSON document after [encoding/json] has scanned it: strings are the
    decoded strings, numbers are kept as their text. *)
#[local] Unset Elimination Schemes.
Inductive json : Type :=
| JNull
| JBool (b : bool)
| JNumber (text : string)
| JString (s : string)
| JArray (items : list json)
| JObject (members : list (string * json)).
#[local] Set Elimination Schemes.

Section Unmarshal.

(** [encoding/json] matches the key of a member with the tag of a field
    exactly or, failing that, after folding the case of both; the folding
    function belongs to the Go library. *)
Variable foldName : string -> string.

Definition fieldOfKey (key : string) : option field :=
  match find (fun f => String.eqb (jsonKey f) key) allFields with
  | Some f => Some f
  | None => find (fun f => String.eqb (foldName (jsonKey f)) (foldName key)) allFields
  end.

(** The decoding of one member of the object into the struct: a string sets
    its field, [null] leaves it, any other value is a type error that is
    recorded while the decoding goes on; a key that matches no field is
    skipped. *)
Definition decodeMember (st : Theme * bool) (member : string * json) : Theme * bool :=
  let '(t, failed) := st in
  match fieldOfKey member.1 with
  | Some f =>
    match member.2 with
    | JString s => (setField f s t, failed)
    | JNull => (t, failed)
    | _ => (t, true)
    end
  | None => (t, failed)
  end.

(** [json.Unmarshal(data, &theme)] for [data] that scans as the document
    [doc]: the struct after the call and whether an error is returned. *)
Definition Unmarshal (doc : json) (theme : Theme) : Theme * bool :=
  match doc with
  | JObject members => fold_left decodeMember members (theme, false)
  | JNull => (theme, false)
  | _ => (theme, true)
  end.

(** What [os.ReadFile] and the JSON scanner make of a path: no readable
    file, bytes that are not a JSON document, or a document. *)
Inductive themeFile : Type :=
| Unreadable
| Malformed
| Document (doc : json).

Inductive loadError : Type :=
| FailedToRead
| FailedToParse.

(** [LoadThemeFromFile] *)
Definition LoadThemeFromFile (file : themeFile) : Theme * option loadError :=
  match file with
  | Unreadable => (zeroTheme, Some FailedToRead)
  | Malformed => (zeroTheme, Some FailedToParse)
  | Document doc =>
    let '(theme, failed) := Unmarshal doc zeroTheme in
    if failed then (zeroTheme, Some FailedToParse) else (theme, None)
  end.

End Unmarshal.

(** The names of the presets. *)
Definition presetNames : list string := presets.*1.

(** A value that a field of the struct cannot take. *)
Definition wrongType (v : json) : Prop :=
  match v with
  | JString _ | JNull => False
  | _ => True
  end.

(** A theme file that names the theme and nothing else. *)
Definition nameOnly : themeFile :=
  Document (JObject [("name", JString "Mine")]).

(** Folding of ASCII letters to upper case, an instance to run
    [Unmarshal] with. *)
Definition upperASCII (c : ascii) : ascii :=
  let n := N_of_ascii c in
  if ((97 <=? n) && (n <=? 122))%N then ascii_of_N (n - 32) else c.
Fixpoint foldASCII (s : string) : string :=
  match s with
  | EmptyString => EmptyString
  | String c rest => String (upperASCII c) (foldASCII rest)
  end.

(** The scanner on a string of hexadecimal digits, an instance to run
    [ParseColor] with. *)
Definition hexDigit (c : ascii) : option Z :=
  let n := Z.of_N (N_of_ascii c) in
  if ((48 <=? n) && (n <=? 57))%Z then Some (n - 48)%Z
  else if ((65 <=? n) && (n <=? 70))%Z then Some (n - 55)%Z
  else if ((97 <=? n) && (n <=? 102))%Z then Some (n - 87)%Z
  else None.
Fixpoint hexPairs (hex : string) (n : nat) : option (list Z) :=
  match n, hex with
  | O, _ => Some []
  | S n, String hi (String lo rest) =>
    h ← hexDigit hi; l ← hexDigit lo; vs ← hexPairs rest n;
    Some ((16 * h + l)%Z :: vs)
  | S _, _ => None
  end.

End Theme.

(** ** internal/img: the compositor *)

Module Img.

Import Theme.

(** [Scaffold], without the fields that only the rasterizer reads (fonts,
    margins, shadow, decorations). *)
Record Scaffold : Type := mkScaffold {
  content : list ColoredRune;
  columns : Z;
  currentTheme : Theme;
  customPrompt : string;
  syntaxHighlight : bool;
  noPromptDetect : bool
}.

Definition NewImageCreator : Scaffold :=
  mkScaffold [] 0 (GetTheme "default") EmptyString false false.

Definition SetColumns (columns : Z) (s : Scaffold) : Scaffold :=
  mkScaffold (content s) columns (currentTheme s) (customPrompt s)
    (syntaxHighlight s) (noPromptDetect s).

Definition DisablePromptDetection (disable : bool) (s : Scaffold) : Scaffold :=
  mkScaffold (content s) (columns s) (currentTheme s) (customPrompt s)
    (syntaxHighlight s) disable.

Definition withContent (c : list ColoredRune) (s : Scaffold) : Scaffold :=
  mkScaffold c (columns s) (currentTheme s) (customPrompt s)
    (syntaxHighlight s) (noPromptDetect s).

(** [GetFixedColumns]; [termColumns] is the width that
    [term.GetTerminalSize()] reports. *)
Definition GetFixedColumns (termColumns : Z) (s : Scaffold) : Z :=
  if negb (columns s =? 0)%Z then columns s else termColumns.

Definition LF : Z := 10.

Definition byte (z : Z) : ascii := ascii_of_N (Z.to_N z).

(** [string(r)] and [strings.Builder.WriteRune(r)]: the UTF-8 encoding of a
    rune, the replacement character for what is not a code point. *)
Definition encodeRune (r : Z) : list ascii :=
  (if (r <? 0) || (1114111 <? r) || ((55296 <=? r) && (r <=? 57343)) then
     [byte 239; byte 191; byte 189]
   else if r <? 128 then [byte r]
   else if r <? 2048 then [byte (192 + r / 64); byte (128 + r mod 64)]
   else if r <? 65536 then
     [byte (224 + r / 4096); byte (128 + (r / 64) mod 64); byte (128 + r mod 64)]
   else
     [byte (240 + r / 262144); byte (128 + (r / 4096) mod 64);
      byte (128 + (r / 64) mod 64); byte (128 + r mod 64)])%Z.

(** The Go string that holds the given runes. *)
Definition text (runes : list Z) : list ascii := flat_map encodeRune runes.

(** [unicode.IsSpace] *)
Definition isSpaceRune (r : Z) : bool :=
  ((9 <=? r) && (r <=? 13) || (r =? 32) || (r =? 133) || (r =? 160) ||
   (r =? 5760) || (8192 <=? r) && (r <=? 8202) || (r =? 8232) || (r =? 8233) ||
   (r =? 8239) || (r =? 8287) || (r =? 12288))%Z.

(** [promptIndicators], each string given by its runes:
    U+279C, U+276F, [$], [#], U+03BB, U+2192 and [%]. *)
Definition promptIndicators : list (list Z) :=
  [[10140]; [10095]; [36]; [35]; [955]; [8594]; [37]]%Z.

Definition hasPrefix (s prefix : list ascii) : bool :=
  bool_decide (take (length prefix) s = prefix).

(** The first indicator that is a prefix of [line], as the two loops over
    [promptIndicators] find it. *)
Definition findIndicator (line : list ascii) : option (list Z) :=
  find (fun indicator => hasPrefix line (text indicator)) promptIndicators.

(** The runes up to the first line break. *)
Fixpoint lineRunes (rs : list ColoredRune) : list Z :=
  match rs with
  | [] => []
  | cr :: rest => if (Symbol cr =? LF)%Z then [] else Symbol cr :: lineRunes rest
  end.

(** [getFirstLine] and [getLineAt]: the line as the runes written to the
    [strings.Builder]; the string that the source works with is [text] of
    them. *)
Definition getFirstLine (parsed : list ColoredRune) : list Z := lineRunes parsed.
Definition getLineAt (parsed : list ColoredRune) (start : nat) : list Z :=
  lineRunes (drop start parsed).

(** [strings.TrimSpace(text line) == ""]: the string holds white space only. *)
Definition isBlank (line : list Z) : bool := forallb isSpaceRune line.

(** [for i, cr := range parsed { if cr.Symbol == LF { firstLineEnd = i; break } }]
    with [firstLineEnd] initially 0. *)
Fixpoint firstLineEndFrom (i : nat) (rs : list ColoredRune) : nat :=
  match rs with
  | [] => 0
  | cr :: rest => if (Symbol cr =? LF)%Z then i else firstLineEndFrom (S i) rest
  end.

Fixpoint span {A} (p : A -> bool) (rest : list A) : nat :=
  match rest with
  | [] => 0
  | x :: rest' => if p x then S (span p rest') else 0
  end.

(** [rgb(203, 166, 247)] with the foreground bit. *)
Definition promptSettings : Z :=
  Z.lor (Z.lor (Z.lor 1 (Z.shiftl 203 8)) (Z.shiftl 166 16)) (Z.shiftl 247 24).

(** The loop that turns the byte range of the command into a rune range:
    [for i := commandStart; i < commandEnd && commandEndRune < len(line);]
    over the runes from [commandStartRune] on, [bytes] being
    [commandEnd - i]. Returns how many runes it counts. *)
Fixpoint commandRunes (bytes : nat) (rest : list ColoredRune) : nat :=
  match rest with
  | [] => 0
  | cr :: rest' =>
    if bytes =? 0 then 0
    else S (commandRunes (bytes - length (encodeRune (Symbol cr))) rest')
  end.

Definition recolor (settings : Z) (cr : ColoredRune) : ColoredRune :=
  mkCR (Symbol cr) settings.

Section Compositor.

Variable scanHex : string -> nat -> option (list Z).

(** The colour of the command word: the green of the theme, or a fixed
    green when the theme has none that parses. *)
Definition commandSettings (s : Scaffold) : Z :=
  let rgba := default (mkRGBA 166 227 161 255)
                (ParseColor scanHex (Green (currentTheme s))) in
  Z.lor (Z.lor (Z.lor 1 (Z.shiftl (R rgba) 8)) (Z.shiftl (G rgba) 16))
        (Z.shiftl (B rgba) 24).

Definition highlightCommandLine (s : Scaffold) (line : list ColoredRune)
    : list ColoredRune :=
  let txt := text (symbols line) in
  match findIndicator txt with
  | None => line
  | Some indicator =>
    let promptCharCount := length indicator in
    let promptEnd := length (text indicator) in
    if promptEnd =? 0 then line
    else
      let whitespaceStart := promptEnd in
      let promptEnd := promptEnd + span (Ascii.eqb " ") (drop promptEnd txt) in
      let commandStart := promptEnd in
      let commandEnd := commandStart +
        span (fun c => negb (Ascii.eqb c " ") && negb (Ascii.eqb c (ascii_of_nat 9)))
             (drop commandStart txt) in
      (* Color the prompt *)
      let result := map (recolor promptSettings) (take promptCharCount line) in
      (* Add whitespace after prompt *)
      let runePos := promptCharCount in
      let k := Nat.min (promptEnd - whitespaceStart) (length line - runePos) in
      let result := result ++ take k (drop runePos line) in
      let runePos := runePos + k in
      (* Find the rune position of the end of the command *)
      let commandEndRune :=
        runePos + commandRunes (commandEnd - commandStart) (drop runePos line) in
      (* Highlight the command *)
      let n := Nat.min (commandEndRune - runePos) (length line - runePos) in
      let result := result ++ map (recolor (commandSettings s)) (take n (drop runePos line)) in
      let runePos := runePos + n in
      (* Copy the rest as-is *)
      result ++ drop runePos line
  end.

Definition enhanceRawContent (s : Scaffold) (parsed : list ColoredRune)
    : list ColoredRune :=
  if length parsed =? 0 then parsed
  else if noPromptDetect s then parsed
  else
    match findIndicator (text (getFirstLine parsed)) with
    | None => parsed
    | Some _ =>
      let firstLineEnd := firstLineEndFrom 0 parsed in
      if (firstLineEnd =? 0) || (length parsed <=? firstLineEnd) then parsed
      else
        let commandLine := take firstLineEnd parsed in
        let result := highlightCommandLine s commandLine ++ [plainRune LF] in
        let hasOutputAfter := firstLineEnd + 1 <? length parsed in
        let result :=
          if hasOutputAfter then
            let nextLine := getLineAt parsed (firstLineEnd + 1) in
            let isNextPrompt :=
              match findIndicator (text nextLine) with
              | Some _ => true
              | None => false
              end in
            if negb isNextPrompt && negb (isBlank nextLine)
            then result ++ [plainRune LF]
            else result
          else result in
        if hasOutputAfter then result ++ drop (firstLineEnd + 1) parsed
        else result
    end.

(** The body of the wrapping loop of [AddContent]: the output so far and
    the counter, before and after the rune [cr]. *)
Definition wrapRune (fixedColumns : Z) (st : list ColoredRune * Z) (cr : ColoredRune)
    : list ColoredRune * Z :=
  let '(tmp, counter) := st in
  let counter := (counter + 1)%Z in
  let counter := if (Symbol cr =? LF)%Z then 0%Z else counter in
  let '(tmp, counter) :=
    if (fixedColumns <? counter)%Z
    then (tmp ++ [mkCR LF (Settings cr)], 0%Z)
    else (tmp, counter) in
  (tmp ++ [cr], counter).

(** The wrap step on its own. *)
Definition wrapContent (fixedColumns : Z) (enhanced : list ColoredRune)
    : list ColoredRune :=
  (fold_left (wrapRune fixedColumns) enhanced ([], 0%Z)).1.

(** [AddContent] on the decoded input. *)
Definition AddContent (termColumns : Z) (s : Scaffold) (parsed : list ColoredRune)
    : Scaffold :=
  let enhanced := enhanceRawContent s parsed in
  let tmp := wrapContent (GetFixedColumns termColumns s) enhanced in
  withContent (content s ++ tmp) s.

(** [WriteRaw] writes [s.content.String()]: the styled characters that it
    hands to the encoder of bunt, which is not part of the repository. *)
Definition WriteRaw (s : Scaffold) : list ColoredRune := content s.

End Compositor.

(** Characters with a style each: the [i]-th rune of [runes] carries the
    style bits [style i]. *)
Definition styled (style : nat -> Z) (runes : list Z) : list ColoredRune :=
  imap (fun i r => mkCR r (style i)) runes.

(** The runes of an ASCII string. *)
Definition runes (s : string) : list Z := map rune (list_ascii_of_string s).

(** U+276F, the prompt glyph of the examples. *)
Definition promptGlyph : Z := 10095.

(** A command with its output, and two commands in a row. *)
Definition sessionWithOutput : list Z :=
  promptGlyph :: runes " ls -la" ++ LF :: runes "file1" ++ LF :: runes "file2".
Definition sessionTwoPrompts : list Z :=
  promptGlyph :: runes " ls" ++ LF :: promptGlyph :: runes " pwd" ++ [LF].

Definition twelveRunes : list ColoredRune := plain "abcdefghijkl".

End Img.

(** ** cmd: the raw-write branch of the root command *)

Module Cmd.

Import Img.

Section RawWrite.

Variable scanHex : string -> nat -> option (list Z).

(** [Scaffold.GetColumns] is called by the command, but no source file
    defines it; what it returns is a parameter. *)
Variable GetColumns : Scaffold -> Z.

(** The raw-write branch of the root command, entered with a buffer that
    decodes to [parsed], with [--columns columns] and [--no-prompt-detect]
    as given: the styled characters that [WriteRaw] is called on. What the
    command does with [--columns] before it comes to the branch (the width
    of the pseudo terminal, the improved parser) is not part of it. *)
Definition rawWrite (termColumns : Z) (columns : Z) (noPromptDetect : bool)
    (parsed : list ColoredRune) : list ColoredRune :=
  let scaffold := NewImageCreator in
  let scaffold := DisablePromptDetection noPromptDetect scaffold in
  let scaffold := if (0 <? columns)%Z then SetColumns columns scaffold else scaffold in
  (* For raw-write, temporarily disable column wrapping *)
  let originalColumns := GetColumns scaffold in
  let scaffold := SetColumns 0 scaffold in
  let scaffold := AddContent scanHex termColumns scaffold parsed in
  let scaffold := SetColumns originalColumns scaffold in
  WriteRaw scaffold.

End RawWrite.

(** A line of 81 characters, one more than a terminal of 80 columns shows. *)
Definition longLine : list ColoredRune := replicate 81 (plainRune (rune "x")).

(** The captured output [hello], line break, [world], without styling. *)
Definition helloWorld : list ColoredRune :=
  plain "hello" ++ plainRune LF :: plain "world".

End Cmd.

(** ** internal/ansi, continued: vocabulary for further properties *)

Module AnsiMore.

Import Ansi.
Local Open Scope Z_scope.

(** A cell that holds a printable symbol: none of the four characters that
    [Parse] treats as cursor control. *)
Definition printable (c : ColoredRune) : bool :=
  negb (Symbol c =? ESC) && negb (Symbol c =? CR) &&
  negb (Symbol c =? LF) && negb (Symbol c =? BS).

Definition printableRows (rows : list (list ColoredRune)) : Prop :=
  Forall (Forall (fun c => printable c = true)) rows.

(** The grid has a row, its rows hold printable symbols only, and the row
    of the cursor is an [int]. *)
Definition gridOfText (vt : VirtualTerminal) : Prop :=
  lines vt <> [] /\ printableRows (lines vt) /\ minInt <= cursorY vt <= maxInt.

(** The command letters of the [switch] of [handleCSI]. *)
Definition knownCommand (command : Z) : bool :=
  existsb (Z.eqb command)
    [rune "A"; rune "B"; rune "C"; rune "D"; rune "G"; rune "H"; rune "f";
     rune "J"; rune "K"; rune "s"; rune "u"].

(** The rune at which the parameter loop of the control sequence that starts
    at position [i] stops, if there is one. *)
Definition csiCommand (parsed : list ColoredRune) (i : nat) : option ColoredRune :=
  parsed !! (scanParams (drop (i + 2) parsed) (i + 2) [] []).1.

(** The output has no escape, carriage return or backspace left in it. *)
Definition noCursorControl (out : list ColoredRune) : bool :=
  forallb (fun c => negb (Symbol c =? ESC) && negb (Symbol c =? CR) &&
                    negb (Symbol c =? BS)) out.

End AnsiMore.

(** ** internal/highlight, continued: vocabulary for further properties *)

Module HighlightMore.

Import Highlight.

(** The first byte of [v] satisfies [p]. *)
Definition startsWith (p : ascii -> bool) (v : list ascii) : bool :=
  match v with
  | ch :: _ => p ch
  | [] => false
  end.

(** The three quotes that open a string token. *)
Definition isQuote (ch : ascii) : bool :=
  Ascii.eqb ch dquote || Ascii.eqb ch "'" || Ascii.eqb ch "`".

(** A byte at which [Tokenize] starts a word. *)
Definition wordStart (ch : ascii) : bool :=
  isLetter ch || isDigit ch || Ascii.eqb ch "." || Ascii.eqb ch "/" ||
  Ascii.eqb ch "_" || Ascii.eqb ch "~".

(** A byte that [tokenizeWord] steps over. *)
Definition wordChar (ch : ascii) : bool :=
  negb (isSpace ch || containsRune wordStops ch).

Definition noNewline (v : list ascii) : bool :=
  forallb (fun ch => negb (Ascii.eqb ch newline)) v.

Section Kinds.

Variable decodeRunes : list ascii -> list Z.
Variable unicodeIsDigit : Z -> bool.

(** What the type of a token says about its text. *)
Definition typeFitsText (t : Token) : bool :=
  let v := Value t in
  match Typ t with
  | TokenComment => startsWith (Ascii.eqb "#") v && noNewline v
  | TokenString => startsWith isQuote v
  | TokenVariable => startsWith (Ascii.eqb "$") v
  | TokenFlag => startsWith (Ascii.eqb "-") v
  | TokenOperator => startsWith (containsRune operatorChars) v && (length v <=? 2)
  | TokenKeyword => startsWith wordStart v && forallb wordChar v && isKeyword v
  | TokenCommand => startsWith wordStart v && forallb wordChar v && negb (isKeyword v)
  | TokenPath =>
    startsWith wordStart v && forallb wordChar v && negb (isKeyword v) && isPath v
  | TokenNumber =>
    startsWith wordStart v && forallb wordChar v && negb (isKeyword v) &&
    negb (isPath v) && isNumber decodeRunes unicodeIsDigit v
  | TokenDefault => negb (bool_decide (v = []))
  end.

End Kinds.

(** What [Tokenize] has built at any point of its loop: no token is empty,
    and there are no more tokens than bytes read. *)
Definition piecewise (l : Lexer) : Prop :=
  Forall (fun t => Value t <> []) (tokens l) /\
  length (tokens l) <= pos l <= length (input l).

End HighlightMore.

(** ** internal/img, continued: colours and style bits of the rasterizer *)

Module ImgMore.

Import Theme Img.
Local Open Scope Z_scope.

(** The characters of a buffer that are not line breaks. *)
Definition visible (l : list ColoredRune) : list ColoredRune :=
  List.filter (fun c => negb (Symbol c =? LF)) l.

(** [type ansiColor struct{ r, g, b int }] *)
Definition ansiColor : Type := Z * Z * Z.

(** The map [standardColors] of [remapAnsiColor], in the order of the
    source. *)
Definition standardColors (t : Theme) : list (ansiColor * string) :=
  [((0, 0, 0), Black t);
   ((128, 0, 0), Red t);
   ((0, 128, 0), Green t);
   ((128, 128, 0), Yellow t);
   ((0, 0, 128), Blue t);
   ((128, 0, 128), Magenta t);
   ((0, 128, 128), Cyan t);
   ((192, 192, 192), White t);
   ((128, 128, 128), BrightBlack t);
   ((255, 0, 0), BrightRed t);
   ((0, 255, 0), BrightGreen t);
   ((255, 255, 0), BrightYellow t);
   ((0, 0, 255), BrightBlue t);
   ((255, 0, 255), BrightMagenta t);
   ((0, 255, 255), BrightCyan t);
   ((255, 255, 255), BrightWhite t)].

Definition sameColor (a b : ansiColor) : bool :=
  (a.1.1 =? b.1.1) && (a.1.2 =? b.1.2) && (a.2 =? b.2).

(** [d := v - a; if d < 0 { d = -d }] on [int]. *)
Definition distance (v a : Z) : Z :=
  let d := sub v a in
  if d <? 0 then wrap64 (- d) else d.

(** [dr <= tolerance && dg <= tolerance && db <= tolerance] *)
Definition within (tolerance r g b : Z) (ansi : ansiColor) : bool :=
  (distance r ansi.1.1 <=? tolerance) && (distance g ansi.1.2 <=? tolerance) &&
  (distance b ansi.2 <=? tolerance).

(** [uint8(v)] *)
Definition uint8 (v : Z) : Z := v mod 256.

Section Remap.

Variable scanHex : string -> nat -> option (list Z).

(** The loop [for ansi, hexColor := range standardColors] over the entries
    in the order in which the run time hands them out: the colour of the
    first entry within the tolerance whose theme colour parses. *)
Fixpoint firstWithin (entries : list (ansiColor * string)) (r g b : Z) : option RGBA :=
  match entries with
  | [] => None
  | (ansi, hexColor) :: rest =>
    if within 5 r g b ansi then
      match ParseColor scanHex hexColor with
      | Some c => Some c
      | None => firstWithin rest r g b
      end
    else firstWithin rest r g b
  end.

(** [remapAnsiColor]. Go does not fix the order in which [range] visits a
    map: [order] is the order of the visit, some arrangement of
    [standardColors]. *)
Definition remapAnsiColor (order : list (ansiColor * string)) (s : Scaffold)
    (r g b : Z) : RGBA :=
  let exact :=
    match find (fun e => sameColor e.1 (r, g, b)) (standardColors (currentTheme s)) with
    | Some (_, hexColor) => ParseColor scanHex hexColor
    | None => None
    end in
  match exact with
  | Some c => c
  | None =>
    match firstWithin order r g b with
    | Some c => c
    | None => mkRGBA (uint8 r) (uint8 g) (uint8 b) 255
    end
  end.

(** The colour that the loop of [image] sets before it draws a rune with
    the style bits [settings]: the remapped foreground colour, or [None] for
    [s.defaultForegroundColor]. *)
Definition foreground (order : list (ansiColor * string)) (s : Scaffold)
    (settings : Z) : option RGBA :=
  if Z.land settings 1 =? 1 then
    Some (remapAnsiColor order s
            (Z.land (Z.shiftr settings 8) 255)
            (Z.land (Z.shiftr settings 16) 255)
            (Z.land (Z.shiftr settings 24) 255))
  else None.

(** The colour of the rectangle drawn behind the rune, if one is drawn. *)
Definition background (order : list (ansiColor * string)) (s : Scaffold)
    (settings : Z) : option RGBA :=
  if Z.land settings 2 =? 2 then
    Some (remapAnsiColor order s
            (Z.land (Z.shiftr settings 32) 255)
            (Z.land (Z.shiftr settings 40) 255)
            (Z.land (Z.shiftr settings 48) 255))
  else None.

(** The theme colour that the tolerance loop would pick from the entries in
    the order of the source. *)
Definition themeColorNear (s : Scaffold) (r g b : Z) : option RGBA :=
  match find (fun e => within 5 r g b e.1) (standardColors (currentTheme s)) with
  | Some (_, hexColor) => ParseColor scanHex hexColor
  | None => None
  end.

End Remap.

(** The font faces of the switch on [cr.Settings & 0x1C]. *)
Inductive FontFace : Type :=
| Regular
| Bold
| Italic
| BoldItalic.

Definition fontFace (settings : Z) : FontFace :=
  let bits := Z.land settings 28 in
  if bits =? 4 then Bold
  else if bits =? 8 then Italic
  else if bits =? 12 then BoldItalic
  else Regular.

(** [cr.Settings&0x1C == 16] *)
Definition underlined (settings : Z) : bool := Z.land settings 28 =? 16.

(** A colour component that fits a [uint8]. *)
Definition isByte (v : Z) : Prop := 0 <= v <= 255.

(** The component of a standard colour that [v] is within 5 of, or [-1]. *)
Definition bucket (v : Z) : Z :=
  if v <=? 5 then 0
  else if (123 <=? v) && (v <=? 133) then 128
  else if (187 <=? v) && (v <=? 197) then 192
  else if 250 <=? v then 255
  else -1.

(** At most one entry is within the tolerance, and the entries differ. *)
Definition oneWithin (r g b : Z) (entries : list (ansiColor * string)) : Prop :=
  NoDup entries.*1 /\
  forall e1 e2, e1 ∈ entries -> e2 ∈ entries ->
    within 5 r g b e1.1 = true -> within 5 r g b e2.1 = true -> e1.1 = e2.1.

End ImgMore.

(** ** internal/theme and cmd, continued *)

Module ThemeMore.

Import Theme.

(** A theme file that gives every field of the theme its value, under the
    key of its tag. *)
Definition themeDocument (t : Theme) : json :=
  JObject (map (fun f => (jsonKey f, JString (getField f t))) allFields).

(** [ListThemes]. Go does not fix the order in which [range] visits a map:
    [visit] is the order of the visit, some arrangement of the entries of
    [themes]. *)
Definition ListThemes (visit : list (string * Theme)) : list string :=
  fold_left (fun names entry => names ++ [entry.1]) visit [].

(** The colour string starts with [#]. *)
Definition hasHash (hex : string) : bool :=
  match hex with
  | String c _ => Ascii.eqb c "#"
  | EmptyString => false
  end.

(** The colour string without the [#] that it may start with. *)
Definition digitsOf (hex : string) : string :=
  match hex with
  | String c rest => if Ascii.eqb c "#" then rest else hex
  | EmptyString => hex
  end.

(** The errors of [ParseColor], told apart as the source tells them apart;
    a failed scan carries the error of the scanner. *)
Inductive colorError : Type :=
| EmptyColorString
| FailedToParseRGB (cause : string)
| FailedToParseRGBA (cause : string)
| InvalidColorFormat (hex : string).

Section ParseColorErrors.

(** [fmt.Sscanf] as in [ParseColor], and the error that it returns when it
    fails on the given string and number of verbs. *)
Variable scanHex : string -> nat -> option (list Z).
Variable scanError : string -> nat -> string.

(** [ParseColor] with its error: the colour, or which of the four errors
    of the source is returned. *)
Definition ParseColorErr (hex : string) : RGBA + colorError :=
  match hex with
  | EmptyString => inr EmptyColorString
  | String c rest =>
    let hex := if Ascii.eqb c "#" then rest else hex in
    if String.length hex =? 6 then
      match scanHex hex 3 with
      | Some [r; g; b] => inl (mkRGBA r g b 255)
      | _ => inr (FailedToParseRGB (scanError hex 3))
      end
    else if String.length hex =? 8 then
      match scanHex hex 4 with
      | Some [r; g; b; a] => inl (mkRGBA r g b a)
      | _ => inr (FailedToParseRGBA (scanError hex 4))
      end
    else inr (InvalidColorFormat hex)
  end.

(** [c, err := ParseColor(hex)] with the error dropped. *)
Definition colorOf (r : RGBA + colorError) : option RGBA :=
  match r with
  | inl c => Some c
  | inr _ => None
  end.

End ParseColorErrors.

End ThemeMore.

Module CmdMore.

Import Ansi.

(** The branch of the root command for [--improved-ansi] with [--read]:
    the terminal is 500 columns wide unless [--columns] gives a positive
    width, and the captured output goes through [Parse]. *)
Definition improvedColumns (explicitCols : Z) : Z :=
  if (0 <? explicitCols)%Z then explicitCols else 500%Z.

Definition improvedParse (explicitCols : Z) (parsed : list ColoredRune)
    : option (result (list ColoredRune)) :=
  interpret (improvedColumns explicitCols) parsed.

End CmdMore.
(** ** Properties of the virtual terminal *)

Module GoFacts.

Local Open Scope Z_scope.

Lemma index_ok {A} (l : list A) (i : Z) (x : A) :
  0 <= i -> l !! Z.to_nat i = Some x -> index l i = Ok x.
Proof.
  intros Hi Hx. unfold index.
  destruct (Z.leb_spec 0 i); [|lia]. by rewrite Hx.
Qed.

Lemma store_ok {A} (l : list A) (i : Z) (x : A) :
  0 <= i < len l -> store l i x = Ok (<[Z.to_nat i := x]> l).
Proof.
  intros Hi. unfold store.
  destruct (Z.leb_spec 0 i); [|lia].
  destruct (Z.ltb_spec i (len l)); [done|lia].
Qed.

Lemma sliceTo_ok {A} (l : list A) (n : Z) :
  0 <= n <= len l -> sliceTo l n = Ok (take (Z.to_nat n) l).
Proof.
  intros Hn. unfold sliceTo.
  destruct (Z.leb_spec 0 n); [|lia].
  destruct (Z.leb_spec n (len l)); [done|lia].
Qed.

Lemma lookup_len {A} (l : list A) (i : Z) (x : A) :
  0 <= i -> l !! Z.to_nat i = Some x -> i < len l.
Proof. intros Hi Hx. apply lookup_lt_Some in Hx. unfold len. lia. Qed.

Lemma wrap64_id (z : Z) : minInt <= z <= maxInt -> wrap64 z = z.
Proof.
  unfold wrap64, minInt, maxInt. intros Hz.
  rewrite Z.mod_small; lia.
Qed.

Lemma wrap64_range (z : Z) : minInt <= wrap64 z <= maxInt.
Proof.
  unfold wrap64, minInt, maxInt.
  pose proof (Z.mod_pos_bound (z + 2 ^ 63) (2 ^ 64)). lia.
Qed.

End GoFacts.

Module AnsiFacts.

Import Ansi GoFacts.
Local Open Scope Z_scope.

Lemma scanParams_bounds rest : forall i params buf j params',
  scanParams rest i params buf = (j, params') ->
    (i <= j <= i + length rest)%nat.
Proof.
  induction rest as [|c rest IH]; intros i params buf j params' H; simpl in H.
    - inversion H; subst; simpl; lia.
    - destruct (isDigit (Symbol c)).
    + apply IH in H. simpl. lia.
    + destruct (Symbol c =? rune ";").
      * destruct buf; apply IH in H; simpl; lia.
      * destruct buf; inversion H; subst; simpl; lia.
Qed.

Lemma scanParams_runs_out rest : forall i params buf,
  forallb paramChar rest = true ->
    (scanParams rest i params buf).1 = (i + length rest)%nat.
Proof.
  induction rest as [|c rest IH]; intros i params buf H; simpl in *.
    - lia.
    - apply andb_prop in H as [Hc Hrest]. unfold paramChar in Hc.
    destruct (isDigit (Symbol c)).
    + rewrite IH by done. lia.
    + simpl in Hc. rewrite Hc.
      destruct buf; rewrite IH by done; lia.
Qed.

Lemma handleCSI_handled vt parsed start vt' consumed :
  handleCSI vt parsed start = Ok (vt', consumed, true) ->
    (3 <= consumed /\ start + consumed <= length parsed)%nat.
Proof.
  unfold handleCSI. intros H.
  destruct (Nat.leb_spec (length parsed) (start + 2)); [congruence|].
  destruct (scanParams _ _ _ _) as [i params] eqn:Hscan.
  apply scanParams_bounds in Hscan.
  destruct (parsed !! i) as [c|] eqn:Hc; [|congruence].
  apply lookup_lt_Some in Hc.
  destruct (runCommand _ _ _) as [[vt1 []]|]; inversion H; subst. lia.
Qed.

(** Every iteration of the loop of [Parse] moves the position forward and
    keeps it inside the input. *)
Lemma parseStep_progress parsed vt i vt' i' :
  parseStep parsed vt i = Ok (vt', i') -> (i < i' <= length parsed)%nat.
Proof.
  unfold parseStep. intros H.
  destruct (parsed !! i) as [cr|] eqn:Hcr; [|congruence].
  apply lookup_lt_Some in Hcr.
  destruct (Symbol cr =? ESC).
  { destruct (parsed !! S i) as [next|]; [|inversion H; subst; lia].
    destruct (Symbol next =? rune "["); [|inversion H; subst; lia].
    destruct (handleCSI vt parsed i) as [[[vt1 consumed] []]|] eqn:Hcsi;
      inversion H; subst; [|lia].
    apply handleCSI_handled in Hcsi. lia. }
  destruct (Symbol cr =? CR); [inversion H; subst; lia|].
  destruct (Symbol cr =? LF); [inversion H; subst; lia|].
  destruct (Symbol cr =? BS); [inversion H; subst; lia|].
  destruct (putRune cr vt); inversion H; subst; simpl in *; lia.
Qed.

Lemma parseLoop_terminates fuel parsed : forall vt i,
    (length parsed <= i + fuel)%nat -> is_Some (parseLoop fuel parsed vt i).
Proof.
  induction fuel as [|fuel IH]; intros vt i Hlen; simpl.
    - destruct (Nat.leb_spec (length parsed) i); [eauto | lia].
    - destruct (Nat.leb_spec (length parsed) i); [eauto|].
    destruct (parseStep parsed vt i) as [[vt' i']|] eqn:Hstep; [|eauto].
    apply IH. apply parseStep_progress in Hstep. lia.
Qed.

(** Fuel beyond what the loop needs does not change its result. *)
Lemma parseLoop_fuel_mono fuel parsed : forall vt i r fuel',
  parseLoop fuel parsed vt i = Some r -> (fuel <= fuel')%nat ->
  parseLoop fuel' parsed vt i = Some r.
Proof.
  induction fuel as [|fuel IH]; intros vt i r fuel' H Hle.
    - simpl in H. destruct (Nat.leb_spec (length parsed) i); [|congruence].
    destruct fuel'; simpl; destruct (Nat.leb_spec (length parsed) i); done || lia.
    - destruct fuel' as [|fuel']; [lia|]. simpl in *.
    destruct (length parsed <=? i)%nat; [done|].
    destruct (parseStep parsed vt i) as [[vt' i']|]; [|done].
    apply IH; [done | lia].
Qed.

(** An escape sequence whose command letter never comes is not consumed:
    the loop steps over the introducer alone and leaves the terminal as it
    was. *)
Lemma parseStep_unterminated parsed vt i :
  Symbol <$> parsed !! i = Some ESC ->
  forallb paramChar (drop (i + 2) parsed) = true ->
  parseStep parsed vt i = Ok (vt, S i).
Proof.
  intros Hesc Hrest. unfold parseStep.
  destruct (parsed !! i) as [cr|]; simpl in Hesc; [|congruence].
  injection Hesc as ->. simpl.
  destruct (parsed !! S i) as [next|]; [|done].
  destruct (Symbol next =? rune "["); [|done].
  unfold handleCSI.
  destruct (Nat.leb_spec (length parsed) (i + 2)); [done|].
  pose proof (scanParams_runs_out _ (i + 2)%nat [] [] Hrest) as Hend.
  destruct (scanParams _ _ _ _) as [j params]. simpl in Hend.
  rewrite length_drop in Hend.
  rewrite (lookup_ge_None_2 parsed j) by lia. done.
Qed.

(** *** Erase in line *)

Lemma erase_to_end_of_line vt row params :
  params = [] \/ params = [0] ->
  0 <= cursorX vt -> 0 <= cursorY vt ->
  lines vt !! Z.to_nat (cursorY vt) = Some row ->
  runCommand (rune "K") params vt =
    Ok (withLines (<[Z.to_nat (cursorY vt) := take (Z.to_nat (cursorX vt)) row]> (lines vt)) vt,
        true).
Proof.
  intros Hp Hx Hy Hrow.
  assert (runCommand (rune "K") params vt = (vt' ← clearToEndOfLine vt; Ok (vt', true)))
    as -> by (destruct Hp; subst; reflexivity).
  unfold clearToEndOfLine.
  pose proof (lookup_len _ _ _ Hy Hrow) as Hlen.
  destruct (Z.ltb_spec (cursorY vt) (len (lines vt))); [|lia].
  rewrite (index_ok _ _ _ Hy Hrow). simpl.
  destruct (Z.ltb_spec (cursorX vt) (len row)).
  - rewrite sliceTo_ok by lia. simpl. rewrite store_ok by lia. done.
  - rewrite take_ge by (unfold len in *; lia).
    rewrite list_insert_id by done. by destruct vt.
Qed.

Lemma erase_whole_line vt row :
  0 <= cursorY vt ->
  lines vt !! Z.to_nat (cursorY vt) = Some row ->
  runCommand (rune "K") [2] vt =
    Ok (withLines (<[Z.to_nat (cursorY vt) := []]> (lines vt)) vt, true).
Proof.
  intros Hy Hrow.
  change (runCommand (rune "K") [2] vt) with (vt' ← clearLine vt; Ok (vt', true)).
  unfold clearLine.
  pose proof (lookup_len _ _ _ Hy Hrow) as Hlen.
  destruct (Z.ltb_spec (cursorY vt) (len (lines vt))); [|lia].
  rewrite store_ok by lia. done.
Qed.

(** C8. Erase-in-line mode 0, after [abcdef] has been written and the cursor
    moved to column 2, leaves [ab] in the row; mode 2 leaves the row empty
    whatever the cursor column is. Both are shown on the input of the specification
    and for every terminal whose cursor is on an existing row. *)
Theorem erase_in_line_modes :
  parseLoop 6 (plain "abcdef") (NewVirtualTerminal 80) 0 = Some (Ok afterAbcdef) /\
  interpret 80 (plain "abcdef" ++ csi "3G" ++ csi "0K") = Some (Ok (plain "ab")) /\
  interpret 80 (plain "abcdef" ++ csi "3G" ++ csi "K") = Some (Ok (plain "ab")) /\
  interpret 80 (plain "abcdef" ++ csi "4D" ++ csi "K") = Some (Ok (plain "ab")) /\
  (forall x : Z,
     handleCSI (withCursorX x afterAbcdef) (csi "2K") 0 =
       Ok (withLines [[]] (withCursorX x afterAbcdef), 4%nat, true)) /\
  interpret 80 (plain "abcdef" ++ csi "3G" ++ csi "2K") = Some (Ok []) /\
  interpret 80 (plain "abcdef" ++ csi "2K") = Some (Ok []) /\
  (forall vt row params,
     params = [] \/ params = [0] ->
     0 <= cursorX vt -> 0 <= cursorY vt ->
     lines vt !! Z.to_nat (cursorY vt) = Some row ->
     runCommand (rune "K") params vt =
       Ok (withLines (<[Z.to_nat (cursorY vt) := take (Z.to_nat (cursorX vt)) row]> (lines vt)) vt,
           true)) /\
  (forall vt row,
     0 <= cursorY vt ->
     lines vt !! Z.to_nat (cursorY vt) = Some row ->
     runCommand (rune "K") [2] vt =
       Ok (withLines (<[Z.to_nat (cursorY vt) := []]> (lines vt)) vt, true)).
Proof.
  split; [vm_compute; reflexivity|].
  split; [vm_compute; reflexivity|].
  split; [vm_compute; reflexivity|].
  split; [vm_compute; reflexivity|].
  split; [intros x; reflexivity|].
  split; [vm_compute; reflexivity|].
  split; [vm_compute; reflexivity|].
  split; [apply erase_to_end_of_line | apply erase_whole_line].
Qed.

Lemma erase_in_line_modes_witness :
  runCommand (rune "K") [0] (withCursorX 2 afterAbcdef) =
    Ok (withLines [plain "ab"] (withCursorX 2 afterAbcdef), true) /\
  runCommand (rune "K") [2] (withCursorX 2 afterAbcdef) =
    Ok (withLines [[]] (withCursorX 2 afterAbcdef), true).
Proof.
  destruct erase_in_line_modes as (_ & _ & _ & _ & _ & _ & _ & H0 & H2).
  split.
  - apply (H0 (withCursorX 2 afterAbcdef) (plain "abcdef") [0]);
      [right; reflexivity | simpl; lia | simpl; lia | reflexivity].
  - apply (H2 (withCursorX 2 afterAbcdef) (plain "abcdef")); [simpl; lia | reflexivity].
Defined.

(** C4. [Parse] ends after one pass over the input, whatever the input is:
    the length of the input is enough fuel for its loop (and more fuel does
    not change the result), every iteration moves the position forward, and
    an escape sequence whose command letter is not found before the input
    ends moves it by one, past the introducer only, leaving the terminal
    untouched. An input that ends in [ESC [] is parsed to the end, the
    bracket being kept as text. *)
Theorem parse_terminates_in_one_pass (vt : VirtualTerminal) (parsed : list ColoredRune) :
  (exists r, Parse vt parsed = Some r) /\
  (forall fuel, (length parsed <= fuel)%nat -> ParseWith fuel vt parsed = Parse vt parsed) /\
  (forall i vt1 vt2 i',
     parseStep parsed vt1 i = Ok (vt2, i') -> (i < i' <= length parsed)%nat) /\
  (forall i vt1,
     Symbol <$> parsed !! i = Some ESC ->
     forallb paramChar (drop (i + 2) parsed) = true ->
     parseStep parsed vt1 i = Ok (vt1, S i)) /\
  interpret 80 (plain "ab" ++ csi EmptyString) = Some (Ok (plain "ab[")).
Proof.
  destruct (parseLoop_terminates (length parsed) parsed vt 0%nat) as [r Hr]; [lia|].
  split; [|split; [|split; [|split]]].
  - unfold Parse, ParseWith. rewrite Hr. simpl. eauto.
  - intros fuel Hfuel. unfold Parse, ParseWith.
    by rewrite Hr, (parseLoop_fuel_mono _ _ _ _ _ fuel Hr Hfuel).
  - intros i vt1 vt2 i'. apply parseStep_progress.
  - intros i vt1. apply parseStep_unterminated.
  - vm_compute. reflexivity.
Qed.

Lemma parse_terminates_in_one_pass_witness :
  parseStep (plain "ab" ++ csi "12;") (NewVirtualTerminal 80) 2 =
    Ok (NewVirtualTerminal 80, 3%nat).
Proof.
  apply (proj1 (proj2 (proj2 (proj2
    (parse_terminates_in_one_pass (NewVirtualTerminal 80) (plain "ab" ++ csi "12;"))))));
    reflexivity.
Defined.

End AnsiFacts.

(** ** The terminal on text without control characters *)

Module PlainText.

Import Ansi GoFacts.
Local Open Scope Z_scope.

Lemma splitLines_nonempty p : splitLines p <> [].
Proof.
  destruct p as [|c p]; simpl; [done|].
  destruct (Symbol c =? 10); [done|]. by destruct (splitLines p).
Qed.

Lemma splitLines_snoc_break p c :
  Symbol c = LF -> splitLines (p ++ [c]) = splitLines p ++ [[]].
Proof.
  intros Hc. induction p as [|a p IH]; simpl.
  - unfold LF in Hc. by rewrite Hc.
  - destruct (Symbol a =? 10); [by rewrite IH|].
    rewrite IH. pose proof (splitLines_nonempty p).
    by destruct (splitLines p).
Qed.

Lemma splitLines_snoc_rune p c : forall done cur,
  Symbol c <> LF -> splitLines p = done ++ [cur] ->
  splitLines (p ++ [c]) = done ++ [cur ++ [c]].
Proof.
  intros done cur Hc. revert done cur.
  assert (Hc' : (Symbol c =? 10) = false) by (apply Z.eqb_neq; exact Hc).
  induction p as [|a p IH]; intros done cur Hp; simpl in *.
  - rewrite Hc'. destruct done as [|d [|d' done]]; by inversion Hp.
  - destruct (Symbol a =? 10).
    + destruct done as [|d done]; simpl in Hp.
      * inversion Hp as [[Ha Hnil]]. by apply splitLines_nonempty in Hnil.
      * inversion Hp as [[Ha Hrest]]. by rewrite (IH done cur).
    + destruct (splitLines p) as [|line more] eqn:Hsp;
        [by apply splitLines_nonempty in Hsp|].
      destruct done as [|d done]; simpl in Hp.
      * inversion Hp; subst. by rewrite (IH [] line).
      * inversion Hp; subst. by rewrite (IH (line :: done) cur).
Qed.

Lemma growTo_enough {A} (bound : Z) (x : A) (s : list A) :
  bound < len s -> growTo bound x s = s.
Proof.
  intros H. unfold growTo.
  replace (Z.to_nat (bound + 1 - len s)) with 0%nat by lia.
  apply app_nil_r.
Qed.

(** [growTo] is the loop that it stands for: it appends once and goes on as
    long as the slice is not longer than the bound, and then stops. *)
Lemma growTo_loop {A} (bound : Z) (x : A) (s : list A) :
  len s <= bound -> growTo bound x s = growTo bound x (s ++ [x]).
Proof.
  intros H. unfold growTo, len in *. rewrite length_app. simpl.
  replace (Z.to_nat (bound + 1 - Z.of_nat (length s)))
    with (S (Z.to_nat (bound + 1 - Z.of_nat (length s + 1)))) by lia.
  simpl. by rewrite <- app_assoc.
Qed.

Lemma growTo_one {A} (x : A) (s : list A) : growTo (len s) x s = s ++ [x].
Proof.
  unfold growTo. by replace (Z.to_nat (len s + 1 - len s)) with 1%nat by lia.
Qed.

Lemma lookup_last_row {A} (done : list A) (cur : A) :
  (done ++ [cur]) !! Z.to_nat (len done) = Some cur.
Proof. unfold len. rewrite Nat2Z.id. apply list_lookup_middle. done. Qed.

Lemma insert_last_row {A} (done : list A) (cur new : A) :
  <[Z.to_nat (len done) := new]> (done ++ [cur]) = done ++ [new].
Proof.
  unfold len. rewrite Nat2Z.id.
  replace (length done) with (length done + 0)%nat at 1 by lia.
  by rewrite insert_app_r.
Qed.

Lemma len_snoc {A} (l : list A) (x : A) : len (l ++ [x]) = len l + 1.
Proof. unfold len. rewrite length_app. simpl. lia. Qed.

Lemma len_nonneg {A} (l : list A) : 0 <= len l.
Proof. unfold len. lia. Qed.

(** Writing a rune at the end of the last row, short of the wrap column. *)
Lemma putRune_appends c done cur x y st m :
  x = len cur -> y = len done -> len cur < m -> m <= maxInt ->
  putRune c (mkVT (done ++ [cur]) x y st m) =
    Ok (mkVT (done ++ [cur ++ [c]]) (len cur + 1) (len done) st m).
Proof.
  intros -> -> Hcol Hm. unfold putRune, ensureLineExists, withLines,
    withCursorX, withCursorY. simpl.
  pose proof (len_nonneg done). pose proof (len_nonneg cur).
  rewrite growTo_enough by (rewrite len_snoc; lia).
  rewrite (index_ok _ _ cur) by (done || apply lookup_last_row). simpl.
  rewrite growTo_one.
  rewrite store_ok by (rewrite len_snoc; lia). simpl.
  rewrite insert_last_row.
  destruct (Z.leb_spec m (len cur)); [lia|]. simpl.
  rewrite (index_ok _ _ (cur ++ [blank])) by (done || apply lookup_last_row). simpl.
  rewrite store_ok by (rewrite len_snoc; lia). simpl.
  rewrite insert_last_row.
  rewrite store_ok by (rewrite len_snoc; lia). simpl.
  rewrite insert_last_row.
  unfold add. rewrite wrap64_id by (unfold minInt, maxInt in *; lia).
  done.
Qed.

(** A rune written at the wrap column: the padding loop lengthens the full
    row, the wrap adds an empty row, and the store at its index 0 is out of
    range. *)
Lemma putRune_panics_at_wrap_column c done cur x y st m :
  x = len cur -> y = len done -> len cur = m -> len done < maxInt ->
  putRune c (mkVT (done ++ [cur]) x y st m) = Panic.
Proof.
  intros -> -> Hcol Hrows. unfold putRune, ensureLineExists, withLines,
    withCursorX, withCursorY. simpl.
  pose proof (len_nonneg done). pose proof (len_nonneg cur).
  rewrite growTo_enough by (rewrite len_snoc; lia).
  rewrite (index_ok _ _ cur) by (done || apply lookup_last_row). simpl.
  rewrite growTo_one.
  rewrite store_ok by (rewrite len_snoc; lia). simpl.
  rewrite insert_last_row.
  destruct (Z.leb_spec m (len cur)); [|lia]. simpl.
  unfold add. rewrite !wrap64_id by (unfold minInt, maxInt in *; lia).
  replace (len done + 1) with (len (done ++ [cur ++ [blank]])) by apply len_snoc.
  rewrite growTo_one.
  rewrite (index_ok _ _ []) by (apply len_nonneg || apply lookup_last_row).
  reflexivity.
Qed.

(** The characters of [parsed] at position [i]: ordinary, and a line break
    or not. *)
Lemma ordinary_at parsed i c :
  forallb ordinary parsed = true -> parsed !! i = Some c ->
  (Symbol c =? ESC) = false /\ (Symbol c =? CR) = false /\ (Symbol c =? BS) = false.
Proof.
  intros Hord Hc.
  assert (Hordc : ordinary c = true).
  { rewrite forallb_forall in Hord. apply Hord.
    apply list_elem_of_In. by eapply list_elem_of_lookup_2. }
  unfold ordinary in Hordc.
  apply andb_prop in Hordc as [Hordc Hbs]. apply andb_prop in Hordc as [Hesc Hcr].
  by apply negb_true_iff in Hesc, Hcr, Hbs.
Qed.

Lemma tracks_last_row parsed m i vt :
  tracks parsed m i vt ->
  exists done cur st,
    splitLines (take i parsed) = done ++ [cur] /\
    vt = mkVT (done ++ [cur]) (len cur) (len done) st m /\
    len cur <= m /\ len done <= Z.of_nat i.
Proof.
  intros [Hlines Hrow Hcol Hrows Hcols Hwithin].
  destruct (exists_last (splitLines_nonempty (take i parsed))) as (done & cur & Hsplit).
  exists done, cur, (settings vt). rewrite Hsplit in Hlines.
  destruct vt as [ls x y st mc]. simpl in *. subst ls mc.
  rewrite len_snoc in Hrow. rewrite last_snoc in Hcol. simpl in Hcol.
  assert (y = len done) as -> by lia. subst x. done.
Qed.

Lemma parseStep_plain parsed m i vt c :
  0 < m <= maxInt -> len parsed < maxInt ->
  forallb ordinary parsed = true ->
  parsed !! i = Some c ->
  tracks parsed m i vt ->
  Symbol c = LF \/ cursorX vt < m ->
  exists vt', parseStep parsed vt i = Ok (vt', S i) /\ tracks parsed m (S i) vt' /\
              cursorX vt' = if Symbol c =? LF then 0 else cursorX vt + 1.
Proof.
  intros Hm Hlen Hord Hc Htr Hroom.
  assert (Hi : Z.of_nat i < len parsed)
    by (apply lookup_lt_Some in Hc; unfold len; lia).
  destruct (ordinary_at parsed i c Hord Hc) as (Hesc & Hcr & Hbs).
  destruct (tracks_last_row _ _ _ _ Htr) as (done & cur & st & Hsplit & -> & Hwithin & Hrows).
  simpl in *.
  unfold parseStep. rewrite Hc, Hesc, Hcr, Hbs.
  destruct (Symbol c =? LF) eqn:Hlf.
  - apply Z.eqb_eq in Hlf.
    eexists. split; [reflexivity|].
    unfold ensureLineExists, withLines, withCursorX, withCursorY, add. simpl.
    rewrite wrap64_id by (unfold minInt, maxInt in *; pose proof (len_nonneg done); lia).
    replace (len done + 1) with (len (done ++ [cur])) by apply len_snoc.
    rewrite growTo_one.
    split; [|done]. constructor; simpl.
    + rewrite (take_S_r _ _ _ Hc), splitLines_snoc_break by done. by rewrite Hsplit.
    + rewrite !len_snoc. lia.
    + by rewrite last_snoc.
    + rewrite len_snoc. lia.
    + done.
    + lia.
  - apply Z.eqb_neq in Hlf. destruct Hroom as [Hroom|Hroom]; [done|].
    rewrite (putRune_appends c done cur) by (done || lia). simpl.
    eexists. split; [reflexivity|]. split; [|done].
    constructor; simpl.
    + rewrite (take_S_r _ _ _ Hc). symmetry. by apply splitLines_snoc_rune.
    + rewrite len_snoc. lia.
    + rewrite last_snoc. simpl. by rewrite len_snoc.
    + lia.
    + done.
    + lia.
Qed.

Lemma parseStep_overlong parsed m i vt c :
  0 < m <= maxInt -> len parsed < maxInt ->
  forallb ordinary parsed = true ->
  parsed !! i = Some c ->
  tracks parsed m i vt ->
  Symbol c <> LF -> m <= cursorX vt ->
  parseStep parsed vt i = Panic.
Proof.
  intros Hm Hlen Hord Hc Htr Hlf Hfull.
  assert (Hi : Z.of_nat i < len parsed)
    by (apply lookup_lt_Some in Hc; unfold len; lia).
  destruct (ordinary_at parsed i c Hord Hc) as (Hesc & Hcr & Hbs).
  destruct (tracks_last_row _ _ _ _ Htr) as (done & cur & st & Hsplit & -> & Hwithin & Hrows).
  simpl in *.
  unfold parseStep. rewrite Hc, Hesc, Hcr, Hbs.
  apply Z.eqb_neq in Hlf. rewrite Hlf.
  rewrite (putRune_panics_at_wrap_column c done cur) by (done || lia). done.
Qed.

Lemma fits_cons m col c rest :
  fits m col (c :: rest) =
    if Symbol c =? LF then fits m 0 rest else (col <? m) && fits m (col + 1) rest.
Proof. reflexivity. Qed.

(** The loop of [Parse] on ordinary characters: it ends with the rows of the
    input when every line fits the terminal, and fails when one does not. *)
Lemma parseLoop_plain parsed m :
  0 < m <= maxInt -> len parsed < maxInt ->
  forallb ordinary parsed = true ->
  forall fuel i vt,
    (length parsed <= i + fuel)%nat ->
    tracks parsed m i vt ->
    (fits m (cursorX vt) (drop i parsed) = true ->
     exists vt', parseLoop fuel parsed vt i = Some (Ok vt') /\
                 lines vt' = splitLines parsed) /\
    (fits m (cursorX vt) (drop i parsed) = false ->
     parseLoop fuel parsed vt i = Some Panic).
Proof.
  intros Hm Hlen Hord.
  assert (Hend : forall i vt, (length parsed <= i)%nat -> tracks parsed m i vt ->
            (fits m (cursorX vt) (drop i parsed) = true ->
             exists vt', Some (Ok vt) = Some (Ok vt') /\ lines vt' = splitLines parsed) /\
            (fits m (cursorX vt) (drop i parsed) = false ->
             Some (Ok vt) = Some (@Panic VirtualTerminal))).
  { intros i vt Hi Htr. rewrite drop_ge by done. simpl. split; [|done].
    intros _. exists vt. split; [done|]. destruct Htr as [-> _ _ _ _ _]. by rewrite take_ge. }
  induction fuel as [|fuel IH]; intros i vt Hfuel Htr; simpl.
  - destruct (Nat.leb_spec (length parsed) i); [by apply Hend|lia].
  - destruct (Nat.leb_spec (length parsed) i); [by apply Hend|].
    destruct (lookup_lt_is_Some_2 parsed i) as [c Hc]; [lia|].
    rewrite (drop_S _ _ _ Hc), fits_cons.
    destruct (Symbol c =? LF) eqn:Hlf.
    + apply Z.eqb_eq in Hlf.
      destruct (parseStep_plain parsed m i vt c Hm Hlen Hord Hc Htr (or_introl Hlf))
        as (vt' & -> & Htr' & Hx').
      apply Z.eqb_eq in Hlf. rewrite Hlf in Hx'. rewrite <- Hx'.
      apply IH; [lia | done].
    + destruct (Z.ltb_spec (cursorX vt) m) as [Hroom|Hfull]; simpl.
      * destruct (parseStep_plain parsed m i vt c Hm Hlen Hord Hc Htr (or_intror Hroom))
          as (vt' & -> & Htr' & Hx').
        rewrite Hlf in Hx'. rewrite <- Hx'.
        apply IH; [lia | done].
      * split; [done|]. intros _. apply Z.eqb_neq in Hlf.
        by rewrite (parseStep_overlong parsed m i vt c Hm Hlen Hord Hc Htr Hlf Hfull).
Qed.

Lemma joinLines_cons line next more :
  joinLines (line :: next :: more) = line ++ breakAfter line :: joinLines (next :: more).
Proof. reflexivity. Qed.

Lemma sameUpToBreaks_refl l : sameUpToBreaks l l.
Proof. induction l; constructor; auto. Qed.




(** A line longer than the terminal is wide does not come out either: the
    wrap makes [Parse] fail. *)
Lemma long_line_panics : interpret 5 (plain "abcdef") = Some Panic.
Proof. vm_compute. reflexivity. Qed.


(** On ordinary characters with a line that is longer than the terminal is
    wide, [Parse] fails: the defect behind [putRune_panics_at_wrap_column]
    is met by every such input. *)
Lemma parse_panics_on_long_line (maxColumns : Z) (parsed : list ColoredRune) :
  0 < maxColumns <= maxInt ->
  len parsed < maxInt ->
  forallb ordinary parsed = true ->
  fits maxColumns 0 parsed = false ->
  interpret maxColumns parsed = Some Panic.
Proof.
  intros Hm Hlen Hord Hfits.
  unfold interpret, Parse, ParseWith, NewVirtualTerminal.
  destruct (Z.leb_spec maxColumns 0); [lia|].
  destruct (parseLoop_plain parsed maxColumns Hm Hlen Hord
              (length parsed) 0%nat (mkVT [[]] 0 0 0 maxColumns)) as [_ Hpanic];
    [lia | constructor; simpl; done || lia |].
  rewrite Hpanic; [done | by rewrite drop_0].
Qed.

Lemma fits_long_run m run : forall col,
  unbroken run = true -> col <= m -> m < col + len run -> fits m col run = false.
Proof.
  induction run as [|c run IH]; intros col Hrun Hcol Hlong; simpl in *.
  - unfold len in Hlong. simpl in Hlong. lia.
  - apply andb_prop in Hrun as [Hc Hrun]. apply negb_true_iff in Hc. rewrite Hc.
    destruct (Z.ltb_spec col m); [|done]. simpl.
    apply IH; [done | lia |]. unfold len in *. simpl in Hlong. lia.
Qed.

(** Every run of twelve ordinary characters makes [Parse] fail at five
    columns, not only the one of the example. *)
Lemma parse_panics_on_run_of_twelve (run : list ColoredRune) :
  length run = 12%nat -> forallb ordinary run = true -> unbroken run = true ->
  interpret 5 run = Some Panic.
Proof.
  intros Hlen Hord Hrun. apply parse_panics_on_long_line.
  - unfold maxInt. lia.
  - unfold len, maxInt. rewrite Hlen. lia.
  - done.
  - apply fits_long_run; [done | lia |]. unfold len. rewrite Hlen. lia.
Qed.


End PlainText.

(** ** Properties of the lexer *)

Module HighlightFacts.

Import Highlight.

Lemma span_le p rest : span p rest <= length rest.
Proof. induction rest as [|ch rest IH]; simpl; [lia|]. destruct (p ch); simpl; lia. Qed.

Lemma stringSpan_le quote rest : stringSpan quote rest <= length rest.
Proof.
  assert (H : forall n rest, length rest <= n -> stringSpan quote rest <= length rest);
    [|by apply (H (length rest))].
  clear rest. induction n as [|n IH]; intros [|ch [|ch' rest]] Hn; simpl in *; try lia.
  - destruct (Ascii.eqb ch quote); [lia|]. destruct (Ascii.eqb ch backslash); simpl; lia.
  - destruct (Ascii.eqb ch quote); [lia|].
    destruct (Ascii.eqb ch backslash).
    + pose proof (IH rest). lia.
    + pose proof (IH (ch' :: rest)). simpl in *. lia.
Qed.

Lemma span_drop_le p (s : list ascii) k : k + span p (drop k s) <= Nat.max k (length s).
Proof. pose proof (span_le p (drop k s)). rewrite length_drop in *. lia. Qed.

(** A byte that ends a word is a byte that [Tokenize] handles before it
    comes to words. *)
Lemma wordStops_handled_before ch :
  containsRune wordStops ch = true ->
  (Ascii.eqb ch "#" || (Ascii.eqb ch dquote || Ascii.eqb ch "'" || Ascii.eqb ch "`") ||
   Ascii.eqb ch "$" || containsRune operatorChars ch)%bool = true.
Proof. destruct ch as [[] [] [] [] [] [] [] []]; vm_compute; congruence. Qed.

Lemma take_substr (s : list ascii) start stop :
  start <= stop -> take start s ++ substr s start stop = take stop s.
Proof.
  intros H. unfold substr. rewrite take_take_drop. f_equal. lia.
Qed.

Lemma literal_snoc toks t v : literal (toks ++ [mkToken t v]) = literal toks ++ v.
Proof. unfold literal. rewrite map_app, concat_app. simpl. by rewrite app_nil_r. Qed.

Lemma addToken_stepsTo ch l t stop :
  pos l < stop <= length (input l) ->
  stepsTo ch l (addToken t (substr (input l) (pos l) stop) (withPos stop l)).
Proof. intros H. split; [done|]. split; [done|]. do 2 eexists. simpl. eauto. Qed.

Lemma setLastType_stepsTo ch l l' t :
  stepsTo ch l l' -> stepsTo ch l (setLastType t l').
Proof.
  intros (Hin & Hpos & t0 & v & Htok & Hv). unfold setLastType.
  rewrite Htok, reverse_snoc. simpl. rewrite reverse_involutive.
  split; [done|]. split; [done|]. exists t, v. eauto.
Qed.

Lemma tokenizeComment_stepsTo ch l :
  input l !! pos l = Some ch -> Ascii.eqb ch "#" = true ->
  stepsTo ch l (tokenizeComment l).
Proof.
  intros Hch Hc. apply Ascii.eqb_eq in Hc. subst ch.
  unfold tokenizeComment. apply addToken_stepsTo.
  pose proof (lookup_lt_Some _ _ _ Hch).
  rewrite (drop_S _ _ _ Hch). simpl.
  pose proof (span_drop_le (fun ch => negb (Ascii.eqb ch newline)) (input l) (S (pos l))).
  lia.
Qed.

Lemma tokenizeString_stepsTo ch quote l :
  input l !! pos l = Some ch -> stepsTo ch l (tokenizeString quote l).
Proof.
  intros Hch. unfold tokenizeString. apply addToken_stepsTo.
  pose proof (lookup_lt_Some _ _ _ Hch).
  pose proof (stringSpan_le quote (drop (S (pos l)) (input l))) as Hle.
  rewrite length_drop in Hle. lia.
Qed.

Lemma tokenizeVariable_stepsTo ch l :
  input l !! pos l = Some ch -> stepsTo ch l (tokenizeVariable l).
Proof.
  intros Hch. unfold tokenizeVariable. apply addToken_stepsTo.
  pose proof (lookup_lt_Some _ _ _ Hch).
  destruct (input l !! S (pos l)) as [next|] eqn:Hnext; [|lia].
  pose proof (lookup_lt_Some _ _ _ Hnext).
  destruct (Ascii.eqb next "{").
  - pose proof (span_drop_le (fun ch => negb (Ascii.eqb ch "}")) (input l) (S (S (pos l)))).
    destruct (Nat.ltb_spec
      (S (S (pos l)) + span (fun ch => negb (Ascii.eqb ch "}")) (drop (S (S (pos l))) (input l)))
      (length (input l))); lia.
  - pose proof (span_drop_le (fun ch => isLetter ch || isDigit ch || Ascii.eqb ch "_")
                  (input l) (S (pos l))). lia.
Qed.

Lemma tokenizeFlag_stepsTo ch l :
  input l !! pos l = Some ch -> stepsTo ch l (tokenizeFlag l).
Proof.
  intros Hch. unfold tokenizeFlag. apply addToken_stepsTo.
  pose proof (lookup_lt_Some _ _ _ Hch).
  set (p := match input l !! S (pos l) with
            | Some ch0 => if Ascii.eqb ch0 "-" then S (S (pos l)) else S (pos l)
            | None => S (pos l)
            end).
  assert (S (pos l) <= p <= length (input l)) as Hp.
  { subst p. destruct (input l !! S (pos l)) as [next|] eqn:Hnext; [|lia].
    pose proof (lookup_lt_Some _ _ _ Hnext). destruct (Ascii.eqb next "-"); lia. }
  pose proof (span_drop_le (fun ch => negb (isSpace ch || containsRune flagStops ch))
                (input l) p). lia.
Qed.

Lemma tokenizeOperator_stepsTo ch l :
  input l !! pos l = Some ch -> stepsTo ch l (tokenizeOperator ch l).
Proof.
  intros Hch. unfold tokenizeOperator. apply addToken_stepsTo.
  pose proof (lookup_lt_Some _ _ _ Hch).
  destruct (input l !! S (pos l)) as [next|] eqn:Hnext; [|lia].
  pose proof (lookup_lt_Some _ _ _ Hnext). destruct (twoCharOperator ch next); lia.
Qed.

Lemma tokenizeWord_stepsTo ch l :
  input l !! pos l = Some ch ->
  isSpace ch = false -> containsRune wordStops ch = false ->
  stepsTo ch l (tokenizeWord l).1.
Proof.
  intros Hch Hsp Hstop. unfold tokenizeWord. cbn [fst]. apply addToken_stepsTo.
  pose proof (lookup_lt_Some _ _ _ Hch).
  rewrite (drop_S _ _ _ Hch). cbn [span]. rewrite Hsp, Hstop. cbn [orb negb].
  pose proof (span_drop_le (fun ch => negb (isSpace ch || containsRune wordStops ch))
                (input l) (S (pos l))). lia.
Qed.

Lemma single_byte_stepsTo ch l :
  input l !! pos l = Some ch ->
  stepsTo ch l (withPos (S (pos l)) (addToken TokenDefault (stringOfByte ch) l)).
Proof.
  intros Hch. pose proof (lookup_lt_Some _ _ _ Hch).
  split; [done|]. split; [simpl; lia|]. do 2 eexists. simpl. eauto.
Qed.

Section LexerFacts.

Variable decodeRunes : list ascii -> list Z.
Variable unicodeIsDigit : Z -> bool.

(** Every iteration of the loop of [Tokenize] adds one token and moves the
    position forward. *)
Lemma tokenizeStep_stepsTo ch l isFirstWord :
  input l !! pos l = Some ch ->
  stepsTo ch l (tokenizeStep decodeRunes unicodeIsDigit ch l isFirstWord).1.
Proof.
  intros Hch. unfold tokenizeStep.
  destruct (isSpace ch) eqn:Hsp; [by apply single_byte_stepsTo|].
  destruct (Ascii.eqb ch "#") eqn:Hhash; [by apply tokenizeComment_stepsTo|].
  destruct (Ascii.eqb ch dquote || Ascii.eqb ch "'" || Ascii.eqb ch "`") eqn:Hq;
    [by apply tokenizeString_stepsTo|].
  destruct (Ascii.eqb ch "$") eqn:Hd; [by apply tokenizeVariable_stepsTo|].
  destruct (containsRune operatorChars ch) eqn:Hop; [by apply tokenizeOperator_stepsTo|].
  destruct (Ascii.eqb ch "-" && _) eqn:Hflag; [by apply tokenizeFlag_stepsTo|].
  destruct (isLetter ch || isDigit ch || Ascii.eqb ch "." || Ascii.eqb ch "/" ||
            Ascii.eqb ch "_" || Ascii.eqb ch "~") eqn:Hword;
    [|by apply single_byte_stepsTo].
  assert (Hstop : containsRune wordStops ch = false).
  { destruct (containsRune wordStops ch) eqn:Hstop; [|done].
    apply wordStops_handled_before in Hstop.
    rewrite Hhash, Hq, Hd, Hop in Hstop. discriminate Hstop. }
  pose proof (tokenizeWord_stepsTo ch l Hch Hsp Hstop) as Hsteps.
  destruct (tokenizeWord l) as [l' word]. simpl in Hsteps.
  destruct isFirstWord; [by apply setLastType_stepsTo|].
  destruct (isKeyword word); [by apply setLastType_stepsTo|].
  destruct (isPath word); [by apply setLastType_stepsTo|].
  destruct (isNumber decodeRunes unicodeIsDigit word); [by apply setLastType_stepsTo|done].
Qed.

(** [Tokenize] returns: the length of what is left of the input is enough
    fuel for its loop. *)
Lemma tokenizeLoop_terminates fuel : forall l isFirstWord,
  length (input l) <= pos l + fuel ->
  is_Some (tokenizeLoop decodeRunes unicodeIsDigit fuel l isFirstWord).
Proof.
  induction fuel as [|fuel IH]; intros l isFirstWord Hfuel; simpl.
  - destruct (input l !! pos l) eqn:Hch; [|eauto].
    apply lookup_lt_Some in Hch. lia.
  - destruct (input l !! pos l) as [ch|] eqn:Hch; [|eauto].
    pose proof (tokenizeStep_stepsTo ch l isFirstWord Hch) as (Hin & Hpos & _).
    destruct (tokenizeStep decodeRunes unicodeIsDigit ch l isFirstWord) as [l' first']. simpl in *.
    apply IH. rewrite Hin. lia.
Qed.

(** On ASCII input, the tokens read so far spell the input up to the
    position of the lexer, and the loop keeps it so. *)
Lemma tokenizeLoop_spells fuel : forall l isFirstWord l',
  isASCII (input l) = true ->
  literal (tokens l) = take (pos l) (input l) ->
  tokenizeLoop decodeRunes unicodeIsDigit fuel l isFirstWord = Some l' ->
  input l' = input l /\ literal (tokens l') = input l.
Proof.
  induction fuel as [|fuel IH]; intros l isFirstWord l' Hascii Hlit Hloop; simpl in Hloop.
  - destruct (input l !! pos l) eqn:Hch; [done|].
    injection Hloop as <-. split; [done|]. rewrite Hlit.
    apply take_ge. by apply lookup_ge_None.
  - destruct (input l !! pos l) as [ch|] eqn:Hch.
    + pose proof (tokenizeStep_stepsTo ch l isFirstWord Hch)
        as (Hin & Hpos & t & v & Htok & Hv).
      destruct (tokenizeStep decodeRunes unicodeIsDigit ch l isFirstWord) as [l1 first1].
      simpl in *.
      destruct (IH l1 first1 l') as [Hin' Hlit']; [by rewrite Hin | | done |].
      * rewrite Htok, literal_snoc, Hlit, Hin.
        destruct Hv as [-> | [-> Hnext]]; [apply take_substr; lia|].
        rewrite Hnext, (take_S_r _ _ _ Hch). f_equal.
        unfold isASCII in Hascii. rewrite forallb_forall in Hascii.
        unfold stringOfByte. rewrite Hascii; [done|].
        apply list_elem_of_In. by eapply list_elem_of_lookup_2.
      * split; congruence.
    + injection Hloop as <-. split; [done|]. rewrite Hlit.
      apply take_ge. by apply lookup_ge_None.
Qed.

(** The round trip of the tokenizer holds on ASCII commands. *)
Lemma Tokenize_spells_ascii (command : list ascii) :
  isASCII command = true ->
  exists toks, Tokenize decodeRunes unicodeIsDigit command = Some toks /\ literal toks = command.
Proof.
  intros Hascii. unfold Tokenize.
  destruct (tokenizeLoop_terminates (length command) (NewLexer command) true)
    as [l' Hloop]; [simpl; lia|].
  rewrite Hloop. simpl. exists (tokens l'). split; [done|].
  by destruct (tokenizeLoop_spells (length command) (NewLexer command) true l'
                Hascii eq_refl Hloop).
Qed.

(** [Tokenize] returns for every command. *)
Lemma Tokenize_total (command : list ascii) :
  is_Some (Tokenize decodeRunes unicodeIsDigit command).
Proof.
  unfold Tokenize.
  destruct (tokenizeLoop_terminates (length command) (NewLexer command) true)
    as [l' Hloop]; [simpl; lia|].
  rewrite Hloop. simpl. eauto.
Qed.

(** C2. The round trip of the tokenizer fails on the two bytes that encode
    U+00E0, a letter with grave accent: the second byte, 160, is white space
    by the Latin-1 reading that [Tokenize] makes of a byte, and the token for
    it is the two-byte string that Go makes of the integer 160. The tokens
    spell three bytes, the command has two. Tokens that are slices of the
    input are exact, and so is the round trip on ASCII. *)
Theorem Tokenize_does_not_spell_aGrave :
  (literal <$> Tokenize decodeRunes unicodeIsDigit aGrave) =
    Some [ascii_of_nat 195; ascii_of_nat 194; ascii_of_nat 160] /\
  (literal <$> Tokenize decodeRunes unicodeIsDigit aGrave) <> Some aGrave /\
  aGrave = list_ascii_of_string "à".
Proof. repeat split; vm_compute; congruence. Qed.

End LexerFacts.

End HighlightFacts.

(** ** The cursor stays on the grid, short of integer overflow *)

Module CursorFacts.

Import Ansi GoFacts PlainText.
Local Open Scope Z_scope.

Lemma len_growTo {A} (bound : Z) (x : A) (s : list A) :
  len (growTo bound x s) = Z.max (len s) (bound + 1).
Proof. unfold growTo, len. rewrite length_app, length_replicate. lia. Qed.

Lemma len_insert {A} (l : list A) (i : nat) (x : A) : len (<[i := x]> l) = len l.
Proof. unfold len. by rewrite length_insert. Qed.








Lemma clampZero_nonneg z : 0 <= clampZero z.
Proof. unfold clampZero. destruct (Z.ltb_spec z 0); lia. Qed.









Lemma ensureLineExists_onGrid x y vt :
  0 <= x -> 0 <= y ->
  cursorOnGrid (ensureLineExists y (withCursorX x (withCursorY y vt))).
Proof.
  intros Hx Hy. unfold cursorOnGrid, ensureLineExists. simpl. rewrite len_growTo. lia.
Qed.



Lemma bind_Ok {A B} (r : result A) (f : A -> result B) (y : B) :
  (x ← r; f x) = Ok y -> exists x, r = Ok x /\ f x = Ok y.
Proof. destruct r as [x|]; [|done]. intros H. by exists x. Qed.

Lemma store_len {A} (l l' : list A) (i : Z) (x : A) :
  store l i x = Ok l' -> len l' = len l.
Proof.
  unfold store. destruct (_ && _)%bool; [|done]. intros [= <-]. apply len_insert.
Qed.






End CursorFacts.

(** ** Properties of the compositor *)

Module ImgFacts.

Import Ansi Img Cmd.

(** C1. Twelve runes without a line break, at five columns. The
    specification asks for three lines of at most five runes; the code gives
    them neither on the terminal nor in the compositor: [Parse] hits an
    index out of range when the sixth rune is written to the row that the
    wrap has just added, and the wrap step of [AddContent] produces rows of
    5, 6 and 1 runes. No rune is lost or repeated by the wrap step. *)
Theorem wrap_of_twelve_runes_at_five_columns
    (scanHex : string -> nat -> option (list Z)) (termColumns : Z) :
  interpret 5 twelveRunes = Some Panic /\
  content (AddContent scanHex termColumns (SetColumns 5 NewImageCreator) twelveRunes) =
    plain "abcde" ++ plainRune LF :: plain "fghijk" ++ plainRune LF :: plain "l" /\
  map length
    (splitLines (content (AddContent scanHex termColumns (SetColumns 5 NewImageCreator)
                            twelveRunes))) = [5; 6; 1]%nat /\
  concat
    (splitLines (content (AddContent scanHex termColumns (SetColumns 5 NewImageCreator)
                            twelveRunes))) = twelveRunes.
Proof. repeat split; vm_compute; reflexivity. Qed.

(** The step of [Parse] that fails: at column 5 of a full first row the
    padding loop lengthens the old row, the wrap adds an empty row, and the
    rune is stored at index 0 of that empty row. *)
Lemma putRune_panics_on_wrap :
  putRune (plainRune (rune "f")) (mkVT [plain "abcde"] 5 0 0 5) = Panic.
Proof. reflexivity. Qed.

(** C7. Prompt detection on content that starts with a prompt line. With
    output after the command, the prompt glyph gets the style bits
    4154903297 (foreground colour 203, 166, 247), the two characters of the
    command word get the style bits that are packed from the green of the
    theme (2042861569 under the default theme: foreground colour 152, 195,
    121), every other character of the line keeps its style, one blank line
    is inserted and the output follows unchanged; with a second prompt line
    right after the first, the first line is highlighted in the same way and
    no blank line is inserted. Stated for every styling of the characters,
    every continuation of the content and every theme. *)
Theorem prompt_detection
    (scanHex : string -> nat -> option (list Z)) (s : Scaffold)
    (style : nat -> Z) (rest : list ColoredRune) :
  noPromptDetect s = false ->
  let out1 := enhanceRawContent scanHex s (styled style sessionWithOutput ++ rest) in
  let out2 := enhanceRawContent scanHex s (styled style sessionTwoPrompts ++ rest) in
  out1 =
    mkCR promptGlyph 4154903297 :: mkCR (rune " ") (style 1%nat) ::
    mkCR (rune "l") (commandSettings scanHex s) ::
    mkCR (rune "s") (commandSettings scanHex s) ::
    mkCR (rune " ") (style 4%nat) :: mkCR (rune "-") (style 5%nat) ::
    mkCR (rune "l") (style 6%nat) :: mkCR (rune "a") (style 7%nat) ::
    mkCR LF 0 :: mkCR LF 0 ::
    drop 9 (styled style sessionWithOutput) ++ rest /\
  symbols out1 =
    promptGlyph :: runes " ls -la" ++ LF :: LF :: runes "file1" ++ LF :: runes "file2" ++
    symbols rest /\
  out2 =
    mkCR promptGlyph 4154903297 :: mkCR (rune " ") (style 1%nat) ::
    mkCR (rune "l") (commandSettings scanHex s) ::
    mkCR (rune "s") (commandSettings scanHex s) ::
    mkCR LF 0 ::
    drop 5 (styled style sessionTwoPrompts) ++ rest /\
  symbols out2 = sessionTwoPrompts ++ symbols rest /\
  Z.testbit (commandSettings scanHex s) 0 = true /\
  map Settings
    (take 4 (enhanceRawContent Theme.hexPairs NewImageCreator
               (styled (fun _ => 0%Z) sessionWithOutput))) =
    [4154903297; 0; 2042861569; 2042861569]%Z.
Proof.
  intros Hdetect out1 out2. subst out1 out2.
  unfold enhanceRawContent at 1 2 3 4. rewrite Hdetect.
  split; [vm_compute; reflexivity|].
  split; [vm_compute; reflexivity|].
  split; [vm_compute; reflexivity|].
  split; [vm_compute; reflexivity|].
  split; [|vm_compute; reflexivity].
  unfold commandSettings. rewrite !Z.lor_spec. reflexivity.
Qed.

Lemma prompt_detection_witness :
  map Settings
    (take 4 (enhanceRawContent Theme.hexPairs NewImageCreator
               (styled (fun _ => 7%Z) sessionWithOutput ++ []))) =
    [4154903297; 7; 2042861569; 2042861569]%Z.
Proof.
  destruct (prompt_detection Theme.hexPairs NewImageCreator (fun _ => 7%Z) [] eq_refl)
    as (Hout & _).
  cbv zeta in Hout. rewrite Hout. vm_compute. reflexivity.
Defined.

(** C5. Raw-write mode sets the columns to 0 before the content is added,
    but [GetFixedColumns] then answers with the width of the terminal, so
    the wrap step still runs: on a terminal of 4 columns the two lines of
    the example are both broken, and on one of 80 columns a line of 81
    characters is, whereas the specification asks for the input to be
    written as it is. The input comes out unchanged only when the terminal
    is at least as wide as its longest line. *)
Theorem raw_write_wraps_at_terminal_width
    (scanHex : string -> nat -> option (list Z)) (GetColumns : Scaffold -> Z) :
  rawWrite scanHex GetColumns 4 3 false helloWorld =
    plain "hell" ++ plainRune LF :: plain "o" ++ plainRune LF ::
    plain "worl" ++ plainRune LF :: plain "d" /\
  rawWrite scanHex GetColumns 4 3 false helloWorld <> helloWorld /\
  rawWrite scanHex GetColumns 80 3 false longLine =
    replicate 80 (plainRune (rune "x")) ++ [plainRune LF; plainRune (rune "x")] /\
  rawWrite scanHex GetColumns 80 3 false helloWorld = helloWorld.
Proof. repeat split; try (vm_compute; reflexivity). vm_compute. discriminate. Qed.

(** Where the terminal is wide enough for the input, raw-write mode does
    reproduce it. *)
Lemma raw_write_exact_on_wide_terminal
    (scanHex : string -> nat -> option (list Z)) (GetColumns : Scaffold -> Z)
    (termColumns : Z) :
  (5 <= termColumns)%Z ->
  rawWrite scanHex GetColumns termColumns 3 false helloWorld = helloWorld.
Proof.
  intros Hwide. unfold rawWrite, AddContent, WriteRaw. simpl.
  unfold wrapContent, GetFixedColumns. simpl.
  repeat match goal with
         | |- context [(termColumns <? ?k)%Z] =>
           destruct (Z.ltb_spec termColumns k); [lia|]; simpl
         end.
  reflexivity.
Qed.

Lemma wrapRune_unbroken cols tmp counter cr :
  (Symbol cr =? 10)%Z = false ->
  wrapRune cols (tmp, counter) cr =
    if (cols <? counter + 1)%Z
    then ((tmp ++ [mkCR LF (Settings cr)]) ++ [cr], 0%Z)
    else (tmp ++ [cr], (counter + 1)%Z).
Proof.
  intros Hcr. unfold wrapRune. change LF with 10%Z. rewrite Hcr.
  by destruct (cols <? counter + 1)%Z.
Qed.

Lemma splitLines_unbroken cr rest :
  (Symbol cr =? 10)%Z = false ->
  splitLines (cr :: rest) =
    match splitLines rest with
    | line :: more => (cr :: line) :: more
    | [] => [[cr]]
    end.
Proof. intros Hcr. simpl. by rewrite Hcr. Qed.

Lemma splitLines_break st rest :
  splitLines (mkCR 10 st :: rest) = [] :: splitLines rest.
Proof. reflexivity. Qed.

#[local] Arguments wrapRune : simpl never.
#[local] Arguments splitLines : simpl never.

(** The wrap step gives rows of 5, 6 and 1 characters for every run of
    twelve characters without a line break, whatever their symbols and
    styles are. *)
Lemma wrapContent_run_of_twelve (run : list ColoredRune) :
  length run = 12%nat -> unbroken run = true ->
  map length (splitLines (wrapContent 5 run)) = [5; 6; 1]%nat /\
  concat (splitLines (wrapContent 5 run)) = run.
Proof.
  intros Hlen Hrun.
  do 12 (destruct run as [|? run]; [discriminate Hlen|]).
  destruct run; [|discriminate Hlen]. clear Hlen.
  unfold unbroken in Hrun. simpl in Hrun.
  repeat match goal with
         | H : (_ && _)%bool = true |- _ => apply andb_prop in H as [? H]
         end.
  repeat match goal with
         | H : negb _ = true |- _ => apply negb_true_iff in H
         end.
  change Ansi.LF with 10%Z in *.
  unfold wrapContent. cbn [fold_left].
  repeat (rewrite wrapRune_unbroken by assumption; simpl).
  change LF with 10%Z.
  repeat first [rewrite splitLines_unbroken by assumption
               | rewrite splitLines_break
               | progress simpl].
  split; reflexivity.
Qed.

End ImgFacts.

(** ** Properties of the themes *)

Module ThemeFacts.

Import Theme.

(** C10. [GetTheme] answers for every name: with the preset of that name,
    and with the preset [default] when the name is not the name of a preset.
    What it returns is always one of the presets, never the empty theme. *)
Theorem GetTheme_falls_back_to_default (name : string) :
  (name ∉ presetNames -> GetTheme name = preset_default) /\
  GetTheme "default" = preset_default /\
  GetTheme name ∈ presets.*2 /\
  GetTheme name <> zeroTheme.
Proof.
  assert (Hdefault : themes !! "default" = Some preset_default)
    by (vm_compute; reflexivity).
  assert (Hin : GetTheme name ∈ presets.*2).
  { unfold GetTheme. destruct (themes !! name) as [t|] eqn:Hname.
    - apply elem_of_list_to_map_2 in Hname.
      apply list_elem_of_fmap. by exists (name, t).
    - rewrite Hdefault. simpl. apply list_elem_of_here. }
  split; [|split; [|split]].
  - intros Hname. unfold GetTheme.
    rewrite (not_elem_of_list_to_map_1 presets name Hname : themes !! name = None).
    by rewrite Hdefault.
  - unfold GetTheme. by rewrite Hdefault.
  - exact Hin.
  - intros Hzero. rewrite Hzero in Hin.
    apply list_elem_of_In in Hin. simpl in Hin.
    repeat (destruct Hin as [Hin|Hin]; [discriminate Hin|]). exact Hin.
Qed.

Lemma GetTheme_falls_back_to_default_witness :
  GetTheme "solarized-light" = preset_default.
Proof.
  apply (proj1 (GetTheme_falls_back_to_default "solarized-light")).
  vm_compute. intros H. apply list_elem_of_In in H. simpl in H.
  repeat (destruct H as [H|H]; [discriminate H|]). exact H.
Defined.

Section UnmarshalFacts.

Variable foldName : string -> string.

Lemma getField_setField_ne f g v t :
  f <> g -> getField f (setField g v t) = getField f t.
Proof. intros Hne. destruct f, g; try reflexivity; congruence. Qed.

Lemma decode_failed_sticks members : forall t,
  (fold_left (decodeMember foldName) members (t, true)).2 = true.
Proof.
  induction members as [|[k v] members IH]; intros t; simpl; [done|].
  destruct (fieldOfKey foldName k); [destruct v|]; apply IH.
Qed.

Lemma decode_wrong_type members : forall t failed k v,
  (k, v) ∈ members -> is_Some (fieldOfKey foldName k) -> wrongType v ->
  (fold_left (decodeMember foldName) members (t, failed)).2 = true.
Proof.
  induction members as [|[k' v'] members IH]; intros t failed k v Hin Hkey Hv.
  - by apply elem_of_nil in Hin.
  - apply elem_of_cons in Hin as [Heq|Hin].
    + injection Heq as <- <-. simpl. destruct Hkey as [f ->].
      destruct v; simpl in Hv; try done; apply decode_failed_sticks.
    + simpl. destruct (decodeMember foldName (t, failed) (k', v')) as [t' failed'] eqn:Hd.
      simpl in Hd. rewrite Hd. by eapply IH.
  Qed.

Lemma decode_well_typed members : forall t,
  (forall k v, (k, v) ∈ members -> is_Some (fieldOfKey foldName k) -> ~ wrongType v) ->
  (fold_left (decodeMember foldName) members (t, false)).2 = false.
Proof.
  induction members as [|[k v] members IH]; intros t Hok; simpl; [done|].
  assert (Hrest : forall k v, (k, v) ∈ members ->
                    is_Some (fieldOfKey foldName k) -> ~ wrongType v)
    by (intros k' v' Hin; apply Hok; by apply list_elem_of_further).
  destruct (fieldOfKey foldName k) as [f|] eqn:Hf; [|by apply IH].
  pose proof (Hok k v (list_elem_of_here _ _) (ltac:(rewrite Hf; eauto))) as Hv.
  destruct v; simpl in Hv; try (exfalso; by apply Hv); by apply IH.
Qed.

Lemma decode_field_untouched f members : forall t failed,
  (forall k v, (k, v) ∈ members -> fieldOfKey foldName k = Some f -> v = JNull) ->
  getField f (fold_left (decodeMember foldName) members (t, failed)).1 = getField f t.
Proof.
  induction members as [|[k v] members IH]; intros t failed Hno; simpl; [done|].
  assert (Hrest : forall k v, (k, v) ∈ members -> fieldOfKey foldName k = Some f -> v = JNull)
    by (intros k' v' Hin; apply Hno; by apply list_elem_of_further).
  destruct (fieldOfKey foldName k) as [g|] eqn:Hg; [|by apply IH].
  destruct v; try (by apply IH).
  rewrite IH by done. apply getField_setField_ne.
  intros ->. by specialize (Hno k (JString s) (list_elem_of_here _ _) Hg).
Qed.

End UnmarshalFacts.

(** C6, as the specification states it, at the file [nameOnly]:
    the field set is incomplete, and the file loads without an error, the
    fields that it does not name being empty. *)
Lemma incomplete_theme_file_loads :
  LoadThemeFromFile foldASCII nameOnly = (setField FName "Mine" zeroTheme, None) /\
  getField FBackground (LoadThemeFromFile foldASCII nameOnly).1 = EmptyString.
Proof. split; reflexivity. Qed.

(** C6, amended. [LoadThemeFromFile] fails, and returns the error with the
    zero theme, for a file that cannot be read, for one that is not JSON,
    for a document that is not an object and for an object that gives a
    value other than a string or [null] to a key of the theme. An incomplete
    field set is not an error: an object that gives strings (or [null]) to
    the keys of the theme loads, and nothing is substituted for the fields
    that it does not set, they are empty. *)
Theorem LoadThemeFromFile_errors_and_defaults (foldName : string -> string) :
  LoadThemeFromFile foldName Unreadable = (zeroTheme, Some FailedToRead) /\
  LoadThemeFromFile foldName Malformed = (zeroTheme, Some FailedToParse) /\
  (forall doc,
     match doc with JObject _ | JNull => False | _ => True end ->
     LoadThemeFromFile foldName (Document doc) = (zeroTheme, Some FailedToParse)) /\
  (forall members k v,
     (k, v) ∈ members -> is_Some (fieldOfKey foldName k) -> wrongType v ->
     LoadThemeFromFile foldName (Document (JObject members)) =
       (zeroTheme, Some FailedToParse)) /\
  (forall members,
     (forall k v, (k, v) ∈ members -> is_Some (fieldOfKey foldName k) -> ~ wrongType v) ->
     exists theme,
       LoadThemeFromFile foldName (Document (JObject members)) = (theme, None) /\
       forall f,
         (forall k v, (k, v) ∈ members -> fieldOfKey foldName k = Some f -> v = JNull) ->
         getField f theme = EmptyString).
Proof.
  split; [reflexivity|]. split; [reflexivity|]. split; [|split].
  - intros doc Hdoc. destruct doc; simpl in Hdoc; try done.
  - intros members k v Hin Hkey Hv. unfold LoadThemeFromFile, Unmarshal.
    pose proof (decode_wrong_type foldName members zeroTheme false k v Hin Hkey Hv) as H.
    destruct (fold_left _ _ _) as [t failed]. simpl in H. by rewrite H.
  - intros members Hok. unfold LoadThemeFromFile, Unmarshal.
    pose proof (decode_well_typed foldName members zeroTheme Hok) as H.
    pose proof (fun f => decode_field_untouched foldName f members zeroTheme false) as Hf.
    destruct (fold_left _ _ _) as [t failed]. simpl in H, Hf. rewrite H.
    exists t. split; [done|]. intros f Hno. rewrite Hf by done. by destruct f.
Qed.

Lemma LoadThemeFromFile_errors_and_defaults_witness :
  LoadThemeFromFile foldASCII (Document (JObject [("red", JNumber "255")])) =
    (zeroTheme, Some FailedToParse).
Proof.
  apply (proj1 (proj2 (proj2 (proj2 (LoadThemeFromFile_errors_and_defaults foldASCII))))
           [("red", JNumber "255")] "red" (JNumber "255")).
  - apply list_elem_of_here.
  - vm_compute. eauto.
  - exact I.
Defined.

End ThemeFacts.

(** ** Further properties of the virtual terminal *)

Module AnsiMoreFacts.

Import Ansi AnsiMore GoFacts PlainText CursorFacts.
Local Open Scope Z_scope.

(** *** Rows and flattened output *)

Lemma printable_unbroken row :
  Forall (fun c => printable c = true) row -> unbroken row = true.
Proof.
  unfold unbroken. induction 1 as [|c row Hc Hrow IH]; simpl; [done|].
  rewrite IH, andb_true_r.
  unfold printable in Hc. apply andb_prop in Hc as [Hc _].
  by apply andb_prop in Hc as [_ Hc].
Qed.

Lemma splitLines_row_then_break row b rest :
  unbroken row = true -> Symbol b = LF ->
  splitLines (row ++ b :: rest) = row :: splitLines rest.
Proof.
  intros Hrow Hb. induction row as [|c row IH]; simpl in *.
  - unfold LF in Hb. by rewrite Hb.
  - apply andb_prop in Hrow as [Hc Hrow]. apply negb_true_iff in Hc.
    unfold LF in Hc. rewrite Hc, (IH Hrow). done.
Qed.

Lemma splitLines_single_row row : unbroken row = true -> splitLines row = [row].
Proof.
  intros Hrow. induction row as [|c row IH]; simpl in *; [done|].
  apply andb_prop in Hrow as [Hc Hrow]. apply negb_true_iff in Hc.
  unfold LF in Hc. by rewrite Hc, (IH Hrow).
Qed.

Lemma splitLines_joinLines (rows : list (list ColoredRune)) :
  rows <> [] ->
  Forall (fun row => unbroken row = true) rows ->
  splitLines (joinLines rows) = rows.
Proof.
  intros Hne Hrows. induction Hrows as [|row rows Hrow Hrows IH]; [done|].
  destruct rows as [|next rows].
  - simpl. by apply splitLines_single_row.
  - rewrite joinLines_cons, splitLines_row_then_break by done.
    by rewrite IH.
Qed.

(** The flattened output of [toBuntString] splits back into the rows of the
    grid: the line breaks of the output are the boundaries of the rows, as
    long as there is a row and no row holds a line break itself. *)
Theorem toBuntString_splits_back (vt : VirtualTerminal) :
  lines vt <> [] ->
  Forall (fun row => unbroken row = true) (lines vt) ->
  splitLines (toBuntString vt) = lines vt.
Proof. apply splitLines_joinLines. Qed.

Lemma toBuntString_splits_back_witness :
  splitLines (toBuntString (mkVT [plain "ab"; []; plain "c"] 1 2 0 80)) =
    [plain "ab"; []; plain "c"].
Proof.
  apply (toBuntString_splits_back (mkVT [plain "ab"; []; plain "c"] 1 2 0 80));
    [done|].
  repeat constructor.
Defined.

(** *** What Parse leaves in the grid *)

Lemma printable_blank : printable blank = true.
Proof. reflexivity. Qed.

Lemma index_Forall {A} (P : A -> Prop) (l : list A) (i : Z) (x : A) :
  Forall P l -> index l i = Ok x -> P x.
Proof.
  intros Hl. unfold index. destruct (0 <=? i); [|done].
  destruct (l !! Z.to_nat i) as [y|] eqn:Hy; [|done].
  intros [= <-]. by eapply Forall_lookup_1.
Qed.

Lemma store_Forall {A} (P : A -> Prop) (l l' : list A) (i : Z) (x : A) :
  Forall P l -> P x -> store l i x = Ok l' -> Forall P l'.
Proof.
  intros Hl Hx. unfold store. destruct (_ && _)%bool; [|done].
  intros [= <-]. by apply Forall_insert.
Qed.

Lemma store_nonempty {A} (l l' : list A) (i : Z) (x : A) :
  store l i x = Ok l' -> l' <> [].
Proof.
  intros H. pose proof (store_len _ _ _ _ H) as Hlen.
  unfold store in H. destruct (Z.leb_spec 0 i); [|done].
  destruct (Z.ltb_spec i (len l)); [|done].
  intros ->. unfold len in *. simpl in *. lia.
Qed.

Lemma sliceTo_Forall {A} (P : A -> Prop) (l l' : list A) (n : Z) :
  Forall P l -> sliceTo l n = Ok l' -> Forall P l'.
Proof.
  intros Hl. unfold sliceTo. destruct (_ && _)%bool; [|done].
  intros [= <-]. by apply Forall_take.
Qed.

Lemma growTo_Forall {A} (P : A -> Prop) (bound : Z) (x : A) (l : list A) :
  Forall P l -> P x -> Forall P (growTo bound x l).
Proof.
  intros Hl Hx. unfold growTo. apply Forall_app. split; [done|].
  by apply Forall_replicate.
Qed.

Lemma growTo_nonempty {A} (bound : Z) (x : A) (l : list A) :
  l <> [] -> growTo bound x l <> [].
Proof. unfold growTo. by destruct l. Qed.

Lemma wrap64_succ_nonzero y : 0 <= y <= maxInt -> wrap64 (y + 1) <> 0.
Proof.
  intros Hy. destruct (Z.eq_dec y maxInt) as [->|Hne]; [by vm_compute|].
  rewrite wrap64_id; unfold minInt, maxInt in *; lia.
Qed.

Lemma ensureLineExists_text line vt :
  gridOfText vt -> gridOfText (ensureLineExists line vt).
Proof.
  intros (Hne & Hrows & Hy). split; [|split]; simpl.
  - by apply growTo_nonempty.
  - apply growTo_Forall; [done | constructor].
  - done.
Qed.

Lemma withCursorX_text x vt : gridOfText vt -> gridOfText (withCursorX x vt).
Proof. done. Qed.

Lemma withCursorY_text y vt :
  minInt <= y <= maxInt -> gridOfText vt -> gridOfText (withCursorY y vt).
Proof. intros Hy (Hne & Hrows & _). done. Qed.

Lemma clampZero_int z : minInt <= z <= maxInt -> minInt <= clampZero z <= maxInt.
Proof. unfold clampZero, minInt, maxInt. destruct (Z.ltb_spec z 0); lia. Qed.

Lemma clearToEndOfLine_text vt vt' :
  gridOfText vt -> clearToEndOfLine vt = Ok vt' ->
  gridOfText vt' /\ cursorY vt' = cursorY vt /\
  len (lines vt') = len (lines vt) /\
  (cursorY vt < len (lines vt) -> 0 <= cursorY vt).
Proof.
  intros (Hne & Hrows & Hy). unfold clearToEndOfLine.
  destruct (Z.ltb_spec (cursorY vt) (len (lines vt))) as [Hin|Hout];
    [|intros [= <-]; repeat split; done || lia].
  intros Hop. apply bind_Ok in Hop as (row & Hrow & Hop).
  assert (0 <= cursorY vt).
  { unfold index in Hrow. by destruct (Z.leb_spec 0 (cursorY vt)). }
  destruct (cursorX vt <? len row); [|injection Hop as <-; done].
  apply bind_Ok in Hop as (row' & Hrow' & Hop).
  apply bind_Ok in Hop as (ls & Hls & Hop). injection Hop as <-. simpl.
  split; [|split; [done|split; [by eapply store_len|done]]].
  split; [by eapply store_nonempty|]. split; [|done].
  eapply store_Forall; [done | | done].
  eapply sliceTo_Forall; [|done]. by eapply index_Forall.
Qed.

Lemma clearToBeginningOfLine_text vt vt' :
  gridOfText vt -> clearToBeginningOfLine vt = Ok vt' -> gridOfText vt'.
Proof.
  intros (Hne & Hrows & Hy). unfold clearToBeginningOfLine.
  destruct (cursorY vt <? len (lines vt)); [|by intros [= <-]].
  destruct (0 <=? cursorX vt); [|by intros [= <-]].
  intros Hop. apply bind_Ok in Hop as (row & Hrow & Hop).
  apply bind_Ok in Hop as (ls & Hls & Hop). injection Hop as <-. simpl.
  split; [by eapply store_nonempty|]. split; [|done].
  eapply store_Forall; [done | | done].
  apply Forall_app. split.
  - apply Forall_replicate. reflexivity.
  - apply Forall_drop. by eapply index_Forall.
Qed.

Lemma clearLine_text vt vt' :
  gridOfText vt -> clearLine vt = Ok vt' -> gridOfText vt'.
Proof.
  intros (Hne & Hrows & Hy). unfold clearLine.
  destruct (cursorY vt <? len (lines vt)); [|by intros [= <-]].
  intros Hop. apply bind_Ok in Hop as (ls & Hls & Hop). injection Hop as <-. simpl.
  split; [by eapply store_nonempty|]. split; [|done].
  eapply store_Forall; [done | constructor | done].
Qed.

Lemma clearToEndOfScreen_text vt vt' :
  gridOfText vt -> clearToEndOfScreen vt = Ok vt' -> gridOfText vt'.
Proof.
  intros Htext. unfold clearToEndOfScreen. intros Hop.
  apply bind_Ok in Hop as (vt1 & H1 & Hop).
  destruct (clearToEndOfLine_text _ _ Htext H1)
    as ((Hne & Hrows & Hy1) & Hy & Hlen & Hpos).
  destruct (Z.ltb_spec (add (cursorY vt1) 1) (len (lines vt1))) as [Hcut|];
    [|by injection Hop as <-].
  apply bind_Ok in Hop as (ls & Hls & Hop). injection Hop as <-. simpl.
  split; [|split; [by eapply sliceTo_Forall | done]].
  unfold sliceTo in Hls.
  destruct (Z.leb_spec 0 (add (cursorY vt1) 1)); [|done].
  destruct (Z.leb_spec (add (cursorY vt1) 1) (len (lines vt1))); [|done].
  simpl in Hls. injection Hls as <-.
  assert (0 <= cursorY vt1).
  { rewrite Hy. destruct (Z.ltb_spec (cursorY vt) (len (lines vt))); [by apply Hpos|].
    unfold len in *. lia. }
  pose proof (wrap64_succ_nonzero (cursorY vt1) ltac:(lia)) as Hnz.
  unfold add in *.
  destruct (lines vt1) as [|row rows]; [done|].
  destruct (Z.to_nat (wrap64 (cursorY vt1 + 1))) eqn:Hn; [lia|]. done.
Qed.

Lemma clearToBeginningOfScreen_text vt vt' :
  gridOfText vt -> clearToBeginningOfScreen vt = Ok vt' -> gridOfText vt'.
Proof.
  intros (Hne & Hrows & Hy). unfold clearToBeginningOfScreen.
  apply clearToBeginningOfLine_text. split; [|split]; simpl; [| |done].
  - destruct (lines vt) as [|row rows]; [done|].
    destruct (Z.to_nat _); simpl; done.
  - apply Forall_app. split; [|by apply Forall_drop].
    apply Forall_replicate. constructor.
Qed.

Lemma runCommand_text command params vt vt' handled :
  gridOfText vt -> runCommand command params vt = Ok (vt', handled) -> gridOfText vt'.
Proof.
  intros Htext. pose proof Htext as (Hne & Hrows & Hy). unfold runCommand.
  destruct (command =? rune "A").
  { intros [= <- _]. apply withCursorY_text; [|done].
    apply clampZero_int, wrap64_range. }
  destruct (command =? rune "B").
  { intros [= <- _]. apply ensureLineExists_text, withCursorY_text; [|done].
    apply wrap64_range. }
  destruct (command =? rune "C"); [by intros [= <- _]|].
  destruct (command =? rune "D"); [by intros [= <- _]|].
  destruct (command =? rune "G"); [by intros [= <- _]|].
  destruct ((command =? rune "H") || (command =? rune "f"))%bool.
  { intros [= <- _]. apply ensureLineExists_text, withCursorX_text, withCursorY_text;
      [|done]. apply clampZero_int, wrap64_range. }
  destruct (command =? rune "J").
  { destruct (paramOr 0 0 params =? 0).
    { intros Hop. apply bind_Ok in Hop as (vt1 & H1 & [= <- _]).
      by eapply clearToEndOfScreen_text. }
    destruct (paramOr 0 0 params =? 1).
    { intros Hop. apply bind_Ok in Hop as (vt1 & H1 & [= <- _]).
      by eapply clearToBeginningOfScreen_text. }
    destruct ((paramOr 0 0 params =? 2) || (paramOr 0 0 params =? 3))%bool.
    { intros [= <- _]. split; [done|]. split; [by repeat constructor|by vm_compute]. }
    by intros [= <- _]. }
  destruct (command =? rune "K").
  { destruct (paramOr 0 0 params =? 0).
    { intros Hop. apply bind_Ok in Hop as (vt1 & H1 & [= <- _]).
      by destruct (clearToEndOfLine_text _ _ Htext H1). }
    destruct (paramOr 0 0 params =? 1).
    { intros Hop. apply bind_Ok in Hop as (vt1 & H1 & [= <- _]).
      by eapply clearToBeginningOfLine_text. }
    destruct (paramOr 0 0 params =? 2).
    { intros Hop. apply bind_Ok in Hop as (vt1 & H1 & [= <- _]).
      by eapply clearLine_text. }
    by intros [= <- _]. }
  destruct (command =? rune "s"); [by intros [= <- _]|].
  destruct (command =? rune "u"); by intros [= <- _].
Qed.

Lemma handleCSI_text parsed vt i vt' consumed handled :
  gridOfText vt -> handleCSI vt parsed i = Ok (vt', consumed, handled) -> gridOfText vt'.
Proof.
  intros Htext. unfold handleCSI.
  destruct (length parsed <=? i + 2)%nat; [by intros [= <- _ _]|].
  destruct (scanParams _ _ _ _) as [j params].
  destruct (parsed !! j) as [c|]; [|by intros [= <- _ _]].
  destruct (runCommand (Symbol c) params vt) as [[vt1 h]|] eqn:Hrun; [|done].
  pose proof (runCommand_text _ _ _ _ _ Htext Hrun).
  destruct h; by intros [= <- _ _].
Qed.

Lemma putRune_text cr vt vt' :
  gridOfText vt -> printable cr = true -> putRune cr vt = Ok vt' -> gridOfText vt'.
Proof.
  intros Htext Hcr Hput. unfold putRune in Hput. cbv zeta in Hput.
  pose proof (ensureLineExists_text (cursorY vt) vt Htext) as (Hne0 & Hrows0 & Hy0).
  apply bind_Ok in Hput as (row & Hrow & Hput).
  apply bind_Ok in Hput as (ls & Hls & Hput).
  assert (Hls_rows : printableRows ls).
  { eapply store_Forall; [exact Hrows0 | | exact Hls].
    apply growTo_Forall; [by eapply index_Forall | reflexivity]. }
  apply bind_Ok in Hput as (row1 & Hrow1 & Hput).
  apply bind_Ok in Hput as (row1' & Hrow1' & Hput).
  apply bind_Ok in Hput as (ls1 & Hls1 & Hput). injection Hput as <-.
  simpl in *.
  split; [by eapply store_nonempty|]. split.
  - destruct (maxColumns vt <=? cursorX vt); simpl in *.
    + assert (Hgrown : printableRows (growTo (add (cursorY vt) 1) [] ls))
        by (apply growTo_Forall; [done | constructor]).
      eapply store_Forall; [exact Hgrown | | exact Hls1].
      eapply store_Forall; [by eapply index_Forall | done | exact Hrow1'].
    + eapply store_Forall; [exact Hls_rows | | exact Hls1].
      eapply store_Forall; [by eapply index_Forall | done | exact Hrow1'].
  - destruct (maxColumns vt <=? cursorX vt); simpl; [apply wrap64_range | done].
Qed.

(** Every iteration of the loop of [Parse] keeps the grid a grid of text. *)
Lemma parseStep_text parsed vt i vt' i' :
  gridOfText vt -> parseStep parsed vt i = Ok (vt', i') -> gridOfText vt'.
Proof.
  intros Htext. pose proof Htext as (Hne & Hrows & Hy). unfold parseStep.
  destruct (parsed !! i) as [cr|]; [|done].
  destruct (Symbol cr =? ESC) eqn:Hesc.
  { destruct (parsed !! S i) as [next|]; [|by intros [= <- _]].
    destruct (Symbol next =? rune "["); [|by intros [= <- _]].
    destruct (handleCSI vt parsed i) as [[[vt1 consumed] handled]|] eqn:Hcsi; [|done].
    pose proof (handleCSI_text _ _ _ _ _ _ Htext Hcsi).
    destruct handled; by intros [= <- _]. }
  destruct (Symbol cr =? CR) eqn:Hcr; [by intros [= <- _]|].
  destruct (Symbol cr =? LF) eqn:Hlf.
  { intros [= <- _]. apply ensureLineExists_text, withCursorX_text, withCursorY_text;
      [|done]. apply wrap64_range. }
  destruct (Symbol cr =? BS) eqn:Hbs.
  { intros [= <- _]. by destruct (0 <? cursorX vt). }
  destruct (putRune cr vt) as [vt1|] eqn:Hput; [|done].
  intros [= <- _]. eapply putRune_text; [done | | done].
  unfold printable. by rewrite Hesc, Hcr, Hlf, Hbs.
Qed.

(** A property that every iteration keeps holds when the loop ends. *)
Lemma parseLoop_invariant (P : VirtualTerminal -> Prop) parsed :
  (forall vt i vt' i', P vt -> parseStep parsed vt i = Ok (vt', i') -> P vt') ->
  forall fuel vt i vt', P vt -> parseLoop fuel parsed vt i = Some (Ok vt') -> P vt'.
Proof.
  intros Hstep. induction fuel as [|fuel IH]; intros vt i vt' HP; simpl.
  - destruct (length parsed <=? i)%nat; [by intros [= <-] | done].
  - destruct (length parsed <=? i)%nat; [by intros [= <-]|].
    destruct (parseStep parsed vt i) as [[vt1 i1]|] eqn:Hs; [|done].
    apply IH. by eapply Hstep.
Qed.

Lemma joinLines_noCursorControl rows :
  printableRows rows -> noCursorControl (joinLines rows) = true.
Proof.
  assert (Hrow : forall row, Forall (fun c => printable c = true) row ->
                   noCursorControl row = true).
  { induction 1 as [|c row Hc Hrow IH]; simpl; [done|]. rewrite IH, andb_true_r.
    unfold printable in Hc.
    apply andb_prop in Hc as [Hc Hbs]. apply andb_prop in Hc as [Hc _].
    apply andb_prop in Hc as [Hesc Hcr]. by rewrite Hesc, Hcr, Hbs. }
  induction 1 as [|row rows Hr Hrows IH]; [done|].
  destruct rows as [|next rows]; [by apply Hrow|].
  rewrite joinLines_cons. unfold noCursorControl in *.
  rewrite forallb_app. rewrite (Hrow row Hr). simpl. exact IH.
Qed.

(** Whatever the input is, the output of [Parse] holds no escape, carriage
    return or backspace, and its line breaks are the boundaries of the rows
    of the grid: it splits back into the grid that the loop ended with. *)
Theorem parse_output_is_text (maxColumns : Z) (parsed out : list ColoredRune) :
  interpret maxColumns parsed = Some (Ok out) ->
  noCursorControl out = true /\
  exists vt', parseLoop (length parsed) parsed (NewVirtualTerminal maxColumns) 0
                = Some (Ok vt') /\
              splitLines out = lines vt'.
Proof.
  unfold interpret, Parse, ParseWith. intros Hparse.
  destruct (parseLoop _ _ _ _) as [[vt'|]|] eqn:Hloop; simpl in Hparse; try done.
  injection Hparse as <-.
  assert (Htext : gridOfText vt').
  { eapply (parseLoop_invariant gridOfText); [apply parseStep_text | | exact Hloop].
    split; [done|]. split; [by repeat constructor|by vm_compute]. }
  destruct Htext as (Hne & Hrows & _).
  split; [by apply joinLines_noCursorControl|].
  exists vt'. split; [done|]. unfold toBuntString.
  apply splitLines_joinLines; [done|].
  eapply Forall_impl; [exact Hrows|]. apply printable_unbroken.
Qed.

Lemma parse_output_is_text_witness :
  noCursorControl (plain "cb") = true /\
  exists vt', parseLoop (length overwritten) overwritten (NewVirtualTerminal 80) 0
                = Some (Ok vt') /\
              splitLines (plain "cb") = lines vt'.
Proof.
  apply (parse_output_is_text 80 overwritten (plain "cb")).
  vm_compute. reflexivity.
Defined.

(** *** Text that is too wide *)

(** On ordinary characters, [Parse] fails exactly when a line of the input
    is longer than the terminal is wide. *)
Theorem parse_fails_exactly_when_too_wide (maxColumns : Z) (parsed : list ColoredRune) :
  0 < maxColumns <= maxInt ->
  len parsed < maxInt ->
  forallb ordinary parsed = true ->
  interpret maxColumns parsed = Some Panic <-> fits maxColumns 0 parsed = false.
Proof.
  intros Hm Hlen Hord.
  unfold interpret, Parse, ParseWith, NewVirtualTerminal.
  destruct (Z.leb_spec maxColumns 0); [lia|].
  destruct (parseLoop_plain parsed maxColumns Hm Hlen Hord
              (length parsed) 0%nat (mkVT [[]] 0 0 0 maxColumns)) as [Hok Hpanic];
    [lia | constructor; simpl; done || lia |].
  rewrite drop_0 in Hok, Hpanic. simpl in Hok, Hpanic.
  destruct (fits maxColumns 0 parsed).
  - destruct Hok as (vt' & -> & _); [done|]. simpl. split; done.
  - rewrite Hpanic by done. done.
Qed.

Lemma parse_fails_exactly_when_too_wide_witness :
  interpret 5 (plain "abcdef") = Some Panic <-> fits 5 0 (plain "abcdef") = false.
Proof.
  apply (parse_fails_exactly_when_too_wide 5 (plain "abcdef"));
    [unfold maxInt; lia | unfold maxInt, len; simpl; lia | reflexivity].
Defined.

(** *** Control sequences *)

Lemma runCommand_unknown command params vt :
  knownCommand command = false -> runCommand command params vt = Ok (vt, false).
Proof.
  unfold knownCommand. cbn [existsb]. intros Hk.
  repeat (apply orb_false_elim in Hk as [? Hk]).
  unfold runCommand.
  repeat match goal with
  | H : (command =? ?r) = false |- _ => rewrite H; clear H
  end.
  done.
Qed.

(** A control sequence whose command letter is none of those of [handleCSI]
    changes nothing, and the loop of [Parse] steps over the escape character
    alone: the rest of the sequence is read as text after it. *)
Theorem unknown_command_is_skipped parsed vt (i : nat) e c :
  parsed !! i = Some e -> Symbol e = ESC ->
  csiCommand parsed i = Some c -> knownCommand (Symbol c) = false ->
  parseStep parsed vt i = Ok (vt, S i).
Proof.
  intros He Hesc Hc Hunknown. unfold parseStep. rewrite He, Hesc. simpl.
  destruct (parsed !! S i) as [next|]; [|done].
  destruct (Symbol next =? rune "["); [|done].
  unfold handleCSI. destruct (length parsed <=? i + 2)%nat; [done|].
  unfold csiCommand in Hc.
  destruct (scanParams _ _ _ _) as [j params]. simpl in Hc. rewrite Hc.
  by rewrite runCommand_unknown.
Qed.

Lemma unknown_command_is_skipped_witness :
  parseStep (csi "5n") (NewVirtualTerminal 80) 0 = Ok (NewVirtualTerminal 80, 1%nat).
Proof.
  apply (unknown_command_is_skipped (csi "5n") (NewVirtualTerminal 80) 0%nat
           (plainRune ESC) (plainRune (rune "n"))); reflexivity.
Defined.

(** Cursor position ([H] or [f]) is absolute: the same command a second time
    changes nothing, whatever the terminal was before the first. *)
Theorem cursor_position_is_idempotent command params vt :
  (command =? rune "H") || (command =? rune "f") = true ->
  exists vt1,
    runCommand command params vt = Ok (vt1, true) /\
    runCommand command params vt1 = Ok (vt1, true) /\
    cursorOnGrid vt1.
Proof.
  intros Hcmd.
  assert (Hrun : forall vt0, runCommand command params vt0 =
            Ok (ensureLineExists (clampZero (sub (paramOr 1 0 params) 1))
                  (withCursorX (clampZero (sub (paramOr 1 1 params) 1))
                     (withCursorY (clampZero (sub (paramOr 1 0 params) 1)) vt0)), true)).
  { intros vt0. unfold runCommand. apply orb_prop in Hcmd as [Hc|Hc];
      apply Z.eqb_eq in Hc; subst command; reflexivity. }
  eexists. split; [apply Hrun|]. split.
  - rewrite Hrun. unfold ensureLineExists, withLines, withCursorX, withCursorY. simpl.
    rewrite (growTo_enough _ _ (growTo _ _ _)); [done|].
    rewrite len_growTo. lia.
  - unfold cursorOnGrid, ensureLineExists. simpl. rewrite len_growTo.
    pose proof (clampZero_nonneg (sub (paramOr 1 0 params) 1)).
    pose proof (clampZero_nonneg (sub (paramOr 1 1 params) 1)). lia.
Qed.

Lemma cursor_position_is_idempotent_witness :
  exists vt1,
    runCommand (rune "H") [3; 5] afterAbcdef = Ok (vt1, true) /\
    runCommand (rune "H") [3; 5] vt1 = Ok (vt1, true) /\
    cursorOnGrid vt1.
Proof.
  apply (cursor_position_is_idempotent (rune "H") [3; 5] afterAbcdef). reflexivity.
Defined.

(** Cursor forward and cursor back undo each other, as long as the column
    stays within the range of [int]. *)
Theorem cursor_forward_then_back vt n :
  0 <= cursorX vt -> 0 < n -> cursorX vt + n <= maxInt ->
  exists vt1,
    runCommand (rune "C") [n] vt = Ok (vt1, true) /\
    cursorX vt1 = cursorX vt + n /\
    runCommand (rune "D") [n] vt1 = Ok (vt, true).
Proof.
  intros Hx Hn Hmax. eexists. split; [reflexivity|]. simpl.
  destruct (Z.ltb_spec 0 n); [|lia].
  unfold add, sub. rewrite !wrap64_id by (unfold minInt, maxInt in *; lia).
  split; [done|].
  unfold runCommand. simpl. destruct (Z.ltb_spec 0 n); [|lia].
  unfold sub. simpl. rewrite wrap64_id by (unfold minInt, maxInt in *; lia).
  unfold clampZero. destruct (Z.ltb_spec (cursorX vt + n - n) 0); [lia|].
  replace (cursorX vt + n - n) with (cursorX vt) by lia. by destruct vt.
Qed.

Lemma cursor_forward_then_back_witness :
  exists vt1,
    runCommand (rune "C") [4] afterAbcdef = Ok (vt1, true) /\
    cursorX vt1 = cursorX afterAbcdef + 4 /\
    runCommand (rune "D") [4] vt1 = Ok (afterAbcdef, true).
Proof.
  apply (cursor_forward_then_back afterAbcdef 4); [simpl; lia | lia | unfold maxInt; simpl; lia].
Defined.

(** *** Erase in display *)

Lemma take_succ_insert {A} (l : list A) (n : nat) (x : A) :
  (n < length l)%nat -> take (S n) (<[n := x]> l) = take n l ++ [x].
Proof.
  intros Hn. rewrite (take_S_r _ _ x) by (by apply list_lookup_insert_eq).
  by rewrite take_insert_ge.
Qed.

(** Erase in display, mode 0 (also the default): what is left of the grid is
    the rows above the cursor and the row of the cursor up to the cursor;
    the cursor stays where it is. *)
Theorem erase_display_to_end vt row params :
  cursorOnGrid vt -> len (lines vt) <= maxInt ->
  lines vt !! Z.to_nat (cursorY vt) = Some row ->
  paramOr 0 0 params = 0 ->
  runCommand (rune "J") params vt =
    Ok (withLines (take (Z.to_nat (cursorY vt)) (lines vt) ++
                   [take (Z.to_nat (cursorX vt)) row]) vt, true).
Proof.
  intros [Hx Hy] Hmax Hrow Hmode.
  assert (Hcmd : runCommand (rune "J") params vt =
            (vt' ← clearToEndOfScreen vt; Ok (vt', true))).
  { unfold runCommand. simpl. by rewrite Hmode. }
  rewrite Hcmd. clear Hcmd.
  assert (Hlt : (Z.to_nat (cursorY vt) < length (lines vt))%nat)
    by (by eapply lookup_lt_Some).
  assert (Hline : clearToEndOfLine vt =
            Ok (withLines (<[Z.to_nat (cursorY vt) := take (Z.to_nat (cursorX vt)) row]>
                             (lines vt)) vt)).
  { unfold clearToEndOfLine.
    destruct (Z.ltb_spec (cursorY vt) (len (lines vt))); [|lia].
    rewrite (index_ok _ _ row) by (lia || done). simpl.
    destruct (Z.ltb_spec (cursorX vt) (len row)) as [Hin|Hout].
    - rewrite sliceTo_ok by lia. simpl. by rewrite store_ok by lia.
    - rewrite take_ge by (unfold len in Hout; lia).
      rewrite list_insert_id by done. by destruct vt. }
  unfold clearToEndOfScreen. rewrite Hline. simpl.
  unfold add. rewrite wrap64_id by (unfold minInt, maxInt in *; lia).
  rewrite len_insert.
  assert (Htake : take (Z.to_nat (cursorY vt + 1))
            (<[Z.to_nat (cursorY vt) := take (Z.to_nat (cursorX vt)) row]> (lines vt)) =
          take (Z.to_nat (cursorY vt)) (lines vt) ++ [take (Z.to_nat (cursorX vt)) row]).
  { replace (Z.to_nat (cursorY vt + 1)) with (S (Z.to_nat (cursorY vt))) by lia.
    by apply take_succ_insert. }
  destruct (Z.ltb_spec (cursorY vt + 1) (len (lines vt))) as [Hcut|Hlast].
  - rewrite sliceTo_ok by (rewrite len_insert; lia). simpl. by rewrite Htake.
  - simpl. rewrite <- Htake. rewrite (take_ge (<[_ := _]> (lines vt))); [done|].
    rewrite length_insert. unfold len in *. lia.
Qed.

Lemma erase_display_to_end_witness :
  runCommand (rune "J") [] (mkVT [plain "ab"; plain "cdef"; plain "gh"] 2 1 0 80) =
    Ok (mkVT [plain "ab"; plain "cd"] 2 1 0 80, true).
Proof.
  apply (erase_display_to_end (mkVT [plain "ab"; plain "cdef"; plain "gh"] 2 1 0 80)
           (plain "cdef") []);
    [split; simpl; unfold len; simpl; lia | unfold len, maxInt; simpl; lia
    | reflexivity | reflexivity].
Defined.

(** Erase in display, mode 1: the rows above the cursor are emptied but
    stay, the row of the cursor is blanked up to and including the cursor,
    and the rows below are untouched. *)
Theorem erase_display_to_beginning vt row params :
  cursorOnGrid vt ->
  lines vt !! Z.to_nat (cursorY vt) = Some row ->
  paramOr 0 0 params = 1 ->
  let k := Z.to_nat (Z.min (cursorX vt + 1) (len row)) in
  runCommand (rune "J") params vt =
    Ok (withLines (replicate (Z.to_nat (cursorY vt)) [] ++
                   (replicate k blank ++ drop k row) ::
                   drop (S (Z.to_nat (cursorY vt))) (lines vt)) vt, true).
Proof.
  intros [Hx Hy] Hrow Hmode k.
  assert (Hcmd : runCommand (rune "J") params vt =
            (vt' ← clearToBeginningOfScreen vt; Ok (vt', true))).
  { unfold runCommand. simpl. by rewrite Hmode. }
  rewrite Hcmd. clear Hcmd.
  assert (Hlt : (Z.to_nat (cursorY vt) < length (lines vt))%nat)
    by (by eapply lookup_lt_Some).
  unfold clearToBeginningOfScreen.
  replace (Z.to_nat (Z.min (cursorY vt) (len (lines vt)))) with (Z.to_nat (cursorY vt))
    by lia.
  set (y := Z.to_nat (cursorY vt)) in *.
  assert (Hdrop : drop y (lines vt) = row :: drop (S y) (lines vt))
    by (by apply drop_S).
  unfold clearToBeginningOfLine. simpl.
  assert (Hlen : len (replicate y ([] : list ColoredRune) ++ drop y (lines vt)) =
                 len (lines vt)).
  { unfold len. rewrite length_app, length_replicate, length_drop. lia. }
  rewrite Hlen.
  destruct (Z.ltb_spec (cursorY vt) (len (lines vt))); [|lia].
  destruct (Z.leb_spec 0 (cursorX vt)); [|lia].
  rewrite (index_ok _ _ row); [|lia|].
  2:{ fold y. rewrite lookup_app_r by (rewrite length_replicate; lia).
      rewrite length_replicate, Nat.sub_diag, Hdrop. done. }
  simpl. rewrite store_ok by lia. simpl. fold y. fold k.
  rewrite insert_app_r_alt by (rewrite length_replicate; lia).
  rewrite length_replicate, Nat.sub_diag, Hdrop. done.
Qed.

Lemma erase_display_to_beginning_witness :
  runCommand (rune "J") [1] (mkVT [plain "ab"; plain "cdef"; plain "gh"] 1 1 0 80) =
    Ok (mkVT [[]; plain "  ef"; plain "gh"] 1 1 0 80, true).
Proof.
  apply (erase_display_to_beginning
           (mkVT [plain "ab"; plain "cdef"; plain "gh"] 1 1 0 80) (plain "cdef") [1]);
    [split; simpl; unfold len; simpl; lia | reflexivity | reflexivity].
Defined.

End AnsiMoreFacts.

(** ** Further properties of the lexer *)

Module HighlightMoreFacts.

Import Highlight HighlightMore HighlightFacts.

Lemma span_forallb p rest : forallb p (take (span p rest) rest) = true.
Proof.
  induction rest as [|ch rest IH]; simpl; [done|].
  destruct (p ch) eqn:Hp; simpl; [by rewrite Hp, IH | done].
Qed.

Lemma span_all p rest : forallb p rest = true -> span p rest = length rest.
Proof.
  induction rest as [|ch rest IH]; simpl; [done|].
  intros H. apply andb_prop in H as [-> H]. by rewrite IH.
Qed.

Lemma substr_span p (s : list ascii) start :
  substr s start (start + span p (drop start s)) = take (span p (drop start s)) (drop start s).
Proof. unfold substr. f_equal. lia. Qed.

Lemma substr_cons (s : list ascii) start stop ch :
  s !! start = Some ch -> start < stop ->
  substr s start stop = ch :: substr s (S start) stop.
Proof.
  intros Hch Hlt. unfold substr. rewrite (drop_S _ _ _ Hch).
  replace (stop - start) with (S (stop - S start)) by lia. done.
Qed.

Lemma substr_length (s : list ascii) start stop : length (substr s start stop) <= stop - start.
Proof. unfold substr. rewrite length_take. lia. Qed.

Lemma setLastType_addToken t t0 v l :
  setLastType t (addToken t0 v l) = addToken t v l.
Proof.
  unfold setLastType, addToken. simpl. rewrite reverse_snoc. simpl.
  by rewrite reverse_involutive.
Qed.

(** A byte that starts a word is a byte that [tokenizeWord] steps over,
    unless it is white space. *)
Lemma wordStart_wordChar ch : wordStart ch = true -> isSpace ch = false -> wordChar ch = true.
Proof. destruct ch as [[] [] [] [] [] [] [] []]; vm_compute; congruence. Qed.

(** No earlier branch of [Tokenize] takes a byte that starts a word. *)
Lemma wordStart_reaches_word ch :
  wordStart ch = true -> isSpace ch = false ->
  Ascii.eqb ch "#" = false /\ isQuote ch = false /\ Ascii.eqb ch "$" = false /\
  containsRune operatorChars ch = false /\ Ascii.eqb ch "-" = false.
Proof. destruct ch as [[] [] [] [] [] [] [] []]; vm_compute; intuition congruence. Qed.

Lemma tokenizeLoop_done decodeRunes unicodeIsDigit fuel l isFirstWord :
  input l !! pos l = None ->
  tokenizeLoop decodeRunes unicodeIsDigit fuel l isFirstWord = Some l.
Proof. intros H. destruct fuel; simpl; by rewrite H. Qed.

Lemma tokenizeLoop_step decodeRunes unicodeIsDigit fuel l isFirstWord ch :
  input l !! pos l = Some ch ->
  tokenizeLoop decodeRunes unicodeIsDigit (S fuel) l isFirstWord =
    tokenizeLoop decodeRunes unicodeIsDigit fuel
      (tokenizeStep decodeRunes unicodeIsDigit ch l isFirstWord).1
      (tokenizeStep decodeRunes unicodeIsDigit ch l isFirstWord).2.
Proof.
  intros H. simpl. rewrite H.
  by destruct (tokenizeStep decodeRunes unicodeIsDigit ch l isFirstWord).
Qed.

Section LexerMoreFacts.

Variable decodeRunes : list ascii -> list Z.
Variable unicodeIsDigit : Z -> bool.

(** A property that every iteration keeps holds when the loop ends. *)
Lemma tokenizeLoop_invariant (P : Lexer -> Prop) :
  (forall ch l isFirstWord, input l !! pos l = Some ch -> P l ->
     P (tokenizeStep decodeRunes unicodeIsDigit ch l isFirstWord).1) ->
  forall fuel l isFirstWord l',
    P l -> tokenizeLoop decodeRunes unicodeIsDigit fuel l isFirstWord = Some l' -> P l'.
Proof.
  intros Hstep. induction fuel as [|fuel IH]; intros l isFirstWord l' HP; simpl.
  - destruct (input l !! pos l); [done | by intros [= <-]].
  - destruct (input l !! pos l) as [ch|] eqn:Hch; [|by intros [= <-]].
    pose proof (Hstep ch l isFirstWord Hch HP) as HP'.
    destruct (tokenizeStep decodeRunes unicodeIsDigit ch l isFirstWord) as [l1 first1].
    by apply IH.
Qed.

Lemma stringOfByte_nonempty ch : stringOfByte ch <> [].
Proof. unfold stringOfByte. by destruct (_ <? _)%N. Qed.

Lemma tokenizeStep_piecewise ch l isFirstWord :
  input l !! pos l = Some ch -> piecewise l ->
  piecewise (tokenizeStep decodeRunes unicodeIsDigit ch l isFirstWord).1.
Proof.
  intros Hch [Hne Hcount].
  destruct (tokenizeStep_stepsTo decodeRunes unicodeIsDigit ch l isFirstWord Hch)
    as (Hin & Hpos & t & v & Htok & Hv).
  split.
  - rewrite Htok. apply Forall_app. split; [done|]. constructor; [|done]. simpl.
    destruct Hv as [-> | [-> _]]; [|apply stringOfByte_nonempty].
    rewrite (substr_cons _ _ _ ch) by (done || lia). done.
  - rewrite Htok, Hin, length_app. simpl. lia.
Qed.

(** [Tokenize] returns for every command, whatever its bytes are; no token
    that it returns is empty, and there are no more tokens than bytes. *)
Theorem Tokenize_tokens_nonempty (command : list ascii) :
  exists toks,
    Tokenize decodeRunes unicodeIsDigit command = Some toks /\
    Forall (fun t => Value t <> []) toks /\
    length toks <= length command.
Proof.
  unfold Tokenize.
  destruct (tokenizeLoop_terminates decodeRunes unicodeIsDigit
              (length command) (NewLexer command) true) as [l' Hloop]; [simpl; lia|].
  rewrite Hloop. simpl. exists (tokens l'). split; [done|].
  assert (Hl' : piecewise l' /\ input l' = command).
  { apply (tokenizeLoop_invariant (fun l => piecewise l /\ input l = command))
      with (length command) (NewLexer command) true; [| |done].
    - intros ch l first Hch [Hp Hin]. split; [by apply tokenizeStep_piecewise|].
      destruct (tokenizeStep_stepsTo decodeRunes unicodeIsDigit ch l first Hch) as [-> _].
      done.
    - split; [|done]. split; [constructor | simpl; lia]. }
  destruct Hl' as [[Hne Hcount] Hin]. split; [done|]. rewrite <- Hin. lia.
Qed.

(** One iteration adds one token whose type fits its text. *)
Lemma tokenizeStep_fits ch l isFirstWord :
  input l !! pos l = Some ch ->
  exists tok,
    tokens (tokenizeStep decodeRunes unicodeIsDigit ch l isFirstWord).1 = tokens l ++ [tok] /\
    typeFitsText decodeRunes unicodeIsDigit tok = true.
Proof.
  intros Hch. pose proof (lookup_lt_Some _ _ _ Hch) as Hlt.
  assert (Hdefault : exists tok,
            tokens (withPos (S (pos l)) (addToken TokenDefault (stringOfByte ch) l)) =
              tokens l ++ [tok] /\
            typeFitsText decodeRunes unicodeIsDigit tok = true).
  { eexists. split; [reflexivity|]. unfold typeFitsText. simpl.
    pose proof (stringOfByte_nonempty ch). by rewrite bool_decide_false. }
  unfold tokenizeStep.
  destruct (isSpace ch) eqn:Hsp; [done|].
  destruct (Ascii.eqb ch "#") eqn:Hhash.
  { eexists. split; [reflexivity|]. unfold typeFitsText. cbn [Typ Value].
    rewrite substr_span. apply andb_true_intro. split; [|apply span_forallb].
    rewrite (drop_S _ _ _ Hch). cbn [span]. apply Ascii.eqb_eq in Hhash. by subst ch. }
  destruct (Ascii.eqb ch dquote || Ascii.eqb ch "'" || Ascii.eqb ch "`") eqn:Hq.
  { eexists. split; [reflexivity|]. unfold typeFitsText. cbn [Typ Value].
    rewrite (substr_cons _ _ _ ch) by (done || lia). done. }
  destruct (Ascii.eqb ch "$") eqn:Hd.
  { pose proof (tokenizeVariable_stepsTo ch l Hch) as (_ & Hpos & _).
    unfold tokenizeVariable in *. cbn [pos withPos addToken] in Hpos.
    eexists. split; [reflexivity|]. unfold typeFitsText. cbn [Typ Value].
    rewrite (substr_cons _ _ _ ch) by (done || lia).
    apply Ascii.eqb_eq in Hd. by subst ch. }
  destruct (containsRune operatorChars ch) eqn:Hop.
  { eexists. split; [reflexivity|]. unfold typeFitsText. cbn [Typ Value].
    apply andb_true_intro. split.
    - rewrite (substr_cons _ _ _ ch); [done | done |].
      destruct (input l !! S (pos l)) as [next|]; [destruct (twoCharOperator ch next)|]; lia.
    - apply Nat.leb_le. etrans; [apply substr_length|].
      destruct (input l !! S (pos l)) as [next|]; [destruct (twoCharOperator ch next)|]; lia. }
  destruct (Ascii.eqb ch "-" && _) eqn:Hflag.
  { pose proof (tokenizeFlag_stepsTo ch l Hch) as (_ & Hpos & _).
    unfold tokenizeFlag in *. cbn [pos withPos addToken] in Hpos.
    eexists. split; [reflexivity|]. unfold typeFitsText. cbn [Typ Value].
    rewrite (substr_cons _ _ _ ch) by (done || lia).
    apply andb_prop in Hflag as [Hdash _]. apply Ascii.eqb_eq in Hdash. by subst ch. }
  destruct (isLetter ch || isDigit ch || Ascii.eqb ch "." || Ascii.eqb ch "/" ||
            Ascii.eqb ch "_" || Ascii.eqb ch "~") eqn:Hword; [|done].
  unfold tokenizeWord. rewrite substr_span.
  set (word := take _ (drop (pos l) (input l))).
  assert (Hstart : startsWith wordStart word = true).
  { subst word. rewrite (drop_S _ _ _ Hch). cbn [span].
    fold (wordChar ch). rewrite (wordStart_wordChar ch Hword Hsp). done. }
  assert (Hchars : forallb wordChar word = true) by apply span_forallb.
  destruct isFirstWord.
  { rewrite setLastType_addToken. eexists. split; [reflexivity|].
    unfold typeFitsText. destruct (isKeyword word) eqn:Hkw; cbn [Typ Value];
      by rewrite Hstart, Hchars, Hkw. }
  destruct (isKeyword word) eqn:Hkw.
  { rewrite setLastType_addToken. eexists. split; [reflexivity|].
    unfold typeFitsText. cbn [Typ Value]. by rewrite Hstart, Hchars, Hkw. }
  destruct (isPath word) eqn:Hpath.
  { rewrite setLastType_addToken. eexists. split; [reflexivity|].
    unfold typeFitsText. cbn [Typ Value]. by rewrite Hstart, Hchars, Hkw, Hpath. }
  destruct (isNumber decodeRunes unicodeIsDigit word) eqn:Hnum.
  { rewrite setLastType_addToken. eexists. split; [reflexivity|].
    unfold typeFitsText. cbn [Typ Value]. by rewrite Hstart, Hchars, Hkw, Hpath, Hnum. }
  eexists. split; [reflexivity|]. unfold typeFitsText. cbn [Typ Value fst].
  destruct word; [done|]. by rewrite bool_decide_false.
Qed.

(** The type of every token that [Tokenize] returns fits its text: a comment
    starts with [#] and holds no line break, a string starts with a quote, a
    variable with [$], a flag with [-], an operator is one or two bytes that
    start with an operator character, a keyword is a shell keyword, a
    command is not, a path is no keyword and has one of the path prefixes, a
    number is none of these and all digits. *)
Theorem Tokenize_types_fit (command : list ascii) :
  exists toks,
    Tokenize decodeRunes unicodeIsDigit command = Some toks /\
    Forall (fun t => typeFitsText decodeRunes unicodeIsDigit t = true) toks.
Proof.
  unfold Tokenize.
  destruct (tokenizeLoop_terminates decodeRunes unicodeIsDigit
              (length command) (NewLexer command) true) as [l' Hloop]; [simpl; lia|].
  rewrite Hloop. simpl. exists (tokens l'). split; [done|].
  apply (tokenizeLoop_invariant
           (fun l => Forall (fun t => typeFitsText decodeRunes unicodeIsDigit t = true)
                       (tokens l)))
    with (length command) (NewLexer command) true; [|constructor|done].
  intros ch l first Hch Hall.
  destruct (tokenizeStep_fits ch l first Hch) as (tok & -> & Hfit).
  apply Forall_app. split; [done|]. by constructor.
Qed.

(** A comment runs to the end of the line: a command that starts with [#]
    and holds no line break is one comment token, whatever else is in it. *)
Theorem comment_is_one_token (body : list ascii) :
  noNewline body = true ->
  Tokenize decodeRunes unicodeIsDigit ("#"%char :: body) =
    Some [mkToken TokenComment ("#"%char :: body)].
Proof.
  intros Hbody.
  assert (Hstep : tokenizeStep decodeRunes unicodeIsDigit "#"
            (NewLexer ("#"%char :: body)) true =
          (mkLexer ("#"%char :: body) (S (length body))
             [mkToken TokenComment ("#"%char :: body)], true)).
  { unfold tokenizeStep. change (isSpace "#") with false. cbv iota.
    change (Ascii.eqb "#" "#") with true. cbv iota.
    unfold tokenizeComment, addToken, withPos. cbn [pos input tokens NewLexer].
    rewrite substr_span, drop_0. cbn [span].
    change (negb (Ascii.eqb "#" newline)) with true. cbv iota.
    fold (noNewline body) in Hbody.
    rewrite (span_all _ body) by exact Hbody.
    by rewrite (take_ge ("#"%char :: body)). }
  unfold Tokenize. cbn [length].
  rewrite (tokenizeLoop_step _ _ _ _ _ "#"%char) by done.
  rewrite Hstep. cbn [fst snd].
  rewrite tokenizeLoop_done; [done|].
  apply lookup_ge_None. simpl. lia.
Qed.

(** The first word of a command is the command, unless it is a keyword: a
    command that is one bare word is one token, of type keyword when the
    word is a shell keyword and of type command otherwise. *)
Theorem bare_word_is_the_command (ch : ascii) (rest : list ascii) :
  wordStart ch = true -> forallb wordChar (ch :: rest) = true ->
  Tokenize decodeRunes unicodeIsDigit (ch :: rest) =
    Some [mkToken (if isKeyword (ch :: rest) then TokenKeyword else TokenCommand)
            (ch :: rest)].
Proof.
  intros Hstart Hchars.
  assert (Hsp : isSpace ch = false).
  { simpl in Hchars. apply andb_prop in Hchars as [Hc _]. unfold wordChar in Hc.
    apply negb_true_iff, orb_false_elim in Hc as [Hc _]. done. }
  destruct (wordStart_reaches_word ch Hstart Hsp) as (Hhash & Hq & Hd & Hop & Hdash).
  assert (Hstep : tokenizeStep decodeRunes unicodeIsDigit ch (NewLexer (ch :: rest)) true =
          (mkLexer (ch :: rest) (length (ch :: rest))
             [mkToken (if isKeyword (ch :: rest) then TokenKeyword else TokenCommand)
                (ch :: rest)], false)).
  { unfold tokenizeStep. rewrite Hsp, Hhash. unfold isQuote in Hq. rewrite Hq, Hd, Hop, Hdash.
    cbn [andb]. unfold wordStart in Hstart. rewrite Hstart.
    unfold tokenizeWord. cbn [pos input NewLexer]. rewrite substr_span, drop_0.
    fold wordChar. rewrite (span_all wordChar) by done.
    rewrite (take_ge (ch :: rest)) by done.
    by rewrite setLastType_addToken. }
  unfold Tokenize. cbn [length] in *.
  rewrite (tokenizeLoop_step _ _ _ _ _ ch) by done.
  rewrite Hstep. cbn [fst snd].
  rewrite tokenizeLoop_done; [done|].
  apply lookup_ge_None. simpl. lia.
Qed.

End LexerMoreFacts.

Lemma comment_is_one_token_witness :
  Tokenize asciiRunes asciiIsDigit (list_ascii_of_string "# ls | grep 'x'") =
    Some [mkToken TokenComment (list_ascii_of_string "# ls | grep 'x'")].
Proof.
  apply (comment_is_one_token asciiRunes asciiIsDigit (list_ascii_of_string " ls | grep 'x'")). reflexivity.
Defined.

Lemma bare_word_is_the_command_witness :
  Tokenize asciiRunes asciiIsDigit (list_ascii_of_string "ls") =
    Some [mkToken TokenCommand (list_ascii_of_string "ls")].
Proof.
  apply (bare_word_is_the_command asciiRunes asciiIsDigit "l"%char (list_ascii_of_string "s")); reflexivity.
Defined.


Lemma Tokenize_spells_ascii_witness :
  exists toks,
    Tokenize asciiRunes asciiIsDigit (list_ascii_of_string "ls -la | wc") = Some toks /\
    literal toks = list_ascii_of_string "ls -la | wc".
Proof.
  apply (Tokenize_spells_ascii asciiRunes asciiIsDigit (list_ascii_of_string "ls -la | wc")).
  reflexivity.
Defined.

End HighlightMoreFacts.

(** ** Further properties of the compositor *)

Module ImgMoreFacts.

Import Theme Img ImgMore Cmd GoFacts.

(** *** Prompt detection *)

Lemma symbols_recolor settings l : symbols (map (recolor settings) l) = symbols l.
Proof. unfold symbols. rewrite map_map. done. Qed.

Lemma symbols_app l1 l2 : symbols (l1 ++ l2) = symbols l1 ++ symbols l2.
Proof. apply map_app. Qed.

Lemma take_three_pieces {A} (l : list A) a k n :
  take a l ++ take k (drop a l) ++ take n (drop (a + k) l) ++ drop (a + k + n) l = l.
Proof.
  replace (drop (a + k + n) l) with (drop n (drop k (drop a l)))
    by (rewrite !drop_drop; f_equal; lia).
  replace (drop (a + k) l) with (drop k (drop a l)) by (by rewrite drop_drop).
  by rewrite !take_drop.
Qed.

Lemma firstLineEndFrom_found rs : forall i,
  firstLineEndFrom i rs <> 0 ->
  exists k c,
    firstLineEndFrom i rs = i + k /\ rs !! k = Some c /\ Symbol c = LF /\
    Forall (fun c => Symbol c <> LF) (take k rs).
Proof.
  induction rs as [|c rs IH]; intros i Hfound; simpl in *; [done|].
  destruct (Z.eqb_spec (Symbol c) LF) as [Hc|Hc].
  - exists 0, c. rewrite Nat.add_0_r. repeat split; done || constructor.
  - destruct (IH (S i) Hfound) as (k & c' & -> & Hk & Hc' & Hbefore).
    exists (S k), c'. split; [lia|]. split; [done|]. split; [done|].
    simpl. by constructor.
Qed.

(** *** The wrap step *)

Lemma wrapRune_appends cols tmp counter cr :
  exists pre counter',
    wrapRune cols (tmp, counter) cr = (tmp ++ pre ++ [cr], counter') /\
    (pre = [] \/ pre = [mkCR LF (Settings cr)]).
Proof.
  unfold wrapRune.
  destruct (cols <? (if (Symbol cr =? LF)%Z then 0 else counter + 1))%Z.
  - exists [mkCR LF (Settings cr)], 0%Z. rewrite <- app_assoc. eauto.
  - exists [], (if (Symbol cr =? LF)%Z then 0 else counter + 1)%Z. eauto.
Qed.

Lemma wrap_fold_appends cols l : forall tmp counter,
  exists added,
    (fold_left (wrapRune cols) l (tmp, counter)).1 = tmp ++ added /\
    l `sublist_of` added /\ visible added = visible l.
Proof.
  induction l as [|cr l IH]; intros tmp counter; cbn [fold_left].
  - exists []. by rewrite app_nil_r.
  - destruct (wrapRune_appends cols tmp counter cr) as (pre & counter' & -> & Hpre).
    destruct (IH (tmp ++ pre ++ [cr]) counter') as (added & -> & Hsub & Hvis).
    exists (pre ++ cr :: added). rewrite <- !app_assoc. split; [done|]. split.
    + apply sublist_inserts_l. by constructor.
    + unfold visible in *. rewrite List.filter_app. simpl. rewrite Hvis.
      by destruct Hpre as [-> | ->].
Qed.

(** The state of the wrapping loop: the rows that are complete have at most
    [bound + 1] characters, and the row that is being written has at most
    one more than the counter says. *)
Lemma wrap_fold_rows cols l : forall tmp counter done cur,
  splitLines tmp = done ++ [cur] ->
  Forall (fun row => (len row <= Z.max cols 0 + 1)%Z) done ->
  (len cur <= counter + 1)%Z -> (0 <= counter <= Z.max cols 0)%Z ->
  Forall (fun row => (len row <= Z.max cols 0 + 1)%Z)
    (splitLines (fold_left (wrapRune cols) l (tmp, counter)).1).
Proof.
  induction l as [|cr l IH]; intros tmp counter done cur Hsplit Hdone Hcur Hcounter;
    cbn [fold_left fst].
  - rewrite Hsplit. apply Forall_app. split; [done|]. constructor; [lia | constructor].
  - unfold wrapRune.
    assert (Hbreak : forall st, splitLines (tmp ++ [mkCR LF st]) = (done ++ [cur]) ++ [[]]).
    { intros st. rewrite PlainText.splitLines_snoc_break by done. by rewrite Hsplit. }
    assert (Hdone' : Forall (fun row => (len row <= Z.max cols 0 + 1)%Z) (done ++ [cur])).
    { apply Forall_app. split; [done|]. constructor; [lia | constructor]. }
    destruct (Z.eqb_spec (Symbol cr) LF) as [Hlf|Hlf].
    + destruct (Z.ltb_spec cols 0).
      * eapply (IH _ 0%Z ((done ++ [cur]) ++ [[]]) []).
        -- rewrite PlainText.splitLines_snoc_break by done. by rewrite Hbreak.
        -- apply Forall_app. split; [done|]. constructor; [|constructor].
           unfold len. simpl. lia.
        -- unfold len. simpl. lia.
        -- lia.
      * eapply (IH _ 0%Z (done ++ [cur]) []).
        -- rewrite PlainText.splitLines_snoc_break by done. by rewrite Hsplit.
        -- done.
        -- unfold len. simpl. lia.
        -- lia.
    + destruct (Z.ltb_spec cols (counter + 1)).
      * eapply (IH _ 0%Z (done ++ [cur]) [cr]).
        -- rewrite (PlainText.splitLines_snoc_rune _ _ (done ++ [cur]) []) by done.
           done.
        -- done.
        -- unfold len. simpl. lia.
        -- lia.
      * eapply (IH _ (counter + 1)%Z done (cur ++ [cr])).
        -- by rewrite (PlainText.splitLines_snoc_rune _ _ done cur).
        -- done.
        -- rewrite PlainText.len_snoc. lia.
        -- lia.
Qed.

Lemma wrap_fold_fits cols l : forall tmp counter,
  (0 <= cols)%Z -> (0 <= counter)%Z -> Ansi.fits cols counter l = true ->
  (fold_left (wrapRune cols) l (tmp, counter)).1 = tmp ++ l.
Proof.
  induction l as [|cr l IH]; intros tmp counter Hcols Hcounter Hfits;
    cbn [fold_left fst Ansi.fits] in *.
  - by rewrite app_nil_r.
  - unfold wrapRune. change Ansi.LF with LF in Hfits.
    destruct (Symbol cr =? LF)%Z.
    + destruct (Z.ltb_spec cols 0); [lia|].
      rewrite IH by (done || lia). by rewrite <- app_assoc.
    + apply andb_prop in Hfits as [Hroom Hfits]. apply Z.ltb_lt in Hroom.
      destruct (Z.ltb_spec cols (counter + 1)); [lia|].
      rewrite IH by (done || lia). by rewrite <- app_assoc.
Qed.

Lemma wrap_fold_grows cols l : forall tmp counter,
  (0 <= counter)%Z -> Ansi.fits cols counter l = false ->
  length tmp + length l < length (fold_left (wrapRune cols) l (tmp, counter)).1.
Proof.
  induction l as [|cr l IH]; intros tmp counter Hcounter Hfits;
    cbn [fold_left fst Ansi.fits length] in *; [done|].
  unfold wrapRune. change Ansi.LF with LF in Hfits.
  assert (Hwrapped : forall st counter',
            length tmp + S (length l) <
            length (fold_left (wrapRune cols) l ((tmp ++ [mkCR LF st]) ++ [cr], counter')).1).
  { intros st counter'.
    destruct (wrap_fold_appends cols l ((tmp ++ [mkCR LF st]) ++ [cr]) counter')
      as (added & -> & Hsub & _).
    apply sublist_length in Hsub. rewrite !length_app. simpl. lia. }
  destruct (Symbol cr =? LF)%Z.
  - destruct (cols <? 0)%Z; [apply Hwrapped|].
    pose proof (IH (tmp ++ [cr]) 0%Z ltac:(lia) Hfits) as Hlen.
    rewrite length_app in Hlen. simpl in Hlen. unfold wrapRune in Hlen. lia.
  - destruct (Z.ltb_spec cols (counter + 1)); [apply Hwrapped|].
    destruct (Z.ltb_spec counter cols); [|lia]. simpl in Hfits.
    pose proof (IH (tmp ++ [cr]) (counter + 1)%Z ltac:(lia) Hfits) as Hlen.
    rewrite length_app in Hlen. simpl in Hlen. unfold wrapRune in Hlen. lia.
Qed.

(** The wrap step of [AddContent] only adds line breaks: the content is a
    subsequence of what comes out, and what comes out holds no other
    character than the content and line breaks. *)
Theorem wrapContent_only_adds_breaks (fixedColumns : Z) (enhanced : list ColoredRune) :
  enhanced `sublist_of` wrapContent fixedColumns enhanced /\
  visible (wrapContent fixedColumns enhanced) = visible enhanced.
Proof.
  unfold wrapContent.
  destruct (wrap_fold_appends fixedColumns enhanced [] 0%Z) as (added & -> & Hsub & Hvis).
  done.
Qed.

(** No row of the wrapped content has more than [fixedColumns + 1]
    characters (one for a width that is not positive): the wrap is late by
    one character at most. *)
Theorem wrapContent_rows_bounded (fixedColumns : Z) (enhanced : list ColoredRune) :
  Forall (fun row => (len row <= Z.max fixedColumns 0 + 1)%Z)
    (splitLines (wrapContent fixedColumns enhanced)).
Proof.
  unfold wrapContent. apply (wrap_fold_rows fixedColumns enhanced [] 0%Z [] []).
  - done.
  - constructor.
  - unfold len. simpl. lia.
  - lia.
Qed.

(** The wrap step leaves the content as it is exactly when no line of it is
    longer than [fixedColumns]. *)
Theorem wrapContent_exact_iff_fits (fixedColumns : Z) (enhanced : list ColoredRune) :
  (0 <= fixedColumns)%Z ->
  wrapContent fixedColumns enhanced = enhanced <->
  Ansi.fits fixedColumns 0 enhanced = true.
Proof.
  intros Hcols. unfold wrapContent. split.
  - intros Hsame. destruct (Ansi.fits fixedColumns 0 enhanced) eqn:Hfits; [done|].
    pose proof (wrap_fold_grows fixedColumns enhanced [] 0%Z ltac:(lia) Hfits) as Hlen.
    rewrite Hsame in Hlen. simpl in Hlen. lia.
  - intros Hfits. by rewrite wrap_fold_fits.
Qed.

Lemma wrapContent_exact_iff_fits_witness :
  wrapContent 5 (plain "hello") = plain "hello" <->
  Ansi.fits 5 0 (plain "hello") = true.
Proof. apply (wrapContent_exact_iff_fits 5 (plain "hello")). lia. Defined.

Section CompositorFacts.

Variable scanHex : string -> nat -> option (list Z).

Lemma highlightCommandLine_symbols (s : Scaffold) (line : list ColoredRune) :
  symbols (highlightCommandLine scanHex s line) = symbols line.
Proof.
  unfold highlightCommandLine.
  destruct (findIndicator _) as [indicator|]; [|done].
  destruct (_ =? 0)%nat; [done|]. cbv zeta.
  rewrite !symbols_app, !symbols_recolor, <- !symbols_app, <- !app_assoc.
  by rewrite take_three_pieces.
Qed.

(** [highlightCommandLine] changes colours only: the line keeps its symbols,
    hence its length, whatever it holds. *)
Theorem highlightCommandLine_keeps_symbols (s : Scaffold) (line : list ColoredRune) :
  symbols (highlightCommandLine scanHex s line) = symbols line /\
  length (highlightCommandLine scanHex s line) = length line.
Proof.
  pose proof (highlightCommandLine_symbols s line) as Hsym.
  split; [done|].
  apply (f_equal length) in Hsym. unfold symbols in Hsym.
  by rewrite !length_map in Hsym.
Qed.

Lemma enhanceRawContent_symbols (s : Scaffold) (parsed : list ColoredRune) :
  symbols (enhanceRawContent scanHex s parsed) = symbols parsed \/
  exists line rest,
    symbols parsed = line ++ LF :: rest /\
    Forall (fun r => r <> LF) line /\
    symbols (enhanceRawContent scanHex s parsed) = line ++ LF :: LF :: rest.
Proof.
  unfold enhanceRawContent.
  destruct (length parsed =? 0)%nat; [by left|].
  destruct (noPromptDetect s); [by left|].
  destruct (findIndicator (text (getFirstLine parsed))); [|by left].
  destruct (Nat.eqb_spec (firstLineEndFrom 0 parsed) 0) as [|Hfound]; [by left|].
  destruct (Nat.leb_spec (length parsed) (firstLineEndFrom 0 parsed)); [by left|].
  simpl orb. cbv iota zeta.
  destruct (firstLineEndFrom_found parsed 0 Hfound) as (k & c & -> & Hk & Hc & Hbefore).
  simpl Nat.add in *.
  assert (Hparsed : symbols parsed =
            symbols (take k parsed) ++ LF :: symbols (drop (k + 1) parsed)).
  { rewrite <- (take_drop_middle parsed k c Hk) at 1.
    rewrite symbols_app. simpl. rewrite Hc. by rewrite Nat.add_1_r. }
  assert (Hline : Forall (fun r => r <> LF) (symbols (take k parsed))).
  { unfold symbols. by apply Forall_map. }
  assert (Hrest : (k + 1 <? length parsed)%nat = false ->
            symbols (drop (k + 1) parsed) = []).
  { intros Hlast. apply Nat.ltb_ge in Hlast. by rewrite drop_ge. }
  pose proof (highlightCommandLine_symbols s (take k parsed)) as Hhl.
  destruct (k + 1 <? length parsed)%nat eqn:Hafter.
  - destruct (negb _ && negb _)%bool.
    + right. exists (symbols (take k parsed)), (symbols (drop (k + 1) parsed)).
      split; [done|]. split; [done|].
      rewrite !symbols_app, Hhl. simpl. by rewrite <- !app_assoc.
    + left. rewrite !symbols_app, Hhl, Hparsed. simpl. by rewrite <- !app_assoc.
  - left. rewrite !symbols_app, Hhl, Hparsed, (Hrest eq_refl). done.
Qed.


(** Prompt detection keeps the text: what [enhanceRawContent] returns has
    the symbols of the content, but for one line break that it may add
    after the first line. *)
Theorem enhanceRawContent_adds_one_break_at_most (s : Scaffold) (parsed : list ColoredRune) :
  symbols (enhanceRawContent scanHex s parsed) = symbols parsed \/
  exists line rest,
    symbols parsed = line ++ LF :: rest /\
    Forall (fun r => r <> LF) line /\
    symbols (enhanceRawContent scanHex s parsed) = line ++ LF :: LF :: rest.
Proof. apply enhanceRawContent_symbols. Qed.

Lemma symbols_visible l :
  symbols (visible l) = List.filter (fun r => negb (r =? LF)%Z) (symbols l).
Proof.
  unfold visible, symbols. induction l as [|c l IH]; simpl; [done|].
  destruct (Symbol c =? LF)%Z; simpl; by rewrite IH.
Qed.

(** [AddContent] appends to the content of the scaffold, and what it appends
    has the visible characters of the input, in their order: prompt
    detection and wrapping change colours and line breaks only. No row of
    what is appended has more than the number of columns plus one
    characters. *)
Theorem AddContent_keeps_visible_text (termColumns : Z) (s : Scaffold)
    (parsed : list ColoredRune) :
  exists added,
    content (AddContent scanHex termColumns s parsed) = content s ++ added /\
    symbols (visible added) = symbols (visible parsed) /\
    Forall (fun row => (len row <= Z.max (GetFixedColumns termColumns s) 0 + 1)%Z)
      (splitLines added).
Proof.
  exists (wrapContent (GetFixedColumns termColumns s) (enhanceRawContent scanHex s parsed)).
  split; [done|]. split.
  - unfold wrapContent.
    destruct (wrap_fold_appends (GetFixedColumns termColumns s)
                (enhanceRawContent scanHex s parsed) [] 0%Z) as (added & -> & _ & Hvis).
    simpl. rewrite Hvis, !symbols_visible.
    destruct (enhanceRawContent_symbols s parsed)
      as [-> | (line & rest & -> & _ & ->)]; [done|].
    rewrite !List.filter_app. simpl. change (LF =? LF)%Z with true. done.
  - unfold wrapContent. apply (wrap_fold_rows _ _ [] 0%Z [] []).
    + done.
    + constructor.
    + unfold len. simpl. lia.
    + lia.
Qed.

(** With prompt detection off, [AddContent] appends the decoded input as it
    is exactly when no line of it is longer than the width that
    [GetFixedColumns] gives (a width that is not negative). *)
Theorem AddContent_exact_when_lines_fit (termColumns : Z) (s : Scaffold)
    (parsed : list ColoredRune) :
  noPromptDetect s = true ->
  (0 <= GetFixedColumns termColumns s)%Z ->
  content (AddContent scanHex termColumns s parsed) = content s ++ parsed <->
  Ansi.fits (GetFixedColumns termColumns s) 0 parsed = true.
Proof.
  intros Hoff Hcols.
  assert (Hsame : enhanceRawContent scanHex s parsed = parsed).
  { unfold enhanceRawContent. rewrite Hoff. by destruct (length parsed =? 0)%nat. }
  unfold AddContent. cbv zeta. rewrite Hsame. simpl. unfold wrapContent. split.
  - intros Happ. apply app_inv_head in Happ.
    destruct (Ansi.fits (GetFixedColumns termColumns s) 0 parsed) eqn:Hfits; [done|].
    pose proof (wrap_fold_grows (GetFixedColumns termColumns s) parsed [] 0%Z
                  ltac:(lia) Hfits) as Hlen.
    rewrite Happ in Hlen. simpl in Hlen. lia.
  - intros Hfits. by rewrite wrap_fold_fits.
Qed.

End CompositorFacts.

Lemma AddContent_exact_when_lines_fit_witness :
  content (AddContent hexPairs 80
             (DisablePromptDetection true NewImageCreator) helloWorld) =
    content (DisablePromptDetection true NewImageCreator) ++ helloWorld <->
  Ansi.fits (GetFixedColumns 80 (DisablePromptDetection true NewImageCreator)) 0
    helloWorld = true.
Proof.
  apply (AddContent_exact_when_lines_fit hexPairs 80
           (DisablePromptDetection true NewImageCreator) helloWorld);
    [reflexivity | vm_compute; discriminate].
Defined.

(** *** Colours of the rasterizer *)

Local Open Scope Z_scope.

Ltac compare :=
  repeat match goal with
  | |- context [(?a <=? ?b)] => destruct (Z.leb_spec a b)
  | |- context [(?a <? ?b)] => destruct (Z.ltb_spec a b)
  | |- context [(?a =? ?b)] => destruct (Z.eqb_spec a b)
  end; simpl; try done; try lia.

Lemma distance_bucket v a :
  isByte v -> a = 0 \/ a = 128 \/ a = 192 \/ a = 255 ->
  (distance v a <=? 5) = (bucket v =? a).
Proof.
  unfold isByte, distance, sub, bucket. intros Hv Ha.
  rewrite (wrap64_id (v - a)) by (unfold minInt, maxInt; lia).
  destruct (Z.ltb_spec (v - a) 0).
  - rewrite wrap64_id by (unfold minInt, maxInt; lia).
    destruct Ha as [->|[->|[->| ->]]]; compare.
  - destruct Ha as [->|[->|[->| ->]]]; compare.
Qed.

Lemma standardColors_keys t e :
  e ∈ standardColors t ->
  (e.1.1.1 = 0 \/ e.1.1.1 = 128 \/ e.1.1.1 = 192 \/ e.1.1.1 = 255) /\
  (e.1.1.2 = 0 \/ e.1.1.2 = 128 \/ e.1.1.2 = 192 \/ e.1.1.2 = 255) /\
  (e.1.2 = 0 \/ e.1.2 = 128 \/ e.1.2 = 192 \/ e.1.2 = 255).
Proof.
  unfold standardColors. intros He.
  repeat (apply elem_of_cons in He as [->|He]; [simpl; tauto|]).
  by apply elem_of_nil in He.
Qed.

Lemma sameColor_eq a b : sameColor a b = true -> a = b.
Proof.
  destruct a as [[a1 a2] a3], b as [[b1 b2] b3]. unfold sameColor. simpl.
  intros H. apply andb_prop in H as [H H3]. apply andb_prop in H as [H1 H2].
  apply Z.eqb_eq in H1, H2, H3. by subst.
Qed.

Lemma sameColor_refl a : sameColor a a = true.
Proof. destruct a as [[a1 a2] a3]. unfold sameColor. simpl. by rewrite !Z.eqb_refl. Qed.

Lemma within_bucket t r g b e :
  isByte r -> isByte g -> isByte b -> e ∈ standardColors t ->
  within 5 r g b e.1 = sameColor (bucket r, bucket g, bucket b) e.1.
Proof.
  intros Hr Hg Hb He. destruct (standardColors_keys t e He) as (H1 & H2 & H3).
  unfold within, sameColor. simpl.
  by rewrite !distance_bucket.
Qed.

Lemma NoDup_fst_unique {A B} (l : list (A * B)) x y1 y2 :
  NoDup l.*1 -> (x, y1) ∈ l -> (x, y2) ∈ l -> y1 = y2.
Proof.
  induction l as [|[a b] l IH]; simpl; intros Hnodup H1 H2.
  - by apply elem_of_nil in H1.
  - apply NoDup_cons in Hnodup as [Hnotin Hnodup].
    apply elem_of_cons in H1 as [H1|H1]; apply elem_of_cons in H2 as [H2|H2].
    + congruence.
    + injection H1 as -> ->. exfalso. apply Hnotin.
      by apply (list_elem_of_fmap_2 fst l (a, y2)).
    + injection H2 as -> ->. exfalso. apply Hnotin.
      by apply (list_elem_of_fmap_2 fst l (a, y1)).
    + by apply IH.
Qed.

Lemma standardColors_NoDup t : NoDup (standardColors t).*1.
Proof. apply (bool_decide_unpack _). vm_compute. reflexivity. Qed.

Lemma standardColors_oneWithin t r g b :
  isByte r -> isByte g -> isByte b -> oneWithin r g b (standardColors t).
Proof.
  intros Hr Hg Hb. split; [apply standardColors_NoDup|].
  intros e1 e2 He1 He2. rewrite !(within_bucket t) by done.
  intros H1 H2. apply sameColor_eq in H1, H2. congruence.
Qed.

Lemma oneWithin_perm r g b l l' : l ≡ₚ l' -> oneWithin r g b l -> oneWithin r g b l'.
Proof.
  intros Hperm [Hnodup Hone]. split.
  - by rewrite <- Hperm.
  - intros e1 e2 He1 He2. apply Hone; by rewrite Hperm.
Qed.

Lemma oneWithin_tail r g b e l : oneWithin r g b (e :: l) -> oneWithin r g b l.
Proof.
  intros [Hnodup Hone]. split.
  - by apply NoDup_cons in Hnodup as [_ ?].
  - intros e1 e2 He1 He2. apply Hone; by right.
Qed.

Lemma oneWithin_head r g b e l e' :
  oneWithin r g b (e :: l) -> within 5 r g b e.1 = true -> e' ∈ l ->
  within 5 r g b e'.1 = false.
Proof.
  intros [Hnodup Hone] He He'. destruct (within 5 r g b e'.1) eqn:Hw; [|done].
  assert (Hkey : e.1 = e'.1) by (apply Hone; [by left | by right | done | done]).
  simpl in Hnodup. apply NoDup_cons in Hnodup as [Hnotin _].
  exfalso. apply Hnotin. rewrite Hkey. by apply list_elem_of_fmap_2.
Qed.

Section RemapFacts.

Variable scanHex : string -> nat -> option (list Z).

Lemma firstWithin_none entries r g b :
  (forall e, e ∈ entries -> within 5 r g b e.1 = false) ->
  firstWithin scanHex entries r g b = None.
Proof.
  induction entries as [|[ansi hex] entries IH]; intros Hnone; simpl; [done|].
  pose proof (Hnone (ansi, hex) ltac:(by left)) as Hhead. simpl in Hhead.
  rewrite Hhead.
  apply IH. intros e He. apply Hnone. by right.
Qed.

Lemma firstWithin_find entries r g b :
  oneWithin r g b entries ->
  firstWithin scanHex entries r g b =
    match find (fun e => within 5 r g b e.1) entries with
    | Some (_, hexColor) => ParseColor scanHex hexColor
    | None => None
    end.
Proof.
  induction entries as [|[ansi hex] entries IH]; intros Hone; simpl; [done|].
  destruct (within 5 r g b ansi) eqn:Hw.
  - destruct (ParseColor scanHex hex); [done|].
    apply firstWithin_none. intros e He.
    by apply (oneWithin_head r g b (ansi, hex) entries).
  - apply IH. by eapply oneWithin_tail.
Qed.

Lemma find_perm entries entries' r g b :
  entries ≡ₚ entries' -> oneWithin r g b entries ->
  find (fun e => within 5 r g b e.1) entries = find (fun e => within 5 r g b e.1) entries'.
Proof.
  induction 1 as [|x l l' Hperm IH|x y l|l l' l'' H1 IH1 H2 IH2]; intros Hone.
  - done.
  - simpl. destruct (within 5 r g b x.1); [done|]. apply IH. by eapply oneWithin_tail.
  - simpl. destruct (within 5 r g b x.1) eqn:Hx, (within 5 r g b y.1) eqn:Hy; try done.
    pose proof (oneWithin_head r g b y (x :: l) x Hone Hy) as Hx'.
    rewrite Hx in Hx'. by discriminate Hx'; left.
  - rewrite IH1 by done. apply IH2. by eapply oneWithin_perm.
Qed.

Lemma remapAnsiColor_closed order s r g b :
  order ≡ₚ standardColors (currentTheme s) ->
  isByte r -> isByte g -> isByte b ->
  remapAnsiColor scanHex order s r g b =
    default (mkRGBA r g b 255) (themeColorNear scanHex s r g b).
Proof.
  intros Hperm Hr Hg Hb.
  pose proof (standardColors_oneWithin (currentTheme s) r g b Hr Hg Hb) as Hone.
  assert (Hloop : firstWithin scanHex order r g b = themeColorNear scanHex s r g b).
  { rewrite firstWithin_find by (eapply oneWithin_perm; [symmetry|]; done).
    unfold themeColorNear. by rewrite (find_perm _ _ r g b Hperm) by
      (eapply oneWithin_perm; [symmetry|]; done). }
  unfold remapAnsiColor. rewrite Hloop.
  assert (Hfall : mkRGBA (uint8 r) (uint8 g) (uint8 b) 255 = mkRGBA r g b 255).
  { unfold uint8, isByte in *. by rewrite !Z.mod_small by lia. }
  rewrite Hfall.
  destruct (find (fun e => sameColor e.1 (r, g, b)) (standardColors (currentTheme s)))
    as [[key hex]|] eqn:Hexact; [|done].
  apply find_some in Hexact as [Hin Hsame]. simpl in Hsame.
  apply sameColor_eq in Hsame. subst key.
  assert (Hnear : themeColorNear scanHex s r g b = ParseColor scanHex hex).
  { unfold themeColorNear.
    destruct (find (fun e => within 5 r g b e.1) (standardColors (currentTheme s)))
      as [[key' hex']|] eqn:Hfind.
    - apply find_some in Hfind as [Hin' Hw]. simpl in Hw.
      apply list_elem_of_In in Hin, Hin'.
      assert (Hw0 : within 5 r g b (r, g, b) = true).
      { unfold within, distance, sub. simpl. rewrite !Z.sub_diag. reflexivity. }
      destruct Hone as [Hnodup Hone].
      assert (Hkey : key' = (r, g, b))
        by (apply (Hone (key', hex') ((r, g, b), hex)); done).
      subst key'. f_equal.
      by eapply (NoDup_fst_unique (standardColors (currentTheme s))).
    - exfalso. eapply find_none in Hfind; [|exact Hin]. simpl in Hfind.
      unfold within, distance, sub in Hfind. simpl in Hfind.
      rewrite !Z.sub_diag in Hfind. discriminate Hfind. }
  rewrite Hnear. by destruct (ParseColor scanHex hex).
Qed.

(** The colour that [remapAnsiColor] returns for colour components that are
    bytes does not depend on the order in which the map of the sixteen
    standard colours is visited: at most one of them is within the
    tolerance, and the exact match that the function looks for first is the
    one that the tolerance loop would find. The colour is the colour of the
    theme for that entry when there is one and it parses, and the colour
    given otherwise. *)
Theorem remapAnsiColor_order_independent order (s : Scaffold) (r g b : Z) :
  order ≡ₚ standardColors (currentTheme s) ->
  isByte r -> isByte g -> isByte b ->
  remapAnsiColor scanHex order s r g b =
    remapAnsiColor scanHex (standardColors (currentTheme s)) s r g b /\
  remapAnsiColor scanHex order s r g b =
    default (mkRGBA r g b 255) (themeColorNear scanHex s r g b).
Proof.
  intros Hperm Hr Hg Hb. by rewrite !remapAnsiColor_closed.
Qed.

End RemapFacts.

Lemma remapAnsiColor_order_independent_witness :
  remapAnsiColor hexPairs (reverse (standardColors preset_default)) NewImageCreator
    130 2 0 =
    remapAnsiColor hexPairs (standardColors preset_default) NewImageCreator 130 2 0 /\
  remapAnsiColor hexPairs (reverse (standardColors preset_default)) NewImageCreator
    130 2 0 =
    default (mkRGBA 130 2 0 255) (themeColorNear hexPairs NewImageCreator 130 2 0).
Proof.
  apply (remapAnsiColor_order_independent hexPairs
           (reverse (standardColors preset_default)) NewImageCreator 130 2 0);
    [apply reverse_Permutation | unfold isByte; lia ..].
Defined.

(** *** Style bits *)

Lemma lor_shiftl_add a x n :
  0 <= a < 2 ^ n -> 0 <= n -> Z.lor a (Z.shiftl x n) = a + x * 2 ^ n.
Proof.
  intros Ha Hn. rewrite Z.shiftl_mul_pow2 by done.
  assert (Hland : Z.land a (x * 2 ^ n) = 0).
  { apply Z.bits_inj'. intros i Hi. rewrite Z.land_spec, Z.bits_0.
    destruct (Z.lt_ge_cases i n).
    - by rewrite Z.mul_pow2_bits_low, Bool.andb_false_r by lia.
    - destruct (Z.eq_dec a 0) as [->|Hne]; [by rewrite Z.bits_0|].
      rewrite (Z.bits_above_log2 a i); [done | lia |].
      apply Z.log2_lt_pow2; [lia|]. pose proof (Z.pow_le_mono_r 2 n i). lia. }
  rewrite <- Z.lxor_lor by done. symmetry. by apply Z.add_nocarry_lxor.
Qed.

Lemma land_byte x n : 0 <= n -> Z.land (Z.shiftr x n) 255 = (x / 2 ^ n) mod 256.
Proof.
  intros. rewrite Z.shiftr_div_pow2 by done. change 255 with (Z.ones 8).
  by rewrite Z.land_ones.
Qed.

Lemma land_low x k m :
  0 <= k -> Z.land (Z.ones k) m = m -> Z.land x m = Z.land (x mod 2 ^ k) m.
Proof.
  intros Hk Hm. rewrite <- Z.land_ones by done. rewrite <- Z.land_assoc. by rewrite Hm.
Qed.

(** The bits that [highlightCommandLine] packs a colour into are the bits
    that the loop of [image] reads a foreground colour from. *)
Lemma foreground_bits r g b :
  isByte r -> isByte g -> isByte b ->
  let settings :=
    Z.lor (Z.lor (Z.lor 1 (Z.shiftl r 8)) (Z.shiftl g 16)) (Z.shiftl b 24) in
  Z.land settings 1 = 1 /\ Z.land settings 2 = 0 /\ Z.land settings 28 = 0 /\
  Z.land (Z.shiftr settings 8) 255 = r /\
  Z.land (Z.shiftr settings 16) 255 = g /\
  Z.land (Z.shiftr settings 24) 255 = b.
Proof.
  intros Hr Hg Hb settings. unfold isByte in *.
  assert (Hsum : settings = 1 + r * 2 ^ 8 + g * 2 ^ 16 + b * 2 ^ 24).
  { subst settings. rewrite (lor_shiftl_add 1 r 8) by lia.
    rewrite (lor_shiftl_add _ g 16) by lia.
    by rewrite (lor_shiftl_add _ b 24) by lia. }
  rewrite Hsum. clear Hsum settings.
  assert (Hlow : (1 + r * 2 ^ 8 + g * 2 ^ 16 + b * 2 ^ 24) mod 2 ^ 5 = 1).
  { change (2 ^ 5) with 32. change (2 ^ 8) with 256. change (2 ^ 16) with 65536.
    change (2 ^ 24) with 16777216. Z.to_euclidean_division_equations; lia. }
  split; [by rewrite (land_low _ 5), Hlow|].
  split; [by rewrite (land_low _ 5), Hlow|].
  split; [by rewrite (land_low _ 5), Hlow|].
  rewrite !land_byte by lia.
  change (2 ^ 8) with 256. change (2 ^ 16) with 65536. change (2 ^ 24) with 16777216.
  repeat split; Z.to_euclidean_division_equations; lia.
Qed.

Section StyleFacts.

Variable scanHex : string -> nat -> option (list Z).

(** The command word that [highlightCommandLine] recolours is drawn by
    [image] in the regular face, without underline or background, in the
    colour that [remapAnsiColor] makes of the green of the theme (of the
    fixed green when the theme has none that parses). *)
Theorem command_colour_is_drawn order (s : Scaffold) :
  let c := default (mkRGBA 166 227 161 255)
             (ParseColor scanHex (Green (currentTheme s))) in
  isByte (R c) -> isByte (G c) -> isByte (B c) ->
  foreground scanHex order s (commandSettings scanHex s) =
    Some (remapAnsiColor scanHex order s (R c) (G c) (B c)) /\
  background scanHex order s (commandSettings scanHex s) = None /\
  fontFace (commandSettings scanHex s) = Regular /\
  underlined (commandSettings scanHex s) = false.
Proof.
  intros c Hr Hg Hb.
  destruct (foreground_bits (R c) (G c) (B c) Hr Hg Hb)
    as (Hfg & Hbg & Hface & HR & HG & HB).
  unfold foreground, background, fontFace, underlined, commandSettings.
  fold c. rewrite Hfg, Hbg, Hface, HR, HG, HB. done.
Qed.

(** The prompt glyph that [highlightCommandLine] recolours is drawn in the
    same colour under every theme, in whatever order the map of standard
    colours is visited: its colour is not near any of them. *)
Theorem prompt_colour_in_every_theme order (s : Scaffold) :
  order ≡ₚ standardColors (currentTheme s) ->
  foreground scanHex order s promptSettings = Some (mkRGBA 203 166 247 255) /\
  background scanHex order s promptSettings = None /\
  fontFace promptSettings = Regular /\
  underlined promptSettings = false.
Proof.
  intros Hperm. unfold foreground, background.
  change (Z.land promptSettings 1 =? 1) with true.
  change (Z.land promptSettings 2 =? 2) with false.
  change (Z.land (Z.shiftr promptSettings 8) 255) with 203.
  change (Z.land (Z.shiftr promptSettings 16) 255) with 166.
  change (Z.land (Z.shiftr promptSettings 24) 255) with 247.
  rewrite remapAnsiColor_closed by (done || (unfold isByte; lia)).
  repeat split.
Qed.

End StyleFacts.

Lemma command_colour_is_drawn_witness :
  foreground hexPairs (standardColors preset_default) NewImageCreator
    (commandSettings hexPairs NewImageCreator) =
    Some (remapAnsiColor hexPairs (standardColors preset_default) NewImageCreator
            152 195 121) /\
  background hexPairs (standardColors preset_default) NewImageCreator
    (commandSettings hexPairs NewImageCreator) = None /\
  fontFace (commandSettings hexPairs NewImageCreator) = Regular /\
  underlined (commandSettings hexPairs NewImageCreator) = false.
Proof.
  apply (command_colour_is_drawn hexPairs (standardColors preset_default)
           NewImageCreator); by vm_compute.
Defined.

Lemma prompt_colour_in_every_theme_witness :
  foreground hexPairs (standardColors preset_default) NewImageCreator promptSettings =
    Some (mkRGBA 203 166 247 255) /\
  background hexPairs (standardColors preset_default) NewImageCreator promptSettings =
    None /\
  fontFace promptSettings = Regular /\
  underlined promptSettings = false.
Proof.
  apply (prompt_colour_in_every_theme hexPairs (standardColors preset_default)
           NewImageCreator). reflexivity.
Defined.

End ImgMoreFacts.

(** ** Further properties of the themes *)

Module ThemeMoreFacts.

Import Theme ThemeMore.

Lemma ListThemes_names visit : ListThemes visit = visit.*1.
Proof.
  unfold ListThemes.
  assert (H : forall names, fold_left (fun names (entry : string * Theme) =>
                              names ++ [entry.1]) visit names = names ++ visit.*1).
  { induction visit as [|e visit IH]; intros names; simpl.
    - by rewrite app_nil_r.
    - by rewrite IH, <- app_assoc. }
  apply H.
Qed.

Lemma presetNames_NoDup : NoDup presetNames.
Proof. apply (bool_decide_unpack _). vm_compute. reflexivity. Qed.

(** [ListThemes] returns the names of the presets, each once, in whatever
    order the map is visited; [GetTheme] knows every name that is listed,
    and does not fall back to the default for it. *)
Theorem ListThemes_lists_the_presets (visit : list (string * Theme)) :
  visit ≡ₚ map_to_list themes ->
  ListThemes visit ≡ₚ presetNames /\
  NoDup (ListThemes visit) /\
  length (ListThemes visit) = 8 /\
  forall name, name ∈ ListThemes visit -> themes !! name = Some (GetTheme name).
Proof.
  intros Hvisit. rewrite ListThemes_names.
  assert (Hperm : visit.*1 ≡ₚ presetNames).
  { rewrite Hvisit. unfold themes, presetNames.
    by rewrite (map_to_list_to_map presets presetNames_NoDup). }
  split; [done|]. split; [|split].
  - rewrite Hperm. apply presetNames_NoDup.
  - by rewrite Hperm.
  - intros name Hname. apply list_elem_of_fmap in Hname as [[name' t] [-> Hin]].
    rewrite Hvisit in Hin. apply elem_of_map_to_list in Hin. simpl.
    unfold GetTheme. by rewrite Hin.
Qed.

Lemma ListThemes_lists_the_presets_witness :
  ListThemes (map_to_list themes) ≡ₚ presetNames /\
  NoDup (ListThemes (map_to_list themes)) /\
  length (ListThemes (map_to_list themes)) = 8 /\
  forall name, name ∈ ListThemes (map_to_list themes) ->
    themes !! name = Some (GetTheme name).
Proof. apply (ListThemes_lists_the_presets (map_to_list themes)). reflexivity. Defined.

Section LoadFacts.

Variable foldName : string -> string.

(** A file that gives every field of a theme loads as that theme, without
    an error, whatever the case folding of the decoder does: every key is
    the tag of its field as it is written. *)
Theorem LoadThemeFromFile_round_trip (t : Theme) :
  LoadThemeFromFile foldName (Document (themeDocument t)) = (t, None).
Proof. destruct t. reflexivity. Qed.

End LoadFacts.

Section ParseColorFacts.

Variable scanHex : string -> nat -> option (list Z).

Variable scanError : string -> nat -> string.

Lemma ParseColorErr_colorOf (hex : string) :
  colorOf (ParseColorErr scanHex scanError hex) = ParseColor scanHex hex.
Proof.
  unfold ParseColorErr, ParseColor. destruct hex as [|c rest]; [done|].
  destruct (String.length _ =? 6).
  - by destruct (scanHex _ 3) as [[|r [|g [|b [|]]]]|].
  - destruct (String.length _ =? 8); [|done].
    by destruct (scanHex _ 4) as [[|r [|g [|b [|a [|]]]]]|].
Qed.

(** The [#] in front of a colour is optional: for a string that is not
    empty and does not start with [#] itself, [ParseColor] returns the same
    with the [#] in front and without it, the same colour or the same
    error. The empty string is the exception: alone it is the error of an
    empty colour string, with [#] in front the error of an invalid format. *)
Theorem ParseColor_hash_is_optional (hex : string) :
  hex <> EmptyString -> hasHash hex = false ->
  ParseColorErr scanHex scanError (String "#" hex) =
    ParseColorErr scanHex scanError hex /\
  ParseColor scanHex (String "#" hex) = ParseColor scanHex hex /\
  ParseColorErr scanHex scanError EmptyString = inr EmptyColorString /\
  ParseColorErr scanHex scanError "#" = inr (InvalidColorFormat EmptyString).
Proof.
  intros Hne Hhash.
  assert (Herr : ParseColorErr scanHex scanError (String "#" hex) =
                 ParseColorErr scanHex scanError hex).
  { destruct hex as [|c rest]; [done|].
    simpl in Hhash. unfold ParseColorErr. by rewrite Hhash. }
  split; [done|]. split; [|done].
  by rewrite <- !ParseColorErr_colorOf, Herr.
Qed.

(** [ParseColor] accepts nothing but six or eight characters after the
    optional [#]; with six, the colour is opaque. *)
Theorem ParseColor_accepts_six_or_eight (hex : string) (c : RGBA) :
  ParseColor scanHex hex = Some c ->
  String.length (digitsOf hex) = 6 /\ A c = 255%Z \/
  String.length (digitsOf hex) = 8.
Proof.
  unfold ParseColor, digitsOf. destruct hex as [|ch rest]; [done|].
  destruct (String.length _ =? 6) eqn:Hsix.
  - apply Nat.eqb_eq in Hsix. intros Hparse. left. split; [done|].
    destruct (scanHex _ 3) as [[|r [|g [|b [|]]]]|]; try done.
    by injection Hparse as <-.
  - destruct (String.length _ =? 8) eqn:Height; [|done].
    apply Nat.eqb_eq in Height. by right.
Qed.

End ParseColorFacts.

Lemma ParseColor_hash_is_optional_witness :
  ParseColorErr hexPairs (fun _ _ => "unexpected EOF") "#98C37" =
    ParseColorErr hexPairs (fun _ _ => "unexpected EOF") "98C37" /\
  ParseColorErr hexPairs (fun _ _ => "unexpected EOF") "98C37" =
    inr (InvalidColorFormat "98C37").
Proof.
  split; [|reflexivity].
  apply (ParseColor_hash_is_optional hexPairs (fun _ _ => "unexpected EOF") "98C37");
    [discriminate | reflexivity].
Defined.

Lemma ParseColor_accepts_six_or_eight_witness :
  String.length (digitsOf "#98C379") = 6 /\ A (mkRGBA 152 195 121 255) = 255%Z \/
  String.length (digitsOf "#98C379") = 8.
Proof.
  apply (ParseColor_accepts_six_or_eight hexPairs "#98C379" (mkRGBA 152 195 121 255)).
  reflexivity.
Defined.

End ThemeMoreFacts.

(** ** The improved parser as the root command runs it *)

Module CmdMoreFacts.

Import Ansi CmdMore PlainText.
Local Open Scope Z_scope.

(** With [--improved-ansi] and no [--columns], captured output of ordinary
    characters makes [Parse] fail exactly when it has a line of more than
    500 characters. *)
Theorem improved_parse_fails_beyond_500 (explicitCols : Z) (parsed : list ColoredRune) :
  explicitCols <= 0 ->
  len parsed < maxInt ->
  forallb ordinary parsed = true ->
  improvedParse explicitCols parsed = Some Panic <-> fits 500 0 parsed = false.
Proof.
  intros Hcols Hlen Hord. unfold improvedParse, improvedColumns.
  destruct (Z.ltb_spec 0 explicitCols); [lia|].
  unfold interpret, Parse, ParseWith, NewVirtualTerminal.
  change (500 <=? 0) with false. cbv iota.
  destruct (parseLoop_plain parsed 500 ltac:(unfold maxInt; lia) Hlen Hord
              (length parsed) 0%nat (mkVT [[]] 0 0 0 500)) as [Hok Hpanic];
    [lia | constructor; simpl; done || lia |].
  rewrite drop_0 in Hok, Hpanic. simpl in Hok, Hpanic.
  destruct (fits 500 0 parsed).
  - destruct Hok as (vt' & -> & _); [done|]. simpl. split; done.
  - rewrite Hpanic by done. done.
Qed.

Lemma improved_parse_fails_beyond_500_witness :
  improvedParse 0 (replicate 501 (plainRune (rune "x"))) = Some Panic <->
  fits 500 0 (replicate 501 (plainRune (rune "x"))) = false.
Proof.
  apply (improved_parse_fails_beyond_500 0 (replicate 501 (plainRune (rune "x"))));
    [lia | unfold len, maxInt; rewrite length_replicate; lia | by vm_compute].
Defined.

End CmdMoreFacts.
